(** * reactive-db-js: the collection engine of [lib/reactive-collection.js]

    A shallow embedding of the [ReactiveCollection] class and the properties
    its specification states about it.

    Modelling decisions, each local to the definition that carries it:

    - JavaScript values are the inductive type [JS.value].  Numbers are the
      integers ([Z]): fractions, [NaN] and the infinities are outside the
      model.  Object and array values carry a reference identity, which is
      what [===] compares; their own properties are an association list in
      [Object.keys] order.
    - Three primitives of the host are the code's on a part of their domain
      only, and a property that depends on one of them outside that part
      says so by a hypothesis.  [JS.get_prop] sees own properties: members
      inherited along the prototype chain ([toString], [constructor], the
      array and string methods) are not modelled, so that a read of a
      property that the object may lack is the code's under a name that is
      no member of [Object.prototype] ([inherited_name]).
      [JS.string_to_number] knows the empty string and the signed decimal
      integers; a hexadecimal, fractional or exponent literal is [NaN] to it
      ([number_as_modelled], [surely_nan]).  [JS.sort_m] is the host's
      stable sort for a comparator that orders the elements ([sortable]);
      with an inconsistent comparator the order that the host returns is
      its own.
    - Documents handed to or stored in a collection are objects of a heap
      ([heap], a list indexed by location), so that the aliasing between the
      caller's object, the stored document and the results of [find] is the
      one of the source.  The values held in the fields of a document are
      immutable trees: the collection never mutates below the top level.
    - A promise is modelled by its final state ([outcome]); every public
      operation is run to completion before the next one starts, as the
      cooperative scheduling of the source does when each call is awaited.
    - [setTimeout]/[clearTimeout] are modelled by the set of armed timer
      handles; the firing of a timer is an explicit transition ([fire]).
      The 200 ms delay itself is not modelled.
    - Subscriber callbacks are opaque: a delivery is recorded as an event
      ([delivery]); callbacks are taken to return normally and not to call
      back into the collection.
    - [modify] (package modifyjs) is an external collaborator: the
      development is parametric in it.
    - [ReactiveDatabase] holds its collections by reference; of the members
      that its [collections] object inherits only the names matter: under
      one of them [collections[name]] is not [undefined]. *)

From stdpp Require Import base list strings pretty.
From Stdlib Require Import ZArith Lia Ascii String Sorted.

#[local] Set Warnings "-register-all".
Open Scope Z_scope.

(* ===================================================================== *)
(** * Host language: values and primitives *)
(* ===================================================================== *)

Module JS.

(** Reference identity of an object or array value. *)
Definition ref := nat.

Inductive value : Type :=
| VUndefined
| VNull
| VBool (b : bool)
| VNum (n : Z)
| VStr (s : string)
| VObj (r : ref) (fields : list (string * value))
| VArr (r : ref) (elems : list value).
Arguments VObj r%_nat fields.
Arguments VArr r%_nat elems.

(** Own enumerable properties of a plain object, in [Object.keys] order. *)
Definition obj := list (string * value).

(** Exceptions; the messages are those of the source, without their
    quotation marks. *)
Inductive error : Type :=
| TypeError (msg : string)
| Error (msg : string).

(** Synchronous evaluation: a value or a thrown exception. *)
Inductive result (A : Type) : Type :=
| Ok (a : A)
| Throw (e : error).
Arguments Ok {A} a.
Arguments Throw {A} e.

#[global] Instance result_ret : MRet result := fun A a => Ok a.
#[global] Instance result_bind : MBind result := fun A B k m =>
  match m with
  | Ok a => k a
  | Throw e => Throw e
  end.
#[global] Instance result_fmap : FMap result := fun A B f m =>
  match m with
  | Ok a => Ok (f a)
  | Throw e => Throw e
  end.

(** ** Objects as association lists *)

Fixpoint obj_lookup (k : string) (o : obj) : option value :=
  match o with
  | [] => None
  | (k', v) :: o' => if String.eqb k' k then Some v else obj_lookup k o'
  end.

Definition obj_has (k : string) (o : obj) : bool :=
  match obj_lookup k o with Some _ => true | None => false end.

(** [o[k] = v]: an existing property keeps its place, a new one is added
    last. *)
Fixpoint obj_set (k : string) (v : value) (o : obj) : obj :=
  match o with
  | [] => [(k, v)]
  | (k', v') :: o' =>
      if String.eqb k' k then (k', v) :: o' else (k', v') :: obj_set k v o'
  end.

(** [delete o[k]]. *)
Fixpoint obj_delete (k : string) (o : obj) : obj :=
  match o with
  | [] => []
  | (k', v') :: o' =>
      if String.eqb k' k then obj_delete k o' else (k', v') :: obj_delete k o'
  end.

Definition obj_keys (o : obj) : list string := map fst o.

(** ** Conversions *)

Definition truthy (v : value) : bool :=
  match v with
  | VUndefined | VNull => false
  | VBool b => b
  | VNum n => negb (n =? 0)
  | VStr s => negb (String.eqb s "")
  | VObj _ _ | VArr _ _ => true
  end.

(** [typeof v === 'object'] *)
Definition typeof_object (v : value) : bool :=
  match v with
  | VNull | VObj _ _ | VArr _ _ => true
  | _ => false
  end.

Definition isArray (v : value) : bool :=
  match v with VArr _ _ => true | _ => false end.

Fixpoint join_strings (sep : string) (l : list string) : string :=
  match l with
  | [] => ""
  | [s] => s
  | s :: l' => s +:+ sep +:+ join_strings sep l'
  end.

(** [String(v)], with the default [toString] of objects and arrays. *)
Fixpoint to_string (v : value) : string :=
  match v with
  | VUndefined => "undefined"
  | VNull => "null"
  | VBool true => "true"
  | VBool false => "false"
  | VNum n => pretty n
  | VStr s => s
  | VObj _ _ => "[object Object]"
  | VArr _ vs =>
      join_strings ","
        ((fix elems (vs : list value) : list string :=
            match vs with
            | [] => []
            | VUndefined :: vs' | VNull :: vs' => "" :: elems vs'
            | v' :: vs' => to_string v' :: elems vs'
            end) vs)
  end.

Definition is_whitespace (c : ascii) : bool :=
  let n := nat_of_ascii c in
  ((n =? 32) || (n =? 9) || (n =? 10) || (n =? 11) || (n =? 12) || (n =? 13))%nat.

Fixpoint trim_left (s : string) : string :=
  match s with
  | String c s' => if is_whitespace c then trim_left s' else s
  | EmptyString => EmptyString
  end.

Definition trim (s : string) : string :=
  String.rev (trim_left (String.rev (trim_left s))).

Definition digit_of (c : ascii) : option Z :=
  let n := nat_of_ascii c in
  if ((48 <=? n) && (n <=? 57))%nat then Some (Z.of_nat (n - 48)) else None.

Fixpoint parse_digits (acc : Z) (s : string) : option Z :=
  match s with
  | EmptyString => Some acc
  | String c s' =>
      match digit_of c with
      | Some d => parse_digits (10 * acc + d) s'
      | None => None
      end
  end.

(** [Number(s)] on the integer fragment: the empty string is 0, an optionally
    signed run of decimal digits is its value, anything else is [NaN]
    ([None]).  The other numeric literals of the host (['0x10'], ['1.5'],
    ['1e3'], ['Infinity']) are [NaN] here and numbers there: a string that
    begins like a number and does not parse is outside the model. *)
Definition string_to_number (s : string) : option Z :=
  match trim s with
  | EmptyString => Some 0
  | String "-" (String _ _ as ds) => Z.opp <$> parse_digits 0 ds
  | String "+" (String _ _ as ds) => parse_digits 0 ds
  | String _ _ as ds => parse_digits 0 ds
  end.

(** [ToPrimitive] with the default [valueOf]/[toString]. *)
Definition to_primitive (v : value) : value :=
  match v with
  | VObj _ _ | VArr _ _ => VStr (to_string v)
  | _ => v
  end.

(** [ToNumber]; [None] is [NaN]. *)
Definition to_number (v : value) : option Z :=
  match to_primitive v with
  | VUndefined => None
  | VNull => Some 0
  | VBool b => Some (if b then 1 else 0)
  | VNum n => Some n
  | VStr s => string_to_number s
  | _ => None
  end.

(** ** Operators *)

(** [a === b] *)
Definition strict_eq (a b : value) : bool :=
  match a, b with
  | VUndefined, VUndefined => true
  | VNull, VNull => true
  | VBool x, VBool y => Bool.eqb x y
  | VNum x, VNum y => x =? y
  | VStr x, VStr y => String.eqb x y
  | VObj r _, VObj r' _ => (r =? r')%nat
  | VArr r _, VArr r' _ => (r =? r')%nat
  | _, _ => false
  end.

(** The abstract relational comparison: [None] when one side is [NaN]. *)
Definition compare (a b : value) : option comparison :=
  match to_primitive a, to_primitive b with
  | VStr x, VStr y => Some (String.compare x y)
  | pa, pb =>
      match to_number pa, to_number pb with
      | Some x, Some y => Some (x ?= y)
      | _, _ => None
      end
  end.

(** [a < b], [a > b], [a <= b], [a >= b] *)
Definition lt (a b : value) : bool :=
  match compare a b with Some Lt => true | _ => false end.
Definition gt (a b : value) : bool :=
  match compare a b with Some Gt => true | _ => false end.
Definition le (a b : value) : bool :=
  match compare a b with Some Lt | Some Eq => true | _ => false end.
Definition ge (a b : value) : bool :=
  match compare a b with Some Gt | Some Eq => true | _ => false end.

(** ** Property access *)

Definition index_keys (n : nat) : list string := map pretty (seq 0 n).

Definition is_index (k : string) (n : nat) : bool :=
  existsb (String.eqb k) (index_keys n).

Fixpoint index_of_key (k : string) (i n : nat) : option nat :=
  match n with
  | O => None
  | S n' => if String.eqb k (pretty i) then Some i else index_of_key k (S i) n'
  end.

Definition cannot_convert : error :=
  TypeError "Cannot convert undefined or null to object".

(** [Object.prototype.hasOwnProperty.call(v, k)] *)
Definition has_own (v : value) (k : string) : result bool :=
  match v with
  | VUndefined | VNull => Throw cannot_convert
  | VObj _ fs => Ok (obj_has k fs)
  | VArr _ vs => Ok (is_index k (List.length vs) || String.eqb k "length")
  | VStr s => Ok (is_index k (String.length s) || String.eqb k "length")
  | VBool _ | VNum _ => Ok false
  end.

Definition string_get (s : string) (i : nat) : value :=
  match String.get i s with
  | Some c => VStr (String c EmptyString)
  | None => VUndefined
  end.

(** [v[k]], own properties only: the code's read when [k] is an own property
    of [v], or when no object on the prototype chain of [v] has a member
    [k]. *)
Definition get_prop (v : value) (k : string) : result value :=
  match v with
  | VUndefined | VNull =>
      Throw (TypeError "Cannot read properties of undefined or null")
  | VObj _ fs => Ok (default VUndefined (obj_lookup k fs))
  | VArr _ vs =>
      if String.eqb k "length" then Ok (VNum (Z.of_nat (List.length vs)))
      else match index_of_key k 0 (List.length vs) with
           | Some i => Ok (nth i vs VUndefined)
           | None => Ok VUndefined
           end
  | VStr s =>
      if String.eqb k "length" then Ok (VNum (Z.of_nat (String.length s)))
      else match index_of_key k 0 (String.length s) with
           | Some i => Ok (string_get s i)
           | None => Ok VUndefined
           end
  | VBool _ | VNum _ => Ok VUndefined
  end.

(** [Object.keys(v)] *)
Definition own_keys (v : value) : result (list string) :=
  match v with
  | VUndefined | VNull => Throw cannot_convert
  | VObj _ fs => Ok (obj_keys fs)
  | VArr _ vs => Ok (index_keys (List.length vs))
  | VStr s => Ok (index_keys (String.length s))
  | VBool _ | VNum _ => Ok []
  end.

(** ** Array primitives *)

(** [l.findIndex(p)], [None] for -1. *)
Fixpoint findIndex {A} (p : A -> bool) (l : list A) : option nat :=
  match l with
  | [] => None
  | x :: l' => if p x then Some O else S <$> findIndex p l'
  end.

(** [l.find(p)] *)
Fixpoint find_first {A} (p : A -> bool) (l : list A) : option A :=
  match l with
  | [] => None
  | x :: l' => if p x then Some x else find_first p l'
  end.

(** [haystack.indexOf(x) >= 0] as the source uses it on the operand of [$in]
    and [$nin]: an array is searched with [===], a string for the substring
    [String(x)], and any other operand has no [indexOf] method. *)
Definition indexOf_found (haystack x : value) : result bool :=
  match haystack with
  | VArr _ vs => Ok (existsb (strict_eq x) vs)
  | VStr s =>
      Ok (match String.index 0 (to_string x) s with Some _ => true | None => false end)
  | _ => Throw (TypeError "indexOf is not a function")
  end.

(** [l.some(f)] where [f] may throw: stops at the first [true] or exception. *)
Definition some_m {A} (f : A -> result bool) : list A -> result bool :=
  fix go (l : list A) : result bool :=
    match l with
    | [] => Ok false
    | x :: l' =>
        match f x with
        | Ok true => Ok true
        | Ok false => go l'
        | Throw e => Throw e
        end
    end.

(** [some] over the elements of an array value, whose keys are the indices. *)
Definition some_indexed {A} (f : string -> A -> result bool)
  : nat -> list A -> result bool :=
  fix go (i : nat) (l : list A) : result bool :=
    match l with
    | [] => Ok false
    | x :: l' =>
        match f (pretty i) x with
        | Ok true => Ok true
        | Ok false => go (S i) l'
        | Throw e => Throw e
        end
    end.

(** [l.filter(p)] where [p] may throw. *)
Fixpoint filter_m {A} (p : A -> result bool) (l : list A) : result (list A) :=
  match l with
  | [] => Ok []
  | x :: l' =>
      match p x with
      | Ok b =>
          match filter_m p l' with
          | Ok r => Ok (if b then x :: r else r)
          | Throw e => Throw e
          end
      | Throw e => Throw e
      end
  end.

(** [l.splice(start, deleteCount)] on integer arguments: the removed elements
    and what is left of [l].  [deleteCount = None] is the one-argument form,
    which removes up to the end. *)
Definition splice {A} (l : list A) (start : Z) (deleteCount : option Z)
  : list A * list A :=
  let len := Z.of_nat (List.length l) in
  let s := if start <? 0 then Z.max (len + start) 0 else Z.min start len in
  let d := match deleteCount with
           | None => len - s
           | Some c => Z.min (Z.max c 0) (len - s)
           end in
  (firstn (Z.to_nat d) (skipn (Z.to_nat s) l),
   firstn (Z.to_nat s) l ++ skipn (Z.to_nat (s + d)) l).

(** [l.sort(cmp)] for a comparator that may throw.  The host's sort is
    stable; for a comparator that is a consistent ordering every stable sort
    returns the list that this insertion sort returns.  For a comparator
    that is none (one that answers -1 both ways) the result of the host
    depends on its algorithm, and this definition does not stand for it. *)
Fixpoint sort_insert_m {A} (cmp : A -> A -> result Z) (x : A) (l : list A)
  : result (list A) :=
  match l with
  | [] => Ok [x]
  | y :: l' =>
      match cmp x y with
      | Ok c =>
          if c <=? 0 then Ok (x :: y :: l')
          else match sort_insert_m cmp x l' with
               | Ok r => Ok (y :: r)
               | Throw e => Throw e
               end
      | Throw e => Throw e
      end
  end.

Fixpoint sort_m {A} (cmp : A -> A -> result Z) (l : list A) : result (list A) :=
  match l with
  | [] => Ok []
  | x :: l' =>
      match sort_m cmp l' with
      | Ok r => sort_insert_m cmp x r
      | Throw e => Throw e
      end
  end.

End JS.

Import JS.

(* ===================================================================== *)
(** * Predicate matcher and sort comparator *)
(* ===================================================================== *)

(** One key of an operator sub-query: the [switch] of
    [_elementIsValidForQuery].  [v] is [elementToTest[attribute]], [operand]
    is [currentSubQuery[subAttribute]] and [nested] is the recursive call of
    the [default] case. *)
Definition operatorDoNotMatch (v operand : value) (subAttribute : string)
    (nested : result bool) : result bool :=
  if String.eqb subAttribute "$lte" then Ok (gt v operand)
  else if String.eqb subAttribute "$lt" then Ok (ge v operand)
  else if String.eqb subAttribute "$gte" then Ok (lt v operand)
  else if String.eqb subAttribute "$gt" then Ok (le v operand)
  else if String.eqb subAttribute "$ne" then Ok (strict_eq v operand)
  else if String.eqb subAttribute "$eq" then Ok (negb (strict_eq v operand))
  else if String.eqb subAttribute "$in" then negb <$> indexOf_found operand v
  else if String.eqb subAttribute "$nin" then indexOf_found operand v
  else if String.eqb subAttribute "$exists" then
    if truthy operand then Ok (strict_eq v VUndefined)
    else Ok (negb (strict_eq v VUndefined))
  else negb <$> nested.

(** One key of the query: the callback of the outer [some].  [recur] is
    [_elementIsValidForQuery(_, currentSubQuery)]. *)
Definition attributeDoNotMatch (recur : value -> result bool)
    (elementToTest : value) (attribute : string) (currentSubQuery : value)
  : result bool :=
  absent ← (if truthy currentSubQuery
            then negb <$> has_own elementToTest attribute
            else Ok false);
  if (absent : bool) then Ok true
  else if truthy currentSubQuery && typeof_object currentSubQuery then
    keys ← own_keys currentSubQuery;
    some_m (fun subAttribute =>
              v ← get_prop elementToTest attribute;
              operand ← get_prop currentSubQuery subAttribute;
              operatorDoNotMatch v operand subAttribute (recur v))
           keys
  else
    v ← get_prop elementToTest attribute;
    Ok (negb (strict_eq v currentSubQuery)).

(** [_elementIsValidForQuery], by recursion on the query: the [default] case
    of the source recurses on [currentSubQuery], a property of [query].  The
    keys of a string query are its indices and its sub-queries single
    characters, on which the source does not recurse. *)
Fixpoint matches_query (query : value) (elementToTest : value) {struct query}
  : result bool :=
  match query with
  | VUndefined | VNull => Throw cannot_convert
  | VObj _ fs =>
      negb <$> some_m (fun '(attribute, currentSubQuery) =>
                         attributeDoNotMatch (matches_query currentSubQuery)
                           elementToTest attribute currentSubQuery) fs
  | VArr _ vs =>
      negb <$> some_indexed (fun attribute currentSubQuery =>
                               attributeDoNotMatch (matches_query currentSubQuery)
                                 elementToTest attribute currentSubQuery) 0%nat vs
  | VStr s =>
      negb <$> some_m (fun attribute =>
                         currentSubQuery ← get_prop query attribute;
                         attributeDoNotMatch (fun _ => Ok true)
                           elementToTest attribute currentSubQuery)
                      (index_keys (String.length s))
  | VBool _ | VNum _ => Ok true
  end.

Definition _elementIsValidForQuery (elementToTest query : value) : result bool :=
  matches_query query elementToTest.

(** [_orderByManyProperties] from the key at [keyIndex] on: [suffix] is
    [keys.slice(keyIndex)], so that [keys[keyIndex]] is its head,
    [keyIndex >= keys.length] says that it is empty, and [keyIndex + 1] is
    its tail.  Past the end [keys[keyIndex]] is [undefined], which as a
    property name reads ["undefined"]. *)
Fixpoint orderBy_from (a b sort : value) (suffix : list string) : result Z :=
  let currentKey := match suffix with k :: _ => k | [] => "undefined" end in
  va ← get_prop a currentKey;
  vb ← get_prop b currentKey;
  if gt va vb then
    d ← get_prop sort currentKey;
    Ok (if gt d (VNum 0) then 1 else -1)
  else if lt va vb then
    d ← get_prop sort currentKey;
    Ok (if lt d (VNum 0) then 1 else -1)
  else
    match suffix with
    | [] => Ok 0
    | _ :: rest => orderBy_from a b sort rest
    end.

Definition _orderByManyProperties (a b sort : value) (keys : list string)
    (keyIndex : nat) : result Z :=
  orderBy_from a b sort (skipn keyIndex keys).
Arguments _orderByManyProperties a b sort keys keyIndex%_nat.

(* ===================================================================== *)
(** * The collection and its environment *)
(* ===================================================================== *)

(** A location of the heap: the identity of a document. *)
Definition loc := nat.

(** The objects that documents are.  Reading a location that holds no object
    gives an object without properties, and writing to it does nothing; no
    operation creates such a location. *)
Abbreviation heap := (list obj).

Definition deref (h : heap) (l : loc) : obj := default [] (h !! l).

(** The document at [l], as the value the matcher and [modify] receive. *)
Definition doc_value (h : heap) (l : loc) : value := VObj l (deref h l).

(** [el._id] *)
Definition id_of (h : heap) (l : loc) : value :=
  default VUndefined (obj_lookup "_id" (deref h l)).

(** [new Object] with the given properties. *)
Definition alloc (o : obj) (h : heap) : loc * heap := (List.length h, h ++ [o]).

Inductive operationType : Type := OpInsert | OpUpdate | OpRemove.

Record Change : Type := {
  ch_collection : string;
  ch_id : value;
  ch_operationType : operationType;
  ch_fullDocument : option loc
}.

Definition callback := nat.
Definition timer := nat.

(** The fields of a [ReactiveCollection] instance.  [_watchers] is the
    [Map] in insertion order. *)
Record ReactiveCollection : Type := {
  _name : string;
  _content : list loc;
  _watchers : list (value * callback);
  _lastId : nat;
  _changesToNotify : list Change;
  _notifyTimeout : option timer
}.

(** [new ReactiveCollection(name)] *)
Definition constructor (name : string) : ReactiveCollection :=
  {| _name := name; _content := []; _watchers := []; _lastId := 0%nat;
     _changesToNotify := []; _notifyTimeout := None |}.

(** The collection in its environment: the heap and the host's timeouts that
    have been set and have neither fired nor been cleared. *)
Record world : Type := {
  objects : heap;
  this : ReactiveCollection;
  timers : list timer;
  next_timer : timer
}.

Definition new_world (name : string) (h : heap) : world :=
  {| objects := h; this := constructor name; timers := []; next_timer := 1%nat |}.

Definition set_objects (h : heap) (w : world) : world :=
  {| objects := h; this := this w; timers := timers w; next_timer := next_timer w |}.

Definition set_this (c : ReactiveCollection) (w : world) : world :=
  {| objects := objects w; this := c; timers := timers w; next_timer := next_timer w |}.

Definition set_content (ls : list loc) (c : ReactiveCollection) : ReactiveCollection :=
  {| _name := _name c; _content := ls; _watchers := _watchers c;
     _lastId := _lastId c; _changesToNotify := _changesToNotify c;
     _notifyTimeout := _notifyTimeout c |}.

Definition set_watchers (ws : list (value * callback)) (c : ReactiveCollection)
  : ReactiveCollection :=
  {| _name := _name c; _content := _content c; _watchers := ws;
     _lastId := _lastId c; _changesToNotify := _changesToNotify c;
     _notifyTimeout := _notifyTimeout c |}.

Definition set_lastId (n : nat) (c : ReactiveCollection) : ReactiveCollection :=
  {| _name := _name c; _content := _content c; _watchers := _watchers c;
     _lastId := n; _changesToNotify := _changesToNotify c;
     _notifyTimeout := _notifyTimeout c |}.

Definition set_changesToNotify (cs : list Change) (c : ReactiveCollection)
  : ReactiveCollection :=
  {| _name := _name c; _content := _content c; _watchers := _watchers c;
     _lastId := _lastId c; _changesToNotify := cs;
     _notifyTimeout := _notifyTimeout c |}.

Definition set_notifyTimeout (t : option timer) (c : ReactiveCollection)
  : ReactiveCollection :=
  {| _name := _name c; _content := _content c; _watchers := _watchers c;
     _lastId := _lastId c; _changesToNotify := _changesToNotify c;
     _notifyTimeout := t |}.

(** The final state of the promise a call returns; [Thrown] is a call that
    raised instead of returning one, [Pending] a promise that is never
    settled. *)
Inductive outcome (A : Type) : Type :=
| Resolved (a : A)
| Rejected (e : error)
| Pending
| Thrown (e : error).
Arguments Resolved {A} a.
Arguments Rejected {A} e.
Arguments Pending {A}.
Arguments Thrown {A}.

(** [p.then(f)]: a callback that throws rejects the derived promise. *)
Definition then_ {A B} (p : outcome A) (f : A -> result B) : outcome B :=
  match p with
  | Resolved a => match f a with Ok b => Resolved b | Throw e => Rejected e end
  | Rejected e => Rejected e
  | Pending => Pending
  | Thrown e => Thrown e
  end.

(** ** Subscriptions *)

(** [map.has(k)], [map.set(k, v)], [map.delete(k)] on the entries of a [Map]
    in insertion order; keys are compared as [===] does. *)
Definition map_has {V} (k : value) (m : list (value * V)) : bool :=
  existsb (fun e => strict_eq (fst e) k) m.

Fixpoint map_set {V} (k : value) (v : V) (m : list (value * V)) : list (value * V) :=
  match m with
  | [] => [(k, v)]
  | (k', v') :: m' =>
      if strict_eq k' k then (k', v) :: m' else (k', v') :: map_set k v m'
  end.

Definition map_delete {V} (k : value) (m : list (value * V)) : list (value * V) :=
  filter (fun e => strict_eq (fst e) k = false) m.

(** [subscribe(watcher, callback)]; a missing callback is [None]. *)
Definition subscribe (watcher : value) (cb : option callback) (w : world)
  : result unit * world :=
  match cb with
  | Some f =>
      if truthy watcher
      then (Ok (), set_this (set_watchers (map_set watcher f (_watchers (this w))) (this w)) w)
      else (Throw (Error "No watcher or callback has been specified"), w)
  | None => (Throw (Error "No watcher or callback has been specified"), w)
  end.

Definition unsubscribe (watcher : value) (w : world) : result unit * world :=
  if map_has watcher (_watchers (this w))
  then (Ok (), set_this (set_watchers (map_delete watcher (_watchers (this w))) (this w)) w)
  else (Throw (Error "No watcher has been specified"), w).

(** ** Notification *)

(** [clearTimeout(t)] and [setTimeout(f, 200)] on the armed timeouts. *)
Definition clearTimeout (t : timer) (w : world) : world :=
  {| objects := objects w; this := this w;
     timers := filter (fun t' => t' ≠ t) (timers w);
     next_timer := next_timer w |}.

Definition setTimeout (w : world) : timer * world :=
  (next_timer w,
   {| objects := objects w; this := this w;
      timers := timers w ++ [next_timer w];
      next_timer := S (next_timer w) |}).

(** The [reduce] of [_notifyChangesForIds]: one Change per id, with the
    document found under that id at this moment. *)
Definition changes_for (h : heap) (c : ReactiveCollection) (ids : list value)
    (op : operationType) : list Change :=
  map (fun current =>
         let updated := find_first (fun el => strict_eq (id_of h el) current)
                                   (_content c) in
         {| ch_collection := _name c; ch_id := current;
            ch_operationType := op; ch_fullDocument := updated |})
      ids.

Definition _notifyChangesForIds (ids : list value) (op : operationType)
    (w : world) : world :=
  let w1 := match _notifyTimeout (this w) with
            | Some t => set_this (set_notifyTimeout None (this w)) (clearTimeout t w)
            | None => w
            end in
  let data := changes_for (objects w1) (this w1) ids op in
  let kept := filter (fun el => existsb (strict_eq (ch_id el)) ids = false)
                     (_changesToNotify (this w1)) in
  let w2 := set_this (set_changesToNotify (kept ++ data) (this w1)) w1 in
  let '(t, w3) := setTimeout w2 in
  set_this (set_notifyTimeout (Some t) (this w3)) w3.

(** One invocation [callback.call(watcher, changes)]. *)
Record delivery : Type := {
  to_watcher : value;
  to_callback : callback;
  payload : list Change
}.

(** The body of the timeout set by [_notifyChangesForIds]. *)
Definition flush (w : world) : list delivery * world :=
  (map (fun e => {| to_watcher := fst e; to_callback := snd e;
                    payload := _changesToNotify (this w) |})
       (_watchers (this w)),
   set_this (set_changesToNotify [] (this w)) w).

(** The host fires the armed timeout [t]. *)
Definition fire (t : timer) (w : world) : option (list delivery * world) :=
  if bool_decide (t ∈ timers w)
  then Some (flush (clearTimeout t w))
  else None.

(** ** Document store *)

Definition count (w : world) : outcome nat :=
  Resolved (List.length (_content (this w))).

(** [_objectId()] *)
Definition _objectId (w : world) : value * world :=
  (VStr (pretty (_lastId (this w))),
   set_this (set_lastId (S (_lastId (this w))) (this w)) w).

(** The argument of the insert family. *)
Inductive data_arg : Type :=
| DataDoc (l : loc)
| DataArray (ls : list loc)
| DataNull
| DataPrimitive.

(** One round of the [forEach] of [insert]; the state is the world and
    [badId]. *)
Definition insert_check (st : world * value) (obj : loc) : world * value :=
  let '(w, badId) := st in
  if strict_eq (id_of (objects w) obj) VUndefined then
    let '(id, w') := _objectId w in
    (set_objects (<[obj := obj_set "_id" id (deref (objects w') obj)]> (objects w')) w',
     badId)
  else if match findIndex (fun el => strict_eq (id_of (objects w) obj)
                                               (id_of (objects w) el))
                          (_content (this w))
          with Some _ => true | None => false end
  then (w, id_of (objects w) obj)
  else (w, badId).

(** [data] after [if (!Array.isArray(data)) { data = [data] }]. *)
Definition batch (data : data_arg) : list loc :=
  match data with
  | DataArray ls => ls
  | DataDoc l => [l]
  | DataNull | DataPrimitive => []
  end.

Definition insert (data : data_arg) (w : world) : outcome unit * world :=
  match data with
  | DataPrimitive =>
      (Rejected (Error "data is not of type object or array"), w)
  | DataNull =>
      (Rejected (TypeError "Cannot read properties of null"), w)
  | DataDoc _ | DataArray _ =>
      let data := batch data in
      let '(w1, badId) := foldl insert_check (w, VNull) data in
      if negb (strict_eq badId VNull) then
        (Rejected (Error ("An object with _id " +:+ to_string badId
                          +:+ " already exist in this collection")), w1)
      else
        let w2 := set_this (set_content (_content (this w1) ++ data) (this w1)) w1 in
        let w3 := _notifyChangesForIds (map (id_of (objects w2)) data) OpInsert w2 in
        (Resolved (), w3)
  end.

Definition insertOne (data : data_arg) (w : world) : outcome unit * world :=
  match data with
  | DataPrimitive => (Rejected (Error "data is not of type object"), w)
  | DataArray _ => (Rejected (Error "data can't be an array"), w)
  | _ => insert data w
  end.

Definition insertMany (data : data_arg) (w : world) : outcome unit * world :=
  match data with
  | DataArray _ => insert data w
  | _ => (Rejected (Error "data must be an array"), w)
  end.

(** ** Query pipeline *)

(** The properties of the [options] argument that the collection reads;
    an absent property, like an absent argument, is [undefined]. *)
Record options : Type := {
  sort : value;
  skip : value;
  limit : value;
  upsert : value;
  justOne : value
}.

Definition no_options : options :=
  {| sort := VUndefined; skip := VUndefined; limit := VUndefined;
     upsert := VUndefined; justOne := VUndefined |}.

(** [{ ...options, limit: n }] *)
Definition with_limit (n : value) (o : options) : options :=
  {| sort := sort o; skip := skip o; limit := n;
     upsert := upsert o; justOne := justOne o |}.

(** [ToIntegerOrInfinity] on the integer fragment. *)
Definition to_integer (v : value) : Z := default 0 (to_number v).

(** [this._content.filter(el => this._elementIsValidForQuery(el, query))] *)
Definition find_filter (query : value) (w : world) : result (list loc) :=
  filter_m (fun el => _elementIsValidForQuery (doc_value (objects w) el) query)
           (_content (this w)).

(** The first [then] of [find]. *)
Definition find_sort (opts : options) (h : heap) (results : list loc)
  : result (list loc) :=
  keys ← own_keys (if truthy (sort opts) then sort opts else VObj 0 []);
  if (List.length keys =? 0)%nat then Ok results
  else sort_m (fun a b =>
                 _orderByManyProperties (doc_value h a) (doc_value h b)
                   (sort opts) keys 0%nat)
              results.

(** [options.skip > 0 ? results.splice(options.skip) : results] *)
Definition find_skip (opts : options) (results : list loc) : list loc :=
  if gt (skip opts) (VNum 0)
  then fst (splice results (to_integer (skip opts)) None)
  else results.

(** [options.limit > 0 ? results.splice(0, options.limit) : results] *)
Definition find_limit (opts : options) (results : list loc) : list loc :=
  if gt (limit opts) (VNum 0)
  then fst (splice results 0 (Some (to_integer (limit opts))))
  else results.

(** The object built for one result when a projection is given. *)
Definition project_one (projection : value) (projectionKeys : list string)
    (el : value) : result obj :=
  id ← get_prop el "_id";
  final ← foldl (fun (acc : result obj) current =>
                   final ← acc;
                   flag ← get_prop projection current;
                   if truthy flag
                   then v ← get_prop el current; Ok (obj_set current v final)
                   else Ok final)
                (Ok []) projectionKeys;
  let retVal := foldl (fun o e => obj_set (fst e) (snd e) o) [("_id", id)] final in
  own ← has_own projection "_id";
  flag ← get_prop projection "_id";
  if (own : bool) && negb (truthy flag) then Ok (obj_delete "_id" retVal)
  else Ok retVal.

(** The last [then] of [find]: the results themselves, or new objects. *)
Fixpoint find_project_all (projection : value) (projectionKeys : list string)
    (results : list loc) (h : heap) : result (list loc * heap) :=
  match results with
  | [] => Ok ([], h)
  | el :: rest =>
      retVal ← project_one projection projectionKeys (doc_value h el);
      let '(l, h1) := alloc retVal h in
      r ← find_project_all projection projectionKeys rest h1;
      Ok (l :: fst r, snd r)
  end.

Definition find_project (projection : value) (results : list loc) (h : heap)
  : result (list loc * heap) :=
  if truthy projection then
    projectionKeys ← own_keys projection;
    find_project_all projection projectionKeys results h
  else Ok (results, h).

(** [query = {}]: the default of the first parameter of [find], taken when
    the argument is [undefined].  The new object has no property, so that its
    identity is never compared. *)
Definition default_query (query : value) : value :=
  match query with
  | VUndefined => VObj 0 []
  | _ => query
  end.

Definition find (query projection : value) (opts : options) (w : world)
  : outcome (list loc) * world :=
  let query := default_query query in
  if negb (typeof_object query) && negb (isArray query) then
    (Rejected (Error "query must be an object"), w)
  else
    match find_filter query w with
    | Throw e => (Thrown e, w)
    | Ok results =>
        let p := Resolved results in
        let p := then_ p (find_sort opts (objects w)) in
        let p := then_ p (fun results => Ok (find_skip opts results)) in
        let p := then_ p (fun results => Ok (find_limit opts results)) in
        let p := then_ p (fun results => find_project projection results (objects w)) in
        match p with
        | Resolved (results, h) => (Resolved results, set_objects h w)
        | Rejected e => (Rejected e, w)
        | Pending => (Pending, w)
        | Thrown e => (Thrown e, w)
        end
    end.

Definition findOne (query projection : value) (opts : options) (w : world)
  : outcome (option loc) * world :=
  let '(p, w') := find query projection (with_limit (VNum 1) opts) w in
  (then_ p (fun results => Ok (head results)), w').

(** ** Mutation pipeline *)

(** The two [forEach] of [update] on one matched document: every property
    but [_id] is deleted, then every property of [modified] but [_id] is
    set. *)
Definition replace_content (result modified : obj) : obj :=
  let cleared :=
    foldl (fun o key => if negb (String.eqb key "_id") then obj_delete key o else o)
          result (obj_keys result) in
  foldl (fun o key =>
           if negb (String.eqb key "_id")
           then obj_set key (default VUndefined (obj_lookup key modified)) o
           else o)
        cleared (obj_keys modified).

(** [remove]'s [forEach] on one result; the state is the world and [ids]. *)
Definition remove_one (st : world * list value) (result : loc)
  : world * list value :=
  let '(w, ids) := st in
  match findIndex (fun el => strict_eq (id_of (objects w) el)
                                       (id_of (objects w) result))
                  (_content (this w)) with
  | Some index =>
      (set_this (set_content (snd (splice (_content (this w)) (Z.of_nat index) (Some 1)))
                             (this w)) w,
       ids ++ [id_of (objects w) result])
  | None => (w, ids)
  end.

Definition remove (query : value) (opts : options) (w : world)
  : outcome unit * world :=
  match find query VUndefined
             (if truthy (justOne opts) then with_limit (VNum 1) no_options
              else no_options) w with
  | (Resolved results, w1) =>
      let '(w2, ids) := foldl remove_one (w1, []) results in
      (Resolved (), _notifyChangesForIds ids OpRemove w2)
  | (Rejected e, w1) => (Rejected e, w1)
  | (Pending, w1) => (Pending, w1)
  | (Thrown e, w1) => (Thrown e, w1)
  end.

Section Update.

(** The patch-application collaborator, [modify(doc, patch)] of package
    modifyjs: a function of its two arguments that returns a new object or
    raises an exception. *)
Variable modify : value -> value -> result obj.

(** [update]'s [forEach] on one result.  An exception of [modify] ends the
    loop, and what the earlier rounds have written stays written: the state
    is the heap and the exception, if one has been raised. *)
Definition update_one (replace : value) (st : heap * option error) (result : loc)
  : heap * option error :=
  match st with
  | (h, Some e) => (h, Some e)
  | (h, None) =>
      match modify (doc_value h result) replace with
      | Ok modified =>
          (<[result := replace_content (deref h result) modified]> h, None)
      | Throw e => (h, Some e)
      end
  end.

(** In the source the promise of [update] is settled by [resolve] and
    [reject] only: a rejection inside the chain that starts at [find], which
    has no handler, leaves it pending, and so does an exception that [modify]
    raises in the callback of that chain; an exception raised by the call of
    [find] itself is raised in the executor, which rejects. *)
Definition update (query replace : value) (opts : options) (w : world)
  : outcome unit * world :=
  if negb (typeof_object replace) && negb (isArray replace) then
    (Rejected (Error "query must be an object"), w)
  else
    match find query VUndefined opts w with
    | (Resolved results, w1) =>
        if (List.length results =? 0)%nat then
          if truthy (upsert opts) then
            match modify query replace with
            | Ok doc =>
                let '(l, h) := alloc doc (objects w1) in
                match insertOne (DataDoc l) (set_objects h w1) with
                | (Resolved _, w2) => (Resolved (), w2)
                | (_, w2) => (Pending, w2)
                end
            | Throw _ => (Pending, w1)
            end
          else (Resolved (), w1)
        else
          match foldl (update_one replace) (objects w1, None) results with
          | (h, None) =>
              let w2 := set_objects h w1 in
              (Resolved (),
               _notifyChangesForIds (map (id_of (objects w2)) results) OpUpdate w2)
          | (h, Some _) => (Pending, set_objects h w1)
          end
    | (Rejected _, w1) => (Pending, w1)
    | (Pending, w1) => (Pending, w1)
    | (Thrown e, w1) => (Rejected e, w1)
    end.

Definition updateOne (query replace : value) (opts : options) (w : world)
  : outcome unit * world :=
  update query replace (with_limit (VNum 1) opts) w.

Definition updateMany (query replace : value) (opts : options) (w : world)
  : outcome unit * world :=
  update query replace opts w.

End Update.

(* ===================================================================== *)
(** * The database *)
(* ===================================================================== *)

(** An array index as a property key: the canonical decimal string of an
    integer below [2^32 - 1]. *)
Definition array_index (k : string) : option Z :=
  match parse_digits 0 k with
  | Some n =>
      if String.eqb (pretty n) k && (n <? 4294967295) then Some n else None
  | None => None
  end.

(** The own properties of an ordinary object in the order of [Object.keys]:
    array indices in ascending order, then the other keys in the order of
    their creation.  [own_insert] creates a property that the object does not
    have. *)
Fixpoint own_lookup {V} (k : string) (o : list (string * V)) : option V :=
  match o with
  | [] => None
  | (k', v) :: o' => if String.eqb k' k then Some v else own_lookup k o'
  end.

Fixpoint own_insert {V} (k : string) (v : V) (o : list (string * V))
  : list (string * V) :=
  match o with
  | [] => [(k, v)]
  | (k', v') :: o' =>
      match array_index k, array_index k' with
      | Some n, Some n' =>
          if n <? n' then (k, v) :: o else (k', v') :: own_insert k v o'
      | Some _, None => (k, v) :: o
      | None, _ => (k', v') :: own_insert k v o'
      end
  end.

(** The names that the object literal [{}] inherits from
    [Object.prototype]: under these [collections[name]] is not [undefined]
    although no collection has been created. *)
Definition object_prototype_names : list string :=
  ["constructor"; "__defineGetter__"; "__defineSetter__"; "hasOwnProperty";
   "__lookupGetter__"; "__lookupSetter__"; "isPrototypeOf";
   "propertyIsEnumerable"; "toString"; "valueOf"; "__proto__";
   "toLocaleString"].

(** The fields of a [ReactiveDatabase] instance.  [collections] holds, by
    name, references to the collections created so far, and [instances] is
    what these references point to.  A name is a string, as the
    documentation of [getCollection] requires. *)
Record ReactiveDatabase : Type := {
  collections : list (string * nat);
  instances : list ReactiveCollection
}.

(** [new ReactiveDatabase()] *)
Definition new_database : ReactiveDatabase :=
  {| collections := []; instances := [] |}.

(** What [this.collections[name]] evaluates to, when it is not
    [undefined]: a collection, or a member of [Object.prototype]. *)
Inductive member : Type :=
| Instance (r : nat)
| Inherited (name : string).

Definition collections_get (name : string) (db : ReactiveDatabase)
  : option member :=
  match own_lookup name (collections db) with
  | Some r => Some (Instance r)
  | None =>
      if existsb (String.eqb name) object_prototype_names
      then Some (Inherited name)
      else None
  end.

Definition connect (db : ReactiveDatabase) : outcome unit := Resolved ().

Definition showCollections (db : ReactiveDatabase) : list string :=
  map fst (collections db).

Definition getCollection (name : string) (db : ReactiveDatabase)
  : member * ReactiveDatabase :=
  match collections_get name db with
  | Some m => (m, db)
  | None =>
      let r := List.length (instances db) in
      (Instance r,
       {| collections := own_insert name r (collections db);
          instances := instances db ++ [constructor name] |})
  end.

(** The state of a database that [getCollection] maintains. *)
Definition registry_ok (db : ReactiveDatabase) : Prop :=
  NoDup (showCollections db)
  /\ (forall n, n ∈ showCollections db -> n ∉ object_prototype_names)
  /\ (forall n r, own_lookup n (collections db) = Some r ->
        _name <$> instances db !! r = Some n).

(** The database after [getCollection] has been called with each of the
    names. *)
Definition get_all (names : list string) (db : ReactiveDatabase)
  : ReactiveDatabase :=
  foldl (fun db name => snd (getCollection name db)) db names.

(* ===================================================================== *)
(** * The specification's vocabulary *)
(* ===================================================================== *)

(** Data model: the [_id] of a document is a string; a document handed to
    [insert] may lack it. *)
Definition id_string_or_absent (v : value) : bool :=
  match v with
  | VUndefined | VStr _ => true
  | _ => false
  end.

(** Some document of the batch carries an [_id] that a stored document
    has. *)
Definition batch_collides (h : heap) (content data : list loc) : bool :=
  existsb (fun obj =>
             negb (strict_eq (id_of h obj) VUndefined)
             && existsb (fun el => strict_eq (id_of h obj) (id_of h el)) content)
          data.

(** No two of the ids are equal, as [===] compares them. *)
Fixpoint distinct_ids (ids : list value) : bool :=
  match ids with
  | [] => true
  | id :: rest => negb (existsb (strict_eq id) rest) && distinct_ids rest
  end.

(** Every stored document has an [_id]. *)
Definition stored_have_id (w : world) : bool :=
  forallb (fun el => negb (strict_eq (id_of (objects w) el) VUndefined))
          (_content (this w)).

(** Every stored document is an object of the heap. *)
Definition stored_allocated (w : world) : bool :=
  forallb (fun el => (el <? List.length (objects w))%nat) (_content (this w)).

(** The state of a collection that its operations maintain. *)
Definition well_formed (w : world) : bool :=
  stored_have_id w && stored_allocated w.

(** The documents handed to [insert] are objects of the heap. *)
Definition batch_allocated (data : list loc) (w : world) : bool :=
  forallb (fun l => (l <? List.length (objects w))%nat) data.

(** What the [forEach] of [insert] may change: the counter, and the objects
    of the batch that had no [_id]. *)
Record ids_assigned (w : world) (processed : list loc) (w' : world) : Prop := {
  ia_this : this w' = set_lastId (_lastId (this w')) (this w);
  ia_timers : timers w' = timers w;
  ia_next_timer : next_timer w' = next_timer w;
  ia_length : List.length (objects w') = List.length (objects w);
  ia_objects : forall l,
      l ∉ processed \/ id_of (objects w) l <> VUndefined ->
      deref (objects w') l = deref (objects w) l
}.

(** Query pipeline, section 4.4 of the specification, in its words: sort
    only if the sort spec has a key; drop the first N only if N > 0; truncate
    to the first N only if N > 0. *)
Definition sort_keys (opts : options) : list string :=
  match sort opts with
  | VObj _ fs => obj_keys fs
  | VArr _ vs => index_keys (List.length vs)
  | VStr s => index_keys (String.length s)
  | _ => []
  end.

Definition spec_sort (opts : options) (h : heap) (l : list loc) : result (list loc) :=
  match sort_keys opts with
  | [] => Ok l
  | keys =>
      sort_m (fun a b => _orderByManyProperties (doc_value h a) (doc_value h b)
                           (sort opts) keys 0%nat) l
  end.

Definition spec_skip (opts : options) (l : list loc) : list loc :=
  match to_number (skip opts) with
  | Some n => if 0 <? n then drop (Z.to_nat n) l else l
  | None => l
  end.

Definition spec_limit (opts : options) (l : list loc) : list loc :=
  match to_number (limit opts) with
  | Some n => if 0 <? n then take (Z.to_nat n) l else l
  | None => l
  end.

(* ===================================================================== *)
(** * Scenarios *)
(* ===================================================================== *)

Definition num_doc (n : Z) : obj := [("num", VNum n)].

(** The [beforeEach] of the data manipulation tests:
    [insertMany([{num: 1}, {num: 2}, {num: 3}, {num: 4}])]. *)
Definition four_docs : world :=
  snd (insertMany (DataArray [0; 1; 2; 3]%nat)
         (new_world "test-collection" [num_doc 1; num_doc 2; num_doc 3; num_doc 4])).

Definition query_all : value := VObj 100 [].

Definition found (r : outcome (list loc) * world) : outcome (list obj) :=
  match fst r with
  | Resolved ls => Resolved (map (deref (objects (snd r))) ls)
  | Rejected e => Rejected e
  | Pending => Pending
  | Thrown e => Thrown e
  end.

(** A new collection with one subscriber, whose callback is [7]. *)
Definition watched (h : heap) : world :=
  snd (subscribe (VObj 50 []) (Some 7%nat) (new_world "test-collection" h)).

(** [insert({foo: 'bar'})] on it, and then the firing of the timeout. *)
Definition foo_inserted : world :=
  snd (insert (DataDoc 0%nat)
         (watched [[("foo", VStr "bar")]; [("bar", VStr "foo")]])).

Definition foo_flushed : world :=
  match fire 1%nat foo_inserted with
  | Some (_, w) => w
  | None => foo_inserted
  end.

Definition change (id : string) (op : operationType) (doc : option loc) : Change :=
  {| ch_collection := "test-collection"; ch_id := VStr id;
     ch_operationType := op; ch_fullDocument := doc |}.

Definition delivered (cs : list Change) : option (list delivery) :=
  Some [{| to_watcher := VObj 50 []; to_callback := 7%nat; payload := cs |}].

(** The collaborator on a patch without modifier operators, the way the
    tests of the repository use it ([update({num: 999}, {num: 10}, ...)],
    [update({foo: 'bar'}, {foo: 'barbar'})]): the patch is a replacement
    document, and the result has its properties; a patch that is not a plain
    object raises. *)
Definition modify_replacement (doc patch : value) : result obj :=
  match patch with
  | VObj _ fs => Ok fs
  | _ => Throw (Error "Modifier must be an object")
  end.

Definition only (name : string) (v : value) : options :=
  {| sort := if String.eqb name "sort" then v else VUndefined;
     skip := if String.eqb name "skip" then v else VUndefined;
     limit := if String.eqb name "limit" then v else VUndefined;
     upsert := if String.eqb name "upsert" then v else VUndefined;
     justOne := if String.eqb name "justOne" then v else VUndefined |}.

(* ===================================================================== *)
(** * Calls, and what is observed of a state *)
(* ===================================================================== *)

(** The keys that the [switch] of [_elementIsValidForQuery] names. *)
Definition is_operator (s : string) : bool :=
  existsb (String.eqb s)
    ["$lte"; "$lt"; "$gte"; "$gt"; "$ne"; "$eq"; "$in"; "$nin"; "$exists"].

(** Neither an object nor an array. *)
Definition is_primitive (v : value) : bool :=
  match v with
  | VObj _ _ | VArr _ _ => false
  | _ => true
  end.

(** [el[f]] for a stored document. *)
Definition field (h : heap) (f : string) (el : loc) : value :=
  default VUndefined (obj_lookup f (deref h el)).

(** The stored document [el] satisfies the query, without an exception. *)
Definition matches_stored (query : value) (w : world) (el : loc) : bool :=
  match _elementIsValidForQuery (doc_value (objects w) el) query with
  | Ok true => true
  | _ => false
  end.

(** [map.get(k)] on the entries of a [Map]. *)
Fixpoint map_get {V} (k : value) (m : list (value * V)) : option V :=
  match m with
  | [] => None
  | (k', v) :: m' => if strict_eq k' k then Some v else map_get k m'
  end.

(** At most one timeout is armed, and it is the one the collection holds. *)
Definition timers_ok (w : world) : bool :=
  match timers w with
  | [] => true
  | [t] => match _notifyTimeout (this w) with
           | Some t' => (t =? t')%nat
           | None => false
           end
  | _ => false
  end.

(** The [Change] that [_notifyChangesForIds] builds for an id under which no
    document is stored. *)
Definition change_without_document (name : string) (op : operationType)
    (id : value) : Change :=
  {| ch_collection := name; ch_id := id; ch_operationType := op;
     ch_fullDocument := None |}.

Section Calls.

Variable modify : value -> value -> result obj.

(** A call of a public method of the collection, or the firing of a timeout
    by the host. *)
Inductive call : Type :=
| CallSubscribe (watcher : value) (cb : option callback)
| CallUnsubscribe (watcher : value)
| CallCount
| CallInsert (data : data_arg)
| CallInsertOne (data : data_arg)
| CallInsertMany (data : data_arg)
| CallFind (query projection : value) (opts : options)
| CallFindOne (query projection : value) (opts : options)
| CallUpdate (query replace : value) (opts : options)
| CallUpdateOne (query replace : value) (opts : options)
| CallUpdateMany (query replace : value) (opts : options)
| CallRemove (query : value) (opts : options)
| Fire (t : timer).

(** The state after the call. *)
Definition run (c : call) (w : world) : world :=
  match c with
  | CallSubscribe watcher cb => snd (subscribe watcher cb w)
  | CallUnsubscribe watcher => snd (unsubscribe watcher w)
  | CallCount => w
  | CallInsert data => snd (insert data w)
  | CallInsertOne data => snd (insertOne data w)
  | CallInsertMany data => snd (insertMany data w)
  | CallFind query projection opts => snd (find query projection opts w)
  | CallFindOne query projection opts => snd (findOne query projection opts w)
  | CallUpdate query replace opts => snd (update modify query replace opts w)
  | CallUpdateOne query replace opts => snd (updateOne modify query replace opts w)
  | CallUpdateMany query replace opts => snd (updateMany modify query replace opts w)
  | CallRemove query opts => snd (remove query opts w)
  | Fire t => match fire t w with Some (_, w') => w' | None => w end
  end.

(** The documents that the call hands over. *)
Definition call_batch (c : call) : list loc :=
  match c with
  | CallInsert data | CallInsertOne data | CallInsertMany data => batch data
  | _ => []
  end.

(** The state after a sequence of calls. *)
Definition run_all (cs : list call) (w : world) : world :=
  foldl (fun w c => run c w) w cs.

(** The documents that each call hands over are objects of the heap at the
    time of the call. *)
Fixpoint calls_allocated (cs : list call) (w : world) : bool :=
  match cs with
  | [] => true
  | c :: cs' => batch_allocated (call_batch c) w && calls_allocated cs' (run c w)
  end.

End Calls.

(** What a call leaves as it is: the name of the collection, the [_id] of
    every object that has one, and the values that the counter and the host
    have given out. *)
Record kept (w w' : world) : Prop := {
  kept_name : _name (this w') = _name (this w);
  kept_counter : (_lastId (this w) <= _lastId (this w'))%nat;
  kept_objects : (List.length (objects w) <= List.length (objects w'))%nat;
  kept_ids : forall l,
      id_of (objects w) l <> VUndefined ->
      id_of (objects w') l = id_of (objects w) l;
  kept_timers : timers_ok w = true -> timers_ok w' = true
}.

(** The document has a number under [k], and no property named
    ["undefined"], the key that [_orderByManyProperties] reads after the
    last one. *)
Definition numeric_at (h : heap) (k : string) (el : loc) : bool :=
  match field h k el with VNum _ => true | _ => false end
  && negb (obj_has "undefined" (deref h el)).

(* ===================================================================== *)
(** * Where the host primitives are the code's *)
(* ===================================================================== *)

(** A member name of [Object.prototype].  On a plain object [JS.get_prop] is
    the code's [el[k]] for an own property and for every name that is not
    one of these: under these names a plain object without such an own
    property reads the inherited member. *)
Definition inherited_name (k : string) : bool :=
  existsb (String.eqb k) object_prototype_names.


(** A character that can begin a numeric literal: a digit, a sign, the
    decimal point, or the [I] of [Infinity]. *)
Definition begins_number (c : ascii) : bool :=
  let n := nat_of_ascii c in
  ((48 <=? n) && (n <=? 57) || (n =? 43) || (n =? 45) || (n =? 46) || (n =? 73))%nat.

(** Values that convert to [NaN] whatever follows: [undefined], and a string
    whose first character after the white space is a printable ASCII
    character that begins no numeric literal. *)
Definition surely_nan (v : value) : bool :=
  match v with
  | VUndefined => true
  | VStr s =>
      match trim s with
      | String c _ =>
          let n := nat_of_ascii c in
          ((33 <=? n) && (n <=? 126))%nat && negb (begins_number c)
      | EmptyString => false
      end
  | _ => false
  end.


Definition is_string (v : value) : bool :=
  match v with VStr _ => true | _ => false end.

(** ** Sorting by keys, in words *)








(* ===================================================================== *)
(** * Properties *)
(* ===================================================================== *)

(** ** The test suite of the repository, replayed *)

Example test_insert_many : count four_docs = Resolved 4%nat.
Proof. reflexivity. Qed.

Example test_find_all :
  found (find query_all VUndefined no_options four_docs)
  = Resolved [ [("num", VNum 1); ("_id", VStr "0")];
               [("num", VNum 2); ("_id", VStr "1")];
               [("num", VNum 3); ("_id", VStr "2")];
               [("num", VNum 4); ("_id", VStr "3")] ].
Proof. vm_compute. reflexivity. Qed.

Example test_find_project_skip_sort_limit :
  found (find query_all (VObj 101 [("_id", VNum 0); ("num", VNum 1)])
           {| sort := VObj 102 [("num", VNum (-1))]; skip := VNum 1;
              limit := VNum 2; upsert := VUndefined; justOne := VUndefined |}
           four_docs)
  = Resolved [ [("num", VNum 3)]; [("num", VNum 2)] ].
Proof. vm_compute. reflexivity. Qed.

Example test_findOne_project_skip_sort :
  let r := findOne query_all (VObj 101 [("num", VNum 1)])
             {| sort := VObj 102 [("num", VNum (-1))]; skip := VNum 1;
                limit := VUndefined; upsert := VUndefined; justOne := VUndefined |}
             four_docs in
  (match fst r with Resolved (Some l) => Some (deref (objects (snd r)) l) | _ => None end)
  = Some [("_id", VStr "2"); ("num", VNum 3)].
Proof. vm_compute. reflexivity. Qed.

Example test_insert_bad_id :
  fst (insert (DataDoc 4%nat)
         (set_objects (objects four_docs ++ [[("_id", VStr "0"); ("num", VNum 5)]]) four_docs))
  = Rejected (Error "An object with _id 0 already exist in this collection").
Proof. vm_compute. reflexivity. Qed.


Example test_update_no_match_no_upsert :
  fst (update modify_replacement (VObj 100 [("num", VNum 999)])
         (VObj 101 [("num", VNum 10)]) no_options four_docs) = Resolved ()
  /\ snd (update modify_replacement (VObj 100 [("num", VNum 999)])
            (VObj 101 [("num", VNum 10)]) no_options four_docs) = four_docs.
Proof. split; vm_compute; reflexivity. Qed.

Example test_update_upsert :
  let w := snd (update modify_replacement (VObj 100 [("num", VNum 999)])
                  (VObj 101 [("num", VNum 10)]) (only "upsert" (VBool true))
                  four_docs) in
  found (find (VObj 102 [("num", VNum 10)]) VUndefined no_options w)
  = Resolved [ [("num", VNum 10); ("_id", VStr "4")] ].
Proof. vm_compute. reflexivity. Qed.

Example test_update_bad_replacement :
  fst (update modify_replacement query_all (VStr "not a replacement") no_options
         four_docs)
  = Rejected (Error "query must be an object").
Proof. reflexivity. Qed.

Example test_remove_many :
  _content (this (snd (remove (VObj 100 [("num", VObj 101 [("$gte", VNum 3)])])
                         no_options four_docs)))
  = [0; 1]%nat.
Proof. vm_compute. reflexivity. Qed.

Example test_remove_one :
  List.length (_content (this (snd (remove query_all (only "justOne" (VBool true))
                                      four_docs))))
  = 3%nat.
Proof. vm_compute. reflexivity. Qed.

Example test_subscribe_wrong_parameters :
  fst (subscribe (VObj 50 []) None four_docs)
  = Throw (Error "No watcher or callback has been specified")
  /\ fst (subscribe VNull (Some 7%nat) four_docs)
     = Throw (Error "No watcher or callback has been specified")
  /\ fst (unsubscribe VNull four_docs) = Throw (Error "No watcher has been specified").
Proof. repeat split. Qed.

Example test_notify_insert :
  (fst <$> fire 1%nat foo_inserted) = delivered [change "0" OpInsert (Some 0%nat)]
  /\ deref (objects foo_inserted) 0%nat = [("foo", VStr "bar"); ("_id", VStr "0")].
Proof. split; vm_compute; reflexivity. Qed.

Example test_notify_update :
  let r := update modify_replacement (VObj 100 [("foo", VStr "bar")])
             (VObj 101 [("foo", VStr "barbar")]) no_options foo_flushed in
  fst r = Resolved ()
  /\ (fst <$> fire 2%nat (snd r)) = delivered [change "0" OpUpdate (Some 0%nat)]
  /\ deref (objects (snd r)) 0%nat = [("_id", VStr "0"); ("foo", VStr "barbar")].
Proof. repeat split; vm_compute; reflexivity. Qed.

Example test_notify_remove :
  let r := remove query_all no_options foo_flushed in
  fst r = Resolved ()
  /\ (fst <$> fire 2%nat (snd r)) = delivered [change "0" OpRemove None].
Proof. repeat split; vm_compute; reflexivity. Qed.

Example test_notify_once_for_many_operations :
  let w := snd (insert (DataDoc 1%nat) foo_inserted) in
  fire 1%nat w = None
  /\ (fst <$> fire 2%nat w)
     = delivered [change "0" OpInsert (Some 0%nat); change "1" OpInsert (Some 1%nat)].
Proof. split; vm_compute; reflexivity. Qed.

Example test_auto_increment_id :
  let r0 := _objectId (new_world "test-collection" []) in
  let r1 := _objectId (snd r0) in
  let r2 := _objectId (snd r1) in
  [fst r0; fst r1; fst r2] = [VStr "0"; VStr "1"; VStr "2"].
Proof. reflexivity. Qed.

Example test_element_has_not_the_queried_property :
  _elementIsValidForQuery (VObj 0 [("foo", VStr "a")]) (VObj 1 [("bar", VStr "a")])
  = Ok false.
Proof. reflexivity. Qed.

Example test_sub_property :
  _elementIsValidForQuery (VObj 0 [("foo", VStr "a")])
    (VObj 1 [("foo", VObj 2 [("bar", VStr "a")])]) = Ok false
  /\ _elementIsValidForQuery (VObj 0 [("foo", VObj 3 [("bar", VStr "a")])])
       (VObj 1 [("foo", VObj 2 [("bar", VStr "a")])]) = Ok true.
Proof. split; reflexivity. Qed.

Example test_operator_lte :
  let q n := VObj 1 [("foo", VObj 2 [("$lte", VNum n)])] in
  map (_elementIsValidForQuery (VObj 0 [("foo", VNum 100)])) [q 100; q 101; q 99]
  = [Ok true; Ok true; Ok false].
Proof. reflexivity. Qed.

Example test_operator_in_nin :
  let q op := VObj 1 [("foo", VObj 2 [(op, VArr 3 [VNum 100; VNum 101])])] in
  map (_elementIsValidForQuery (VObj 0 [("foo", VNum 100)])) [q "$in"; q "$nin"]
  = [Ok true; Ok false].
Proof. reflexivity. Qed.

Example test_operator_exists :
  let q b := VObj 1 [("foo", VObj 2 [("$exists", VBool b)])] in
  map (_elementIsValidForQuery (VObj 0 [("foo", VNum 100)])) [q true; q false]
  = [Ok true; Ok false].
Proof. reflexivity. Qed.

Example test_order_many_properties :
  let d n s := VObj 0 [("num", VNum n); ("str", VStr s)] in
  let by_num_str := VObj 1 [("num", VNum 1); ("str", VNum 1)] in
  map (fun '(a, b) => _orderByManyProperties a b by_num_str ["num"; "str"] 0)
      [(d 1 "aaa", d 1 "aaa"); (d 1 "aaa", d 1 "bbb"); (d 1 "bbb", d 2 "aaa");
       (d 2 "aaa", d 1 "bbb"); (d 2 "bbb", d 2 "aaa")]
  = [Ok 0; Ok (-1); Ok (-1); Ok 1; Ok 1].
Proof. reflexivity. Qed.

(* ===================================================================== *)
(** * The matcher on absent fields *)
(* ===================================================================== *)

Lemma strict_eq_refl (v : value) : strict_eq v v = true.
Proof.
  destruct v as [| |b|n|s|r fs|r vs]; simpl; auto.
  - by destruct b.
  - apply Z.eqb_refl.
  - apply String.eqb_refl.
  - apply Nat.eqb_refl.
  - apply Nat.eqb_refl.
Qed.

(** A query with the single key [f]. *)
Lemma matches_single_key (r : ref) (f : string) (q el : value) :
  _elementIsValidForQuery el (VObj r [(f, q)])
  = negb <$> attributeDoNotMatch (matches_query q) el f q.
Proof.
  unfold _elementIsValidForQuery. simpl.
  destruct (attributeDoNotMatch (matches_query q) el f q) as [[|]|e]; reflexivity.
Qed.

(** A truthy sub-query never matches a document without the field: the
    presence check comes first, whatever the operators of the sub-query. *)
Lemma truthy_subquery_absent_field (r r' : ref) (f : string) (q : value) (fs : obj) :
  truthy q = true ->
  obj_has f fs = false ->
  _elementIsValidForQuery (VObj r fs) (VObj r' [(f, q)]) = Ok false.
Proof.
  intros Hq Hf. rewrite matches_single_key.
  unfold attributeDoNotMatch. rewrite Hq. simpl. rewrite Hf. reflexivity.
Qed.

(** C3 (the code departs from the claim): on a document without the field
    [bar] the query [{bar: {$exists: false}}] does not match, although [bar]
    is absent. *)
Theorem exists_false_rejects_absent_field :
  obj_has "bar" [("foo", VStr "a")] = false
  /\ _elementIsValidForQuery (VObj 0 [("foo", VStr "a")])
       (VObj 1 [("bar", VObj 2 [("$exists", VBool false)])]) = Ok false.
Proof. split; reflexivity. Qed.

(** No document without the field matches [{f: {$exists: false}}]. *)
Lemma exists_false_never_matches_absent (r r' r'' : ref) (f : string) (fs : obj) :
  obj_has f fs = false ->
  _elementIsValidForQuery (VObj r fs)
    (VObj r' [(f, VObj r'' [("$exists", VBool false)])]) = Ok false.
Proof.
  intros Hf.
  exact (truthy_subquery_absent_field r r' f
           (VObj r'' [("$exists", VBool false)]) fs eq_refl Hf).
Qed.

(** [{f: {$exists: true}}] matches the documents whose field [f] is present
    with a value other than [undefined]. *)
Lemma exists_true_matches (r r' r'' : ref) (f : string) (fs : obj) :
  _elementIsValidForQuery (VObj r fs)
    (VObj r' [(f, VObj r'' [("$exists", VBool true)])])
  = Ok (match obj_lookup f fs with
        | Some v => negb (strict_eq v VUndefined)
        | None => false
        end).
Proof.
  rewrite matches_single_key. unfold attributeDoNotMatch. simpl.
  unfold obj_has.
  destruct (obj_lookup f fs) as [v|]; simpl; [|reflexivity].
  destruct (strict_eq v VUndefined); reflexivity.
Qed.

(** C8, the claim refuted: the document [{foo: 'a'}] has no field [bar] and
    does not match [{bar: null}]. *)
Lemma null_subquery_rejects_absent_field :
  obj_has "bar" [("foo", VStr "a")] = false
  /\ _elementIsValidForQuery (VObj 0 [("foo", VStr "a")]) (VObj 1 [("bar", VNull)])
     = Ok false.
Proof. split; reflexivity. Qed.

(** C8, amended: a falsy sub-query skips the presence check and is then
    compared with [===] to the value at the field.  Under a name that is no
    member of [Object.prototype] that value is the own property, or
    [undefined] without one.  So a document without the field does not match
    [{f: null}], and matches a falsy sub-query only if that sub-query is
    [undefined]. *)
Theorem falsy_subquery_is_strict_equality (r r' : ref) (f : string) (q : value) (fs : obj) :
  truthy q = false ->
  (inherited_name f = false ->
   _elementIsValidForQuery (VObj r fs) (VObj r' [(f, q)])
   = Ok (strict_eq (default VUndefined (obj_lookup f fs)) q))
  /\ (obj_has f fs = false ->
      _elementIsValidForQuery (VObj r fs) (VObj r' [(f, VNull)]) = Ok false
      /\ (_elementIsValidForQuery (VObj r fs) (VObj r' [(f, q)]) = Ok true ->
          q = VUndefined)).
Proof.
  intros Hq.
  assert (Hgen : forall q', truthy q' = false ->
            _elementIsValidForQuery (VObj r fs) (VObj r' [(f, q')])
            = Ok (strict_eq (default VUndefined (obj_lookup f fs)) q')).
  { intros q' Hq'. rewrite matches_single_key. unfold attributeDoNotMatch.
    rewrite Hq'. simpl.
    by destruct (strict_eq (default VUndefined (obj_lookup f fs)) q'). }
  split; [intros _; by apply Hgen|].
  intros Hf. unfold obj_has in Hf.
  destruct (obj_lookup f fs) as [v|] eqn:Hl; [discriminate|].
  split.
  - rewrite Hgen by reflexivity. reflexivity.
  - rewrite Hgen by assumption. simpl.
    destruct q; simpl; intros [=]; reflexivity.
Qed.

Lemma falsy_subquery_is_strict_equality_witness :
  truthy (VNum 0) = false
  /\ inherited_name "bar" = false
  /\ _elementIsValidForQuery (VObj 0 [("foo", VStr "a")]) (VObj 1 [("bar", VNum 0)])
     = Ok false
  /\ _elementIsValidForQuery (VObj 0 [("foo", VStr "a")]) (VObj 1 [("bar", VNull)])
     = Ok false.
Proof.
  destruct (falsy_subquery_is_strict_equality 0%nat 1%nat "bar" (VNum 0)
              [("foo", VStr "a")] eq_refl) as [Hown Habsent].
  split; [reflexivity|]. split; [reflexivity|].
  split; [exact (Hown eq_refl)|exact (proj1 (Habsent eq_refl))].
Defined.

(* ===================================================================== *)
(** * Objects, heap and array primitives *)
(* ===================================================================== *)

Lemma strict_eq_undefined (v : value) : strict_eq v VUndefined = true <-> v = VUndefined.
Proof. destruct v; simpl; split; intros; try discriminate; auto. Qed.

Lemma strict_eq_null_false (v : value) : v <> VNull -> strict_eq v VNull = false.
Proof. destruct v; simpl; intros; auto. congruence. Qed.

Lemma obj_lookup_set_eq (k : string) (v : value) (o : obj) :
  obj_lookup k (obj_set k v o) = Some v.
Proof.
  induction o as [|[k' v'] o IH]; simpl.
  - by rewrite String.eqb_refl.
  - destruct (String.eqb k' k) eqn:E; simpl; rewrite E; auto.
Qed.

Lemma obj_lookup_set_ne (k k' : string) (v : value) (o : obj) :
  k <> k' -> obj_lookup k' (obj_set k v o) = obj_lookup k' o.
Proof.
  intros Hne. induction o as [|[k0 v0] o IH]; simpl.
  - destruct (String.eqb k k') eqn:E; auto. apply String.eqb_eq in E. contradiction.
  - destruct (String.eqb k0 k) eqn:E; simpl.
    + apply String.eqb_eq in E. subst k0.
      destruct (String.eqb k k') eqn:E'; auto.
      apply String.eqb_eq in E'. contradiction.
    + destruct (String.eqb k0 k'); auto.
Qed.

Lemma obj_lookup_delete_eq (k : string) (o : obj) :
  obj_lookup k (obj_delete k o) = None.
Proof.
  induction o as [|[k' v'] o IH]; simpl; auto.
  destruct (String.eqb k' k) eqn:E; simpl; auto. by rewrite E.
Qed.

Lemma obj_lookup_delete_ne (k k' : string) (o : obj) :
  k <> k' -> obj_lookup k' (obj_delete k o) = obj_lookup k' o.
Proof.
  intros Hne. induction o as [|[k0 v0] o IH]; simpl; auto.
  destruct (String.eqb k0 k) eqn:E; simpl.
  - apply String.eqb_eq in E. subst k0.
    destruct (String.eqb k k') eqn:E'; auto.
    apply String.eqb_eq in E'. contradiction.
  - destruct (String.eqb k0 k'); auto.
Qed.

Lemma deref_insert_eq (h : heap) (l : loc) (o : obj) :
  (l < List.length h)%nat -> deref (<[l := o]> h) l = o.
Proof. intros Hl. unfold deref. by rewrite list_lookup_insert_eq. Qed.

Lemma deref_insert_ne (h : heap) (l l' : loc) (o : obj) :
  l <> l' -> deref (<[l := o]> h) l' = deref h l'.
Proof. intros Hl. unfold deref. by rewrite list_lookup_insert_ne. Qed.

Lemma deref_insert_ge (h : heap) (l l' : loc) (o : obj) :
  (List.length h <= l)%nat -> deref (<[l := o]> h) l' = deref h l'.
Proof. intros Hl. by rewrite list_insert_ge. Qed.

Lemma deref_app_l (h h' : heap) (l : loc) :
  (l < List.length h)%nat -> deref (h ++ h') l = deref h l.
Proof. intros Hl. unfold deref. by rewrite lookup_app_l. Qed.

Lemma deref_alloc (h : heap) (o : obj) : deref (h ++ [o]) (List.length h) = o.
Proof. unfold deref. by rewrite list_lookup_middle. Qed.

Lemma findIndex_is_Some {A} (p : A -> bool) (l : list A) :
  (match findIndex p l with Some _ => true | None => false end) = existsb p l.
Proof.
  induction l as [|x l IH]; simpl; auto.
  destruct (p x); simpl; auto. rewrite <- IH. by destruct (findIndex p l).
Qed.

Lemma existsb_ext_in {A} (p q : A -> bool) (l : list A) :
  (forall x, x ∈ l -> p x = q x) -> existsb p l = existsb q l.
Proof.
  induction l as [|x l IH]; simpl; auto. intros H.
  rewrite H by left. rewrite IH; auto. intros y Hy. apply H. by right.
Qed.

(* ===================================================================== *)
(** * Identifiers and [insert] *)
(* ===================================================================== *)

(** The ids minted by the counter: the decimal string of the counter, which
    then advances, so that two of them are never equal. *)
Lemma objectId_successive (w : world) :
  fst (_objectId w) = VStr (pretty (_lastId (this w)))
  /\ _lastId (this (snd (_objectId w))) = S (_lastId (this w)).
Proof. split; reflexivity. Qed.

Lemma counter_ids_differ (n m : nat) :
  n <> m -> strict_eq (VStr (pretty n)) (VStr (pretty m)) = false.
Proof.
  intros Hne. simpl. apply String.eqb_neq. intros Heq.
  by apply (inj pretty) in Heq.
Qed.

(** C1 (the code departs from the claim): two successful inserts leave two
    stored documents with the same [_id].  First, an id minted by the counter
    is not checked against the store: after [insert({_id: '0', a: 1})] the
    call [insert({b: 2})] stores a second document with [_id] ['0'].  Second,
    the ids of one batch are checked against the store only, not against
    each other: [insert([{_id: 'a'}, {_id: 'a'}])] resolves. *)
Theorem insert_stores_duplicate_ids :
  (let h := [[("_id", VStr "0"); ("a", VNum 1)]; [("b", VNum 2)]] in
   let r1 := insert (DataDoc 0%nat) (new_world "heroes" h) in
   let r2 := insert (DataDoc 1%nat) (snd r1) in
   fst r1 = Resolved () /\ fst r2 = Resolved ()
   /\ _content (this (snd r2)) = [0; 1]%nat
   /\ id_of (objects (snd r2)) 0%nat = VStr "0"
   /\ id_of (objects (snd r2)) 1%nat = VStr "0")
  /\
  (let h := [[("_id", VStr "a")]; [("_id", VStr "a")]] in
   let r := insert (DataArray [0; 1]%nat) (new_world "heroes" h) in
   fst r = Resolved ()
   /\ _content (this (snd r)) = [0; 1]%nat
   /\ id_of (objects (snd r)) 0%nat = VStr "a"
   /\ id_of (objects (snd r)) 1%nat = VStr "a").
Proof. vm_compute. repeat split. Qed.

Lemma id_of_deref (h h' : heap) (l : loc) :
  deref h' l = deref h l -> id_of h' l = id_of h l.
Proof. unfold id_of. by intros ->. Qed.

Lemma stored_have_id_elim (w : world) :
  stored_have_id w = true ->
  forall el, el ∈ _content (this w) -> id_of (objects w) el <> VUndefined.
Proof.
  unfold stored_have_id. rewrite forallb_forall. intros H el Hel Heq.
  apply list_elem_of_In in Hel. apply H in Hel. rewrite Heq in Hel. discriminate.
Qed.

Lemma stored_allocated_elim (w : world) :
  stored_allocated w = true ->
  forall el, el ∈ _content (this w) -> (el < List.length (objects w))%nat.
Proof.
  unfold stored_allocated. rewrite forallb_forall. intros H el Hel.
  apply list_elem_of_In in Hel. apply H in Hel. by apply Nat.ltb_lt in Hel.
Qed.

Lemma insert_loop_inv (w : world) (data : list loc) :
  stored_have_id w = true ->
  NoDup data ->
  (forall l, l ∈ data -> id_of (objects w) l <> VNull) ->
  let st := foldl insert_check (w, VNull) data in
  ids_assigned w data (fst st)
  /\ negb (strict_eq (snd st) VNull)
     = batch_collides (objects w) (_content (this w)) data
  /\ (snd st = VNull
      \/ exists l, l ∈ data /\ snd st = id_of (objects w) l
                   /\ batch_collides (objects w) (_content (this w)) [l] = true).
Proof.
  intros Hs. pose proof (stored_have_id_elim _ Hs) as Hstored. clear Hs.
  induction data as [|x data IH] using rev_ind; intros Hnd Hids.
  - simpl. split; [|split; [reflexivity | by left]].
    split; simpl; auto. by destruct w as [? []].
  - apply NoDup_app in Hnd as (Hnd & Hx & _).
    assert (Hxd : x ∉ data).
    { intros Hin. apply (Hx x Hin). by left. }
    destruct IH as (Hia & Hbad & Hwho); auto.
    { intros l Hl. apply Hids. apply elem_of_app. by left. }
    simpl. rewrite foldl_app. simpl.
    destruct (foldl insert_check (w, VNull) data) as [w' badId] eqn:Hloop.
    simpl in *.
    unfold batch_collides. rewrite existsb_app. fold (batch_collides (objects w) (_content (this w)) data).
    rewrite <- Hbad. simpl. rewrite orb_false_r.
    assert (Hidx : id_of (objects w') x = id_of (objects w) x).
    { apply id_of_deref. apply Hia. by left. }
    assert (Hcontent : _content (this w') = _content (this w)).
    { rewrite (ia_this _ _ _ Hia). reflexivity. }
    assert (Hfind :
      (match findIndex (fun el => strict_eq (id_of (objects w') x) (id_of (objects w') el))
                       (_content (this w')) with Some _ => true | None => false end)
      = existsb (fun el => strict_eq (id_of (objects w) x) (id_of (objects w) el))
                (_content (this w))).
    { rewrite findIndex_is_Some, Hcontent, Hidx. apply existsb_ext_in.
      intros el Hel. f_equal. apply id_of_deref. apply Hia. right. by apply Hstored. }
    unfold insert_check. rewrite Hfind, Hidx.
    destruct (strict_eq (id_of (objects w) x) VUndefined) eqn:Hundef; simpl.
    + apply strict_eq_undefined in Hundef.
      split; [|split].
      * destruct Hia as [Ht Htm Hnt Hlen Hobj].
        split; simpl; auto.
        -- rewrite Ht at 2. reflexivity.
        -- by rewrite length_insert.
        -- intros l Hl.
           assert (l <> x).
           { intros ->. destruct Hl as [Hl|Hl]; [|contradiction].
             apply Hl. apply elem_of_app. right. by left. }
           rewrite deref_insert_ne by congruence. apply Hobj.
           destruct Hl as [Hl|Hl]; [left|by right].
           intros Hin. apply Hl. apply elem_of_app. by left.
      * by rewrite orb_false_r.
      * destruct Hwho as [?|(l & Hl & ? & ?)]; [by left|right].
        exists l. split; auto. apply elem_of_app. by left.
    + destruct (existsb _ (_content (this w))) eqn:Hex; simpl.
      * split; [|split].
        -- destruct Hia as [Ht Htm Hnt Hlen Hobj]. split; auto.
           intros l Hl. apply Hobj. destruct Hl as [Hl|Hl]; [left|by right].
           intros Hin. apply Hl. apply elem_of_app. by left.
        -- rewrite strict_eq_null_false. { simpl. by rewrite orb_true_r. }
           apply Hids. apply elem_of_app. right. by left.
        -- right. exists x. split; [apply elem_of_app; right; by left|].
           split; [reflexivity|]. unfold batch_collides. simpl.
           by rewrite Hundef, Hex.
      * split; [|split].
        -- destruct Hia as [Ht Htm Hnt Hlen Hobj]. split; auto.
           intros l Hl. apply Hobj. destruct Hl as [Hl|Hl]; [left|by right].
           intros Hin. apply Hl. apply elem_of_app. by left.
        -- by rewrite orb_false_r.
        -- destruct Hwho as [?|(l & Hl & ? & ?)]; [by left|right].
           exists l. split; auto. apply elem_of_app. by left.
Qed.


Lemma insert_check_with_id (w : world) (badId : value) (x : loc) :
  strict_eq (id_of (objects w) x) VUndefined = false ->
  fst (insert_check (w, badId) x) = w.
Proof.
  intros H. unfold insert_check. rewrite H.
  by destruct (match findIndex _ _ with Some _ => true | None => false end).
Qed.

(** The [forEach] of [insert] on a batch of distinct objects: the documents
    that had no [_id] get the successive values of the counter, in the order
    of the batch, and nothing else changes in the heap. *)
Lemma insert_loop_stamps (data : list loc) (w : world) (badId : value) :
  NoDup data ->
  (forall l, l ∈ data -> (l < List.length (objects w))%nat) ->
  let fresh := List.filter (fun l => strict_eq (id_of (objects w) l) VUndefined) data in
  let w' := fst (foldl insert_check (w, badId) data) in
  _lastId (this w') = (_lastId (this w) + List.length fresh)%nat
  /\ (forall (i : nat) l, fresh !! i = Some l ->
        deref (objects w') l
        = obj_set "_id" (VStr (pretty (_lastId (this w) + i)%nat))
            (deref (objects w) l))
  /\ (forall l, l ∉ fresh -> deref (objects w') l = deref (objects w) l).
Proof.
  cbv zeta. revert w badId. induction data as [|x data IH]; intros w badId Hnd Hal.
  - cbn. split; [lia|]. split; [|done]. intros i l Hi. by destruct i.
  - apply NoDup_cons in Hnd as [Hx Hnd].
    cbn [foldl List.filter].
    destruct (strict_eq (id_of (objects w) x) VUndefined) eqn:Hid.
    + assert (Hstep : insert_check (w, badId) x
               = (set_objects
                    (<[x := obj_set "_id" (VStr (pretty (_lastId (this w))))
                              (deref (objects w) x)]> (objects w))
                    (set_this (set_lastId (S (_lastId (this w))) (this w)) w),
                  badId)).
      { unfold insert_check. by rewrite Hid. }
      rewrite Hstep. clear Hstep.
      set (w1 := set_objects _ _).
      assert (Hsame : forall l, l <> x -> deref (objects w1) l = deref (objects w) l).
      { intros l Hl. cbn. by apply deref_insert_ne. }
      assert (Hfil : List.filter (fun l => strict_eq (id_of (objects w1) l) VUndefined) data
                     = List.filter (fun l => strict_eq (id_of (objects w) l) VUndefined) data).
      { apply List.filter_ext_in. intros l Hl. apply list_elem_of_In in Hl.
        unfold id_of. rewrite Hsame; [reflexivity|]. by intros ->. }
      destruct (IH w1 badId Hnd) as (Hc & Hin & Hout).
      { intros l Hl. cbn. rewrite length_insert. apply Hal. by right. }
      rewrite Hfil in Hc, Hin, Hout. clear Hfil.
      set (fresh := List.filter
                      (fun l => strict_eq (id_of (objects w) l) VUndefined) data) in *.
      assert (Hxf : x ∉ fresh).
      { intros Hin'. apply Hx. unfold fresh in Hin'.
        apply list_elem_of_In, filter_In in Hin' as [Hin' _].
        by apply list_elem_of_In. }
      split; [|split].
      * rewrite Hc. cbn. lia.
      * intros [|i] l Hi; cbn in Hi.
        -- injection Hi as <-. rewrite (Hout x Hxf). cbn.
           rewrite Nat.add_0_r. apply deref_insert_eq. apply Hal. left.
        -- rewrite (Hin i l Hi). cbn [w1 set_objects set_this this set_lastId _lastId].
           rewrite Nat.add_succ_r. cbn [Nat.add].
           rewrite Hsame; [reflexivity|].
           intros ->. apply Hxf. by eapply list_elem_of_lookup_2.
      * intros l Hl. rewrite Hout by (intros ?; apply Hl; by right).
        apply Hsame. intros ->. apply Hl. left.
    + pose proof (insert_check_with_id w badId x Hid) as Hstep.
      destruct (insert_check (w, badId) x) as [w1 b1]. cbn [fst] in Hstep. subst w1.
      apply IH; [assumption|]. intros l Hl. apply Hal. by right.
Qed.

(** C2, the claim refuted: the check is not made before any mutation.  On
    the four documents of the tests, [insert([{num: 5}, {_id: '0', num: 6}])]
    is rejected for its second document, and the store is as it was; but the
    counter has advanced from 4 to 5 and the first document of the batch
    has been given the [_id] ['4']. *)
Lemma rejected_insert_has_mutated :
  let w := set_objects (objects four_docs
                        ++ [[("num", VNum 5)]; [("_id", VStr "0"); ("num", VNum 6)]])
             four_docs in
  let r := insert (DataArray [4; 5]%nat) w in
  fst r = Rejected (Error "An object with _id 0 already exist in this collection")
  /\ _content (this (snd r)) = _content (this w)
  /\ _lastId (this w) = 4%nat
  /\ _lastId (this (snd r)) = 5%nat
  /\ deref (objects w) 4%nat = [("num", VNum 5)]
  /\ deref (objects (snd r)) 4%nat = [("num", VNum 5); ("_id", VStr "4")].
Proof. vm_compute. repeat split. Qed.

(** C2, amended: [insert] rejects exactly when a document of the batch
    carries an [_id] that a stored document has, and the error names the
    [_id] of such a document.  A rejected [insert] leaves the stored
    sequence, the stored documents, the count, the pending Changes, the
    timer and the subscribers as they were; but the check runs in the loop
    that assigns the identifiers, so that the documents of the batch that
    had no [_id] have been given the successive values of the counter, which
    has advanced by their number.  Without a colliding [_id] the batch is
    appended as a whole. *)
Theorem insert_rejects_duplicates_keeping_store (w : world) (data : data_arg) :
  match data with DataDoc _ | DataArray _ => True | _ => False end ->
  stored_have_id w = true ->
  NoDup (batch data) ->
  batch_allocated (batch data) w = true ->
  forallb (fun l => id_string_or_absent (id_of (objects w) l)) (batch data) = true ->
  let collides := batch_collides (objects w) (_content (this w)) (batch data) in
  let fresh := List.filter (fun l => strict_eq (id_of (objects w) l) VUndefined)
                 (batch data) in
  let w' := snd (insert data w) in
  ((exists e, fst (insert data w) = Rejected e) <-> collides = true)
  /\ (collides = true ->
      (exists l, l ∈ batch data
         /\ batch_collides (objects w) (_content (this w)) [l] = true
         /\ fst (insert data w)
         = Rejected (Error ("An object with _id " +:+ to_string (id_of (objects w) l)
                            +:+ " already exist in this collection")))
      /\ _content (this w') = _content (this w)
      /\ (forall el, el ∈ _content (this w) ->
            deref (objects w') el = deref (objects w) el)
      /\ count w' = count w
      /\ _changesToNotify (this w') = _changesToNotify (this w)
      /\ _notifyTimeout (this w') = _notifyTimeout (this w)
      /\ timers w' = timers w
      /\ _watchers (this w') = _watchers (this w)
      /\ _lastId (this w') = (_lastId (this w) + List.length fresh)%nat
      /\ (forall (i : nat) l, fresh !! i = Some l ->
            deref (objects w') l
            = obj_set "_id" (VStr (pretty (_lastId (this w) + i)%nat))
                (deref (objects w) l))
      /\ (forall l, l ∉ fresh -> deref (objects w') l = deref (objects w) l))
  /\ (collides = false ->
      fst (insert data w) = Resolved ()
      /\ _content (this w') = _content (this w) ++ batch data).
Proof.
  intros Hdata Hstored Hnd Hal Hids. simpl.
  assert (Hids' : forall l, l ∈ batch data -> id_of (objects w) l <> VNull).
  { rewrite forallb_forall in Hids. intros l Hl%list_elem_of_In Heq.
    apply Hids in Hl. rewrite Heq in Hl. discriminate. }
  destruct (insert_loop_inv w (batch data) Hstored Hnd Hids') as (Hia & Hbad & Hwho).
  pose proof (insert_loop_stamps (batch data) w VNull Hnd) as Hstamp.
  cbv zeta in Hstamp.
  destruct Hstamp as (Hcount & Hin & Hout).
  { unfold batch_allocated in Hal. rewrite forallb_forall in Hal.
    intros l Hl%list_elem_of_In. apply Nat.ltb_lt. by apply Hal. }
  assert (Hins : insert data w =
    let '(w1, badId) := foldl insert_check (w, VNull) (batch data) in
    if negb (strict_eq badId VNull) then
      (Rejected (Error ("An object with _id " +:+ to_string badId
                        +:+ " already exist in this collection")), w1)
    else
      let w2 := set_this (set_content (_content (this w1) ++ batch data) (this w1)) w1 in
      let w3 := _notifyChangesForIds (map (id_of (objects w2)) (batch data)) OpInsert w2 in
      (Resolved (), w3)).
  { destruct data; try contradiction; reflexivity. }
  rewrite Hins. clear Hins.
  destruct (foldl insert_check (w, VNull) (batch data)) as [w1 badId]. simpl in *.
  rewrite Hbad.
  destruct (batch_collides (objects w) (_content (this w)) (batch data)) eqn:Hc; simpl.
  - split; [split; eauto|]. split; [|discriminate]. intros _.
    destruct Hia as [Ht Htm Hnt Hlen Hobj].
    split; [|rewrite Ht; repeat split; simpl; auto].
    + destruct Hwho as [->|(l & Hl & -> & Hcl)]; [discriminate|]. eauto.
    + intros el Hel. apply Hobj. right. by apply stored_have_id_elim.
    + unfold count. rewrite Ht. reflexivity.
  - split; [split; [intros [e [=]] | discriminate]|]. split; [discriminate|].
    intros _. split; [reflexivity|].
    unfold _notifyChangesForIds. simpl.
    destruct Hia as [Ht _ _ _ _].
    destruct (_notifyTimeout (this w1)); simpl; rewrite Ht; reflexivity.
Qed.

Lemma insert_rejects_duplicates_keeping_store_witness :
  let w := set_objects (objects four_docs
                        ++ [[("_id", VStr "0"); ("num", VNum 5)]; [("num", VNum 6)]])
             four_docs in
  let w' := snd (insert (DataArray [4; 5]%nat) w) in
  (exists e, fst (insert (DataArray [4; 5]%nat) w) = Rejected e)
  /\ count w' = count w
  /\ _lastId (this w') = (4 + 1)%nat
  /\ deref (objects w') 5%nat = obj_set "_id" (VStr "4") [("num", VNum 6)]
  /\ deref (objects w') 4%nat = [("_id", VStr "0"); ("num", VNum 5)].
Proof.
  intros w w'.
  assert (Hnd : NoDup (batch (DataArray [4; 5]%nat)))
    by (by apply (bool_decide_unpack _)).
  destruct (insert_rejects_duplicates_keeping_store w (DataArray [4; 5]%nat)
              I eq_refl Hnd eq_refl eq_refl) as (Hiff & Hrej & _).
  destruct (Hrej eq_refl) as (_ & _ & _ & Hcount & _ & _ & _ & _ & Hlast & Hin & Hout).
  split; [apply Hiff; reflexivity|].
  split; [exact Hcount|].
  split; [exact Hlast|].
  split; [exact (Hin 0%nat 5%nat eq_refl)|].
  apply Hout. vm_compute. intros H.
  apply elem_of_cons in H as [H|H]; [discriminate|by apply elem_of_nil in H].
Defined.


(* ===================================================================== *)
(** * [find] *)
(* ===================================================================== *)

Lemma to_primitive_idem (v : value) : to_primitive (to_primitive v) = to_primitive v.
Proof. by destruct v. Qed.

Lemma to_number_to_primitive (v : value) : to_number (to_primitive v) = to_number v.
Proof. unfold to_number. by rewrite to_primitive_idem. Qed.

(** [v > 0] holds when [v] converts to a positive number. *)
Lemma gt_zero (v : value) :
  gt v (VNum 0) = match to_number v with Some n => 0 <? n | None => false end.
Proof.
  unfold gt, compare. change (to_primitive (VNum 0)) with (VNum 0).
  pose proof (to_number_to_primitive v) as Hn.
  destruct (to_primitive v); cbv beta iota; rewrite Hn;
    change (to_number (VNum 0)) with (Some 0);
    destruct (to_number v) as [m|]; auto;
    rewrite Z.ltb_antisym, Z.leb_compare; by destruct (m ?= 0).
Qed.

Lemma splice_from {A} (l : list A) (n : Z) :
  0 < n -> fst (splice l n None) = drop (Z.to_nat n) l.
Proof.
  intros Hn. unfold splice. simpl.
  destruct (n <? 0) eqn:E; [apply Z.ltb_lt in E; lia|].
  destruct (Z.le_gt_cases n (Z.of_nat (List.length l))) as [Hle|Hgt].
  - rewrite Z.min_l by lia.
    rewrite firstn_all2; [reflexivity|]. rewrite length_skipn. lia.
  - rewrite Z.min_r by lia. rewrite Nat2Z.id.
    rewrite !skipn_all2 by lia. by rewrite firstn_nil.
Qed.

Lemma splice_first {A} (l : list A) (n : Z) :
  0 < n -> fst (splice l 0 (Some n)) = take (Z.to_nat n) l.
Proof.
  intros Hn. unfold splice. simpl.
  rewrite (Z.min_l 0) by lia. rewrite (Z.max_l n 0) by lia.
  change (Z.to_nat 0) with O. simpl. rewrite Z.sub_0_r.
  destruct (Z.le_gt_cases n (Z.of_nat (List.length l))) as [Hle|Hgt].
  - rewrite Z.min_l by lia. by rewrite drop_0.
  - rewrite Z.min_r by lia. rewrite Nat2Z.id, drop_0.
    rewrite firstn_all2 by lia. symmetry. apply firstn_all2. lia.
Qed.

Lemma find_skip_spec (opts : options) (l : list loc) :
  find_skip opts l = spec_skip opts l.
Proof.
  unfold find_skip, spec_skip, to_integer. rewrite gt_zero.
  destruct (to_number (skip opts)) as [n|]; auto. simpl.
  destruct (0 <? n) eqn:E; auto. apply splice_from. by apply Z.ltb_lt.
Qed.

Lemma find_limit_spec (opts : options) (l : list loc) :
  find_limit opts l = spec_limit opts l.
Proof.
  unfold find_limit, spec_limit, to_integer. rewrite gt_zero.
  destruct (to_number (limit opts)) as [n|]; auto. simpl.
  destruct (0 <? n) eqn:E; auto. apply splice_first. by apply Z.ltb_lt.
Qed.

Lemma own_keys_sort (opts : options) :
  own_keys (if truthy (sort opts) then sort opts else VObj 0 []) = Ok (sort_keys opts).
Proof.
  unfold sort_keys. destruct (sort opts) as [| |[]|n|s|r fs|r vs]; simpl; auto.
  - by destruct (n =? 0).
  - by destruct s.
Qed.

Lemma find_sort_spec (opts : options) (h : heap) (l : list loc) :
  find_sort opts h l = spec_sort opts h l.
Proof.
  unfold find_sort, spec_sort. rewrite own_keys_sort. simpl.
  by destruct (sort_keys opts).
Qed.

Lemma sort_insert_m_total {A} (cmp : A -> A -> result Z) (x : A) (l : list A) :
  (forall a b, exists z, cmp a b = Ok z) ->
  exists r, sort_insert_m cmp x l = Ok r /\ x :: l ≡ₚ r.
Proof.
  intros Hcmp. induction l as [|y l (r & Hr & Hp)]; simpl; [eauto|].
  destruct (Hcmp x y) as [z ->].
  destruct (z <=? 0); [eauto|]. rewrite Hr.
  exists (y :: r). split; auto. rewrite <- Hp. apply Permutation_swap.
Qed.

Lemma sort_m_total {A} (cmp : A -> A -> result Z) (l : list A) :
  (forall a b, exists z, cmp a b = Ok z) ->
  exists r, sort_m cmp l = Ok r /\ l ≡ₚ r.
Proof.
  intros Hcmp. induction l as [|x l (r & Hr & Hp)]; simpl; [eauto|].
  rewrite Hr. destruct (sort_insert_m_total cmp x r Hcmp) as (r' & Hr' & Hp').
  exists r'. split; auto. by rewrite Hp.
Qed.

Lemma sort_m_perm {A} (cmp : A -> A -> result Z) (l r : list A) :
  sort_m cmp l = Ok r -> l ≡ₚ r.
Proof.
  revert r. induction l as [|x l IH]; simpl; intros r.
  - by intros [= <-].
  - destruct (sort_m cmp l) as [r0|] eqn:E; [|discriminate].
    specialize (IH _ eq_refl). intros Hins. rewrite IH.
    clear E IH. revert r Hins. induction r0 as [|y r0 IH]; simpl; intros r.
    + by intros [= <-].
    + destruct (cmp x y) as [c|]; [|discriminate].
      destruct (c <=? 0); [by intros [= <-]|].
      destruct (sort_insert_m cmp x r0) as [r1|]; [|discriminate].
      intros [= <-]. rewrite <- (IH r1 eq_refl). apply Permutation_swap.
Qed.

Lemma sort_insert_m_sorted {A} (R : A -> A -> Prop) (cmp : A -> A -> result Z)
    (x : A) (l r : list A) :
  (forall y, y ∈ l -> exists c, cmp x y = Ok c
                                /\ (c <= 0 -> R x y) /\ (0 < c -> R y x)) ->
  Sorted R l ->
  sort_insert_m cmp x l = Ok r ->
  Sorted R r /\ (forall z, HdRel R z l -> R z x -> HdRel R z r).
Proof.
  revert r. induction l as [|y l IH]; intros r Hc Hs Hr.
  - cbn in Hr. injection Hr as <-. split; [by repeat constructor|].
    intros z _ Hz. by constructor.
  - cbn in Hr. destruct (Hc y) as (c & Hcy & Hle & Hgt); [left|].
    rewrite Hcy in Hr.
    destruct (Z.leb_spec c 0) as [Hc0|Hc0].
    + injection Hr as <-. split.
      * constructor; [assumption|]. constructor. by apply Hle.
      * intros z _ Hz. by constructor.
    + destruct (sort_insert_m cmp x l) as [r'|] eqn:Hins; [|discriminate].
      injection Hr as <-.
      apply Sorted_inv in Hs as [Hs Hhd].
      destruct (IH r') as [Hs' Hhd']; [|assumption|reflexivity|].
      { intros z Hz. apply Hc. by right. }
      split.
      * constructor; [assumption|]. apply Hhd'; [assumption|]. by apply Hgt.
      * intros z Hz _. apply HdRel_inv in Hz. by constructor.
Qed.

Lemma sort_m_sorted {A} (R : A -> A -> Prop) (cmp : A -> A -> result Z)
    (l r : list A) :
  (forall x y, x ∈ l -> y ∈ l ->
     exists c, cmp x y = Ok c /\ (c <= 0 -> R x y) /\ (0 < c -> R y x)) ->
  sort_m cmp l = Ok r ->
  Sorted R r.
Proof.
  revert r. induction l as [|x l IH]; intros r Hc Hr.
  - cbn in Hr. injection Hr as <-. constructor.
  - cbn in Hr. destruct (sort_m cmp l) as [r'|] eqn:Hs; [|discriminate].
    pose proof (sort_m_perm _ _ _ Hs) as Hp.
    apply (sort_insert_m_sorted R cmp x r' r); [| |assumption].
    + intros y Hy. apply Hc; [left|]. right. by rewrite Hp.
    + apply IH; [|reflexivity]. intros a b Ha Hb. apply Hc; by right.
Qed.

Lemma get_prop_total (v : value) (k : string) :
  v <> VUndefined -> v <> VNull -> exists x, get_prop v k = Ok x.
Proof.
  destruct v; simpl; intros; try congruence; eauto.
  - destruct (String.eqb k "length"); eauto.
    destruct (index_of_key _ _ _); eauto.
  - destruct (String.eqb k "length"); eauto.
    destruct (index_of_key _ _ _); eauto.
Qed.

Lemma orderBy_from_total (r r' : ref) (a b : obj) (s : value) (suffix : list string) :
  s <> VUndefined -> s <> VNull ->
  exists z, orderBy_from (VObj r a) (VObj r' b) s suffix = Ok z.
Proof.
  intros H1 H2. induction suffix as [|k suffix IH]; simpl.
  - destruct (get_prop_total s "undefined" H1 H2) as [d ->]. simpl.
    repeat (destruct (gt _ _) || destruct (lt _ _)); eauto.
  - destruct (get_prop_total s k H1 H2) as [d ->]. simpl.
    repeat (destruct (gt _ _) || destruct (lt _ _)); eauto.
Qed.

Lemma sort_keys_defined (opts : options) :
  sort_keys opts <> [] -> sort opts <> VUndefined /\ sort opts <> VNull.
Proof. unfold sort_keys. destruct (sort opts); simpl; intros; split; congruence. Qed.

Lemma spec_sort_total (opts : options) (h : heap) (l : list loc) :
  exists sorted, spec_sort opts h l = Ok sorted /\ l ≡ₚ sorted
                 /\ (sort_keys opts = [] -> sorted = l).
Proof.
  unfold spec_sort. destruct (sort_keys opts) as [|k keys] eqn:Hk; [eauto|].
  destruct (sort_keys_defined opts) as [H1 H2]; [by rewrite Hk|].
  edestruct (sort_m_total
               (fun a b => _orderByManyProperties (doc_value h a) (doc_value h b)
                             (sort opts) (k :: keys) 0) l) as (r & Hr & Hp).
  { intros a b. apply orderBy_from_total; auto. }
  exists r. rewrite Hr. split; [|split]; auto. discriminate.
Qed.


Lemma has_own_total (v : value) (k : string) :
  v <> VUndefined -> v <> VNull -> exists b, has_own v k = Ok b.
Proof. destruct v; simpl; intros; try congruence; eauto. Qed.





Lemma filter_m_spec {A} (p : A -> result bool) (l r : list A) :
  filter_m p l = Ok r ->
  r = List.filter (fun x => match p x with Ok true => true | _ => false end) l.
Proof.
  revert r. induction l as [|x l IH]; simpl; intros r.
  - by intros [= <-].
  - destruct (p x) as [b|]; [|discriminate].
    destruct (filter_m p l) as [r0|]; [|discriminate].
    intros [= <-]. rewrite (IH r0 eq_refl). by destruct b.
Qed.

Lemma set_objects_same (w : world) : set_objects (objects w) w = w.
Proof. by destruct w. Qed.

Lemma default_query_object (query : value) :
  typeof_object query = true -> default_query query = query.
Proof. by destruct query. Qed.

Lemma default_query_idem (query : value) :
  default_query (default_query query) = default_query query.
Proof. by destruct query. Qed.

(** [find] sees its first argument through the default of the parameter. *)
Lemma find_default_query (query projection : value) (opts : options) (w : world) :
  find query projection opts w = find (default_query query) projection opts w.
Proof. unfold find. by rewrite default_query_idem. Qed.

(** [find] without a projection, as the composition of its stages. *)
Lemma find_unprojected_pipeline (w : world) (query : value) (opts : options)
    (filtered : list loc) :
  typeof_object query = true ->
  find_filter query w = Ok filtered ->
  exists sorted,
    spec_sort opts (objects w) filtered = Ok sorted
    /\ filtered ≡ₚ sorted
    /\ (sort_keys opts = [] -> sorted = filtered)
    /\ find query VUndefined opts w
       = (Resolved (spec_limit opts (spec_skip opts sorted)), w).
Proof.
  intros Hq Hf.
  destruct (spec_sort_total opts (objects w) filtered) as (sorted & Hs & Hp & Hk).
  exists sorted. repeat split; auto.
  unfold find. rewrite (default_query_object _ Hq), Hq, Hf. simpl.
  rewrite find_sort_spec, Hs. simpl.
  rewrite find_skip_spec, find_limit_spec. simpl.
  by rewrite set_objects_same.
Qed.

(** ** The order that the comparator induces *)










(** ** The insertion sort is stable *)








(* ===================================================================== *)
(** * What [find] selects *)
(* ===================================================================== *)

Lemma valid_query_is_object (query : value) :
  negb (typeof_object query) && negb (isArray query) = false ->
  typeof_object query = true.
Proof. by destruct query. Qed.

Lemma sublist_List_filter {A} (p : A -> bool) (l : list A) :
  List.filter p l `sublist_of` l.
Proof.
  induction l as [|x l IH]; simpl; [constructor|].
  destruct (p x); by constructor.
Qed.

(** Without a projection [find] changes nothing and resolves to stored
    documents: the matching ones, sorted, then skipped and limited. *)
Lemma find_unprojected (w w1 : world) (query : value) (opts : options)
    (results : list loc) :
  find query VUndefined opts w = (Resolved results, w1) ->
  w1 = w
  /\ typeof_object (default_query query) = true
  /\ exists filtered sorted,
      find_filter (default_query query) w = Ok filtered
      /\ spec_sort opts (objects w) filtered = Ok sorted
      /\ filtered ≡ₚ sorted
      /\ (sort_keys opts = [] -> sorted = filtered)
      /\ results = spec_limit opts (spec_skip opts sorted).
Proof.
  rewrite find_default_query. pose proof (default_query_idem query) as Hid.
  revert Hid. generalize (default_query query).
  clear query. intros query Hid Hfind.
  destruct (negb (typeof_object query) && negb (isArray query)) eqn:Hq.
  { unfold find in Hfind. rewrite Hid, Hq in Hfind. discriminate. }
  apply valid_query_is_object in Hq.
  destruct (find_filter query w) as [filtered|e] eqn:Hf.
  2:{ unfold find in Hfind.
      rewrite (default_query_object _ Hq), Hf in Hfind.
      destruct (negb _ && _); discriminate. }
  destruct (find_unprojected_pipeline w query opts filtered Hq Hf)
    as (sorted & Hs & Hp & Hk & Hfind').
  rewrite Hfind' in Hfind. injection Hfind as <- <-.
  split; [reflexivity|]. split; [assumption|]. by exists filtered, sorted.
Qed.

Lemma find_unprojected_world (w : world) (query : value) (opts : options) :
  snd (find query VUndefined opts w) = w.
Proof.
  unfold find. destruct (negb _ && _); [reflexivity|].
  destruct (find_filter _ w) as [filtered|e]; [|reflexivity]. simpl.
  destruct (find_sort opts (objects w) filtered); simpl; [|reflexivity].
  apply set_objects_same.
Qed.

Lemma find_selects_stored (w w1 : world) (query : value) (opts : options)
    (results : list loc) :
  find query VUndefined opts w = (Resolved results, w1) ->
  results ⊆+ _content (this w).
Proof.
  intros (-> & _ & filtered & sorted & Hf & _ & Hp & _ & ->)%find_unprojected.
  apply filter_m_spec in Hf.
  transitivity sorted.
  - apply sublist_submseteq. unfold spec_limit, spec_skip.
    destruct (to_number (limit opts)) as [n|]; [destruct (0 <? n)|];
      destruct (to_number (skip opts)) as [m|]; try destruct (0 <? m);
      try reflexivity;
      repeat (first [apply sublist_take | apply sublist_drop
                    | etrans; [apply sublist_take|] ]).
  - rewrite <- Hp, Hf. apply sublist_submseteq, sublist_List_filter.
Qed.

(* ===================================================================== *)
(** * Notification *)
(* ===================================================================== *)

(** [_notifyChangesForIds] touches the pending Changes and the timer only. *)
Lemma notify_frame (ids : list value) (op : operationType) (w : world) :
  let w' := _notifyChangesForIds ids op w in
  objects w' = objects w
  /\ _content (this w') = _content (this w)
  /\ _watchers (this w') = _watchers (this w)
  /\ _lastId (this w') = _lastId (this w)
  /\ _name (this w') = _name (this w).
Proof.
  unfold _notifyChangesForIds. destruct (_notifyTimeout (this w)); simpl; auto.
Qed.

(** The buffer after a notification: the pending Changes for other ids, then
    one fresh Change per given id, in the order given. *)
Lemma notify_buffer (ids : list value) (op : operationType) (w : world) :
  _changesToNotify (this (_notifyChangesForIds ids op w))
  = filter (fun el => existsb (strict_eq (ch_id el)) ids = false)
           (_changesToNotify (this w))
    ++ changes_for (objects w) (this w) ids op
  /\ map ch_id (changes_for (objects w) (this w) ids op) = ids.
Proof.
  split.
  - unfold _notifyChangesForIds. destruct (_notifyTimeout (this w)); simpl; auto.
  - unfold changes_for. rewrite map_map. simpl. apply map_id.
Qed.

(** The timer after a notification: the one that was pending is cleared and
    a new one is armed. *)
Lemma notify_timer (ids : list value) (op : operationType) (w : world) :
  let w' := _notifyChangesForIds ids op w in
  _notifyTimeout (this w') = Some (next_timer w)
  /\ timers w'
     = match _notifyTimeout (this w) with
       | Some t0 => filter (fun t' => t' ≠ t0) (timers w)
       | None => timers w
       end ++ [next_timer w]
  /\ next_timer w' = S (next_timer w).
Proof.
  unfold _notifyChangesForIds. destruct (_notifyTimeout (this w)); simpl; auto.
Qed.

Lemma strict_eq_sym (a b : value) : strict_eq a b = strict_eq b a.
Proof.
  destruct a, b; simpl; auto.
  - by destruct b, b0.
  - apply Z.eqb_sym.
  - apply String.eqb_sym.
  - apply Nat.eqb_sym.
  - apply Nat.eqb_sym.
Qed.

Lemma distinct_ids_app (l1 l2 : list value) :
  distinct_ids (l1 ++ l2)
  = distinct_ids l1 && distinct_ids l2
    && forallb (fun x => negb (existsb (strict_eq x) l2)) l1.
Proof.
  induction l1 as [|x l1 IH]; simpl.
  - by rewrite andb_true_r.
  - rewrite IH, existsb_app, negb_orb.
    destruct (existsb (strict_eq x) l1), (existsb (strict_eq x) l2),
      (distinct_ids l1), (distinct_ids l2); simpl; auto.
Qed.

Lemma existsb_filter_false {A} (p q : A -> bool) (l : list A) :
  existsb p l = false -> existsb p (List.filter q l) = false.
Proof.
  induction l as [|x l IH]; simpl; [done|].
  intros [Hx Hl]%orb_false_elim. destruct (q x); simpl; [rewrite Hx|]; auto.
Qed.

Lemma distinct_ids_filter (q : value -> bool) (l : list value) :
  distinct_ids l = true -> distinct_ids (List.filter q l) = true.
Proof.
  induction l as [|x l IH]; simpl; [done|].
  intros [Hx Hl]%andb_true_iff. destruct (q x); simpl; auto.
  rewrite IH by assumption. rewrite andb_true_r.
  apply negb_true_iff. apply existsb_filter_false. by apply negb_true_iff.
Qed.

Lemma filter_changes_ids (ids : list value) (cs : list Change) :
  map ch_id (filter (fun el => existsb (strict_eq (ch_id el)) ids = false) cs)
  = List.filter (fun id => negb (existsb (strict_eq id) ids)) (map ch_id cs).
Proof.
  induction cs as [|c cs IH]; simpl; [done|].
  destruct (existsb (strict_eq (ch_id c)) ids) eqn:E; simpl.
  - by rewrite filter_cons_False by (rewrite E; discriminate).
  - rewrite filter_cons_True by assumption. simpl. by rewrite IH.
Qed.

(** The design of the buffer: a notification for pairwise different ids
    keeps the pending Changes at one per [_id]. *)
Lemma notify_keeps_one_change_per_id (ids : list value) (op : operationType)
    (w : world) :
  distinct_ids ids = true ->
  distinct_ids (map ch_id (_changesToNotify (this w))) = true ->
  distinct_ids (map ch_id (_changesToNotify (this (_notifyChangesForIds ids op w))))
  = true.
Proof.
  intros Hids Hbuf.
  destruct (notify_buffer ids op w) as [-> Hfresh].
  rewrite map_app, Hfresh, filter_changes_ids, distinct_ids_app.
  rewrite distinct_ids_filter by assumption. rewrite Hids. simpl.
  apply forallb_forall. intros x [_ Hx]%filter_In. exact Hx.
Qed.

(** The firing of an armed timeout hands the whole buffer to every
    subscriber, in the order of the [Map], and empties it. *)
Lemma fire_delivers_buffer (t : timer) (w : world) :
  t ∈ timers w ->
  exists w',
    fire t w
    = Some (map (fun e => {| to_watcher := fst e; to_callback := snd e;
                             payload := _changesToNotify (this w) |})
                (_watchers (this w)), w')
    /\ _changesToNotify (this w') = []
    /\ _content (this w') = _content (this w)
    /\ _watchers (this w') = _watchers (this w)
    /\ objects w' = objects w.
Proof.
  intros Ht. unfold fire. rewrite (bool_decide_eq_true_2 _ Ht).
  eexists. split; [reflexivity|]. by repeat split.
Qed.

(** A subscriber that subscribes again keeps its place. *)
Lemma map_set_keys {V} (k : value) (v : V) (m : list (value * V)) :
  map_has k m = true -> map fst (map_set k v m) = map fst m.
Proof.
  unfold map_has. induction m as [|[k' v'] m IH]; simpl; [discriminate|].
  destruct (strict_eq k' k) eqn:E; simpl; [done|].
  intros H. by rewrite IH.
Qed.

Lemma map_set_new {V} (k : value) (v : V) (m : list (value * V)) :
  map_has k m = false -> map_set k v m = m ++ [(k, v)].
Proof.
  unfold map_has. induction m as [|[k' v'] m IH]; simpl; [done|].
  destruct (strict_eq k' k) eqn:E; simpl; [discriminate|].
  intros H. by rewrite IH.
Qed.

(** C4 (the code departs from the claim): the ids of one notification are
    not compared with each other, so the batch [[{_id: 'a'}, {_id: 'a'}]],
    which [insert] accepts, leaves two pending Changes for the id ['a']. *)
Theorem pending_buffer_holds_one_id_twice :
  let h := [[("_id", VStr "a")]; [("_id", VStr "a")]] in
  let r := insert (DataArray [0; 1]%nat) (new_world "heroes" h) in
  fst r = Resolved ()
  /\ map ch_id (_changesToNotify (this (snd r))) = [VStr "a"; VStr "a"].
Proof. vm_compute. repeat split. Qed.

(* ===================================================================== *)
(** * [update] *)
(* ===================================================================== *)

Lemma clear_lookup (result : obj) (keys : list string) (k : string) :
  obj_lookup k
    (foldl (fun o key => if negb (String.eqb key "_id") then obj_delete key o else o)
           result keys)
  = if bool_decide (k ∈ keys) && negb (String.eqb k "_id") then None
    else obj_lookup k result.
Proof.
  revert result. induction keys as [|key keys IH]; intros result; simpl; [done|].
  rewrite IH. clear IH.
  destruct (String.eqb key "_id") eqn:Ekey; simpl.
  - apply String.eqb_eq in Ekey. subst key.
    destruct (String.eqb k "_id") eqn:Ek; simpl.
    + by rewrite !andb_false_r.
    + rewrite !andb_true_r.
      assert (k <> "_id") by (intros ->; by rewrite String.eqb_refl in Ek).
      rewrite (bool_decide_ext (k ∈ "_id" :: keys) (k ∈ keys)); [done|].
      rewrite elem_of_cons. intuition congruence.
  - destruct (decide (k = key)) as [->|Hne].
    + rewrite Ekey. simpl. rewrite andb_true_r.
      rewrite (bool_decide_eq_true_2 (key ∈ key :: keys)) by left.
      destruct (bool_decide (key ∈ keys)); [done|]. apply obj_lookup_delete_eq.
    + rewrite obj_lookup_delete_ne by congruence.
      rewrite (bool_decide_ext (k ∈ key :: keys) (k ∈ keys)); [done|].
      rewrite elem_of_cons. intuition congruence.
Qed.

Lemma obj_lookup_keys (k : string) (o : obj) :
  k ∈ obj_keys o <-> obj_lookup k o <> None.
Proof.
  induction o as [|[k' v] o IH]; simpl.
  - split; [by intros ?%elem_of_nil | congruence].
  - rewrite elem_of_cons. simpl. destruct (String.eqb k' k) eqn:E.
    + apply String.eqb_eq in E. subst. split; [congruence|auto].
    + assert (k <> k') by (intros ->; by rewrite String.eqb_refl in E).
      rewrite <- IH. intuition congruence.
Qed.

Lemma assign_lookup (modified base : obj) (keys : list string) (k : string) :
  obj_lookup k
    (foldl (fun o key =>
              if negb (String.eqb key "_id")
              then obj_set key (default VUndefined (obj_lookup key modified)) o
              else o)
           base keys)
  = if bool_decide (k ∈ keys) && negb (String.eqb k "_id")
    then Some (default VUndefined (obj_lookup k modified))
    else obj_lookup k base.
Proof.
  revert base. induction keys as [|key keys IH]; intros base; simpl; [done|].
  rewrite IH. clear IH.
  destruct (String.eqb key "_id") eqn:Ekey; simpl.
  - apply String.eqb_eq in Ekey. subst key.
    destruct (String.eqb k "_id") eqn:Ek; simpl.
    + by rewrite !andb_false_r.
    + rewrite !andb_true_r.
      assert (k <> "_id") by (intros ->; by rewrite String.eqb_refl in Ek).
      rewrite (bool_decide_ext (k ∈ "_id" :: keys) (k ∈ keys)); [done|].
      rewrite elem_of_cons. intuition congruence.
  - destruct (decide (k = key)) as [->|Hne].
    + rewrite Ekey. simpl. rewrite andb_true_r.
      rewrite (bool_decide_eq_true_2 (key ∈ key :: keys)) by left.
      destruct (bool_decide (key ∈ keys)); [done|]. apply obj_lookup_set_eq.
    + rewrite obj_lookup_set_ne by congruence.
      rewrite (bool_decide_ext (k ∈ key :: keys) (k ∈ keys)); [done|].
      rewrite elem_of_cons. intuition congruence.
Qed.

(** The in-place replacement keeps [_id] and takes every other property from
    the patched document. *)
Lemma replace_content_lookup (result modified : obj) (k : string) :
  obj_lookup k (replace_content result modified)
  = if String.eqb k "_id" then obj_lookup "_id" result else obj_lookup k modified.
Proof.
  unfold replace_content. rewrite assign_lookup, clear_lookup.
  destruct (String.eqb k "_id") eqn:Ek; simpl.
  - apply String.eqb_eq in Ek. subst k. by rewrite !andb_false_r.
  - rewrite !andb_true_r.
    destruct (bool_decide (k ∈ obj_keys modified)) eqn:Hm.
    + apply bool_decide_eq_true in Hm. apply obj_lookup_keys in Hm.
      by destruct (obj_lookup k modified).
    + apply bool_decide_eq_false in Hm. rewrite obj_lookup_keys in Hm.
      destruct (obj_lookup k modified); [exfalso; apply Hm; congruence|].
      destruct (bool_decide (k ∈ obj_keys result)) eqn:Hr; [done|].
      apply bool_decide_eq_false in Hr. rewrite obj_lookup_keys in Hr.
      destruct (obj_lookup k result); [exfalso; apply Hr; congruence|done].
Qed.

Section UpdateProofs.

Variable modify : value -> value -> result obj.

(** Once [modify] has raised, the rest of the loop does nothing. *)
Lemma update_loop_raised (replace : value) (results : list loc) (h : heap)
    (e : error) :
  foldl (update_one modify replace) (h, Some e) results = (h, Some e).
Proof. induction results as [|x results IH]; [reflexivity|exact IH]. Qed.

(** The loop on the matched documents, when [modify] returns on each of them
    in the state in which the loop reaches it: its stored state, unless the
    same object is matched twice. *)
Lemma update_loop (replace : value) (results : list loc) (h : heap) :
  (forall l, l ∈ results -> (l < List.length h)%nat) ->
  (forall l before, l ∈ results ->
     (NoDup results -> before = deref h l) ->
     exists modified, modify (VObj l before) replace = Ok modified) ->
  exists h',
    foldl (update_one modify replace) (h, None) results = (h', None)
    /\ List.length h' = List.length h
    /\ (forall l, l ∉ results -> deref h' l = deref h l)
    /\ (forall l, l ∈ results ->
          exists before modified,
            modify (VObj l before) replace = Ok modified
            /\ obj_lookup "_id" before = obj_lookup "_id" (deref h l)
            /\ (NoDup results -> before = deref h l)
            /\ deref h' l = replace_content before modified).
Proof.
  induction results as [|x results IH] using rev_ind; intros Hal Hok.
  { exists h. split; [reflexivity|]. split; [done|].
    split; [done|by intros l ?%elem_of_nil]. }
  destruct IH as (h1 & Hloop & Hlen & Hout & Hin).
  { intros l Hl. apply Hal. apply elem_of_app. by left. }
  { intros l before Hl Hb. apply Hok; [apply elem_of_app; by left|].
    intros Hnd. apply Hb. by apply NoDup_app in Hnd as [? _]. }
  assert (Hid : obj_lookup "_id" (deref h1 x) = obj_lookup "_id" (deref h x)).
  { destruct (decide (x ∈ results)) as [Hx|Hx].
    - destruct (Hin x Hx) as (b & m & _ & Hb & _ & ->).
      by rewrite replace_content_lookup.
    - by rewrite Hout. }
  assert (Hfirst : NoDup (results ++ [x]) -> deref h1 x = deref h x).
  { intros Hnd. apply Hout. apply NoDup_app in Hnd as (_ & Hnd & _).
    intros Hx. apply (Hnd x Hx). left. }
  destruct (Hok x (deref h1 x)) as [modified Hm];
    [apply elem_of_app; right; left|exact Hfirst|].
  exists (<[x := replace_content (deref h1 x) modified]> h1).
  rewrite foldl_app, Hloop. cbn [foldl update_one].
  unfold doc_value. rewrite Hm.
  split; [reflexivity|]. split; [by rewrite length_insert|]. split.
  - intros l Hl. rewrite elem_of_app, list_elem_of_singleton in Hl.
    rewrite deref_insert_ne by (intros ->; apply Hl; by right).
    apply Hout. intros ?. apply Hl. by left.
  - intros l Hl. destruct (decide (l = x)) as [->|Hne].
    + exists (deref h1 x), modified.
      split; [exact Hm|]. split; [exact Hid|]. split; [exact Hfirst|].
      apply deref_insert_eq. rewrite Hlen. apply Hal. apply elem_of_app. right. left.
    + apply elem_of_app in Hl as [Hl|Hl];
        [|apply list_elem_of_singleton in Hl; contradiction].
      destruct (Hin l Hl) as (b & m & Hbm & Hb & Hnd & Hd).
      exists b, m. split; [exact Hbm|]. split; [exact Hb|]. split.
      * intros Hnd'. apply Hnd. by apply NoDup_app in Hnd' as [? _].
      * rewrite deref_insert_ne by congruence. exact Hd.
Qed.

(** The loop that [modify] ends: the documents before the one on which it
    raised have been patched. *)
Lemma update_loop_stops (replace : value) (results : list loc) (h h' : heap)
    (e : error) :
  foldl (update_one modify replace) (h, None) results = (h', Some e) ->
  exists done l rest,
    results = done ++ l :: rest
    /\ foldl (update_one modify replace) (h, None) done = (h', None)
    /\ modify (doc_value h' l) replace = Throw e.
Proof.
  revert h. induction results as [|x results IH]; intros h; [discriminate|].
  cbn [foldl update_one].
  destruct (modify (doc_value h x) replace) as [modified|e0] eqn:Hm.
  - intros Hf. destruct (IH _ Hf) as (done & l & rest & -> & Hdone & Hl).
    exists (x :: done), l, rest. split; [reflexivity|]. split; [|exact Hl].
    cbn [foldl update_one]. by rewrite Hm.
  - rewrite update_loop_raised. intros [= <- <-].
    by exists [], x, results.
Qed.

Lemma update_matched (w : world) (query replace : value) (opts : options)
    (results : list loc) (h' : heap) :
  typeof_object replace = true ->
  find query VUndefined opts w = (Resolved results, w) ->
  results <> [] ->
  foldl (update_one modify replace) (objects w, None) results = (h', None) ->
  update modify query replace opts w
  = (Resolved (),
     _notifyChangesForIds (map (id_of h') results) OpUpdate (set_objects h' w)).
Proof.
  intros Hr Hf Hne Hloop. unfold update. rewrite Hf, Hr. cbn [negb andb].
  destruct results as [|x results]; [done|].
  cbn [List.length Nat.eqb]. by rewrite Hloop.
Qed.

(** C7: when [update] matches documents and [modify] returns on each of
    them, the stored sequence is the same sequence of the same objects; each
    matched object keeps its [_id] and has, for every other property name,
    what the patched document [modify(doc, patch)] has there (nothing where
    it has nothing); every other object is untouched.  [doc] is the matched
    document as the loop reaches it: the stored one, unless the same object
    is stored and matched twice, when the second round patches what the
    first has left. *)
Theorem update_replaces_in_place (w : world) (query replace : value)
    (opts : options) (results : list loc) :
  typeof_object replace = true ->
  stored_allocated w = true ->
  fst (find query VUndefined opts w) = Resolved results ->
  results <> [] ->
  (forall l before, l ∈ results ->
     (NoDup results -> before = deref (objects w) l) ->
     exists modified, modify (VObj l before) replace = Ok modified) ->
  let w' := snd (update modify query replace opts w) in
  fst (update modify query replace opts w) = Resolved ()
  /\ _content (this w') = _content (this w)
  /\ (forall l, l ∈ results ->
        l ∈ _content (this w)
        /\ obj_lookup "_id" (deref (objects w') l) = obj_lookup "_id" (deref (objects w) l)
        /\ exists before modified,
            modify (VObj l before) replace = Ok modified
            /\ (NoDup results -> before = deref (objects w) l)
            /\ forall k, k <> "_id" ->
                 obj_lookup k (deref (objects w') l) = obj_lookup k modified)
  /\ (forall l, l ∉ results -> deref (objects w') l = deref (objects w) l).
Proof.
  intros Hr Hal Hfind Hne Hmod. simpl.
  destruct (find query VUndefined opts w) as [out w1] eqn:Hf. simpl in Hfind. subst out.
  pose proof (find_selects_stored _ _ _ _ _ Hf) as Hsub.
  apply find_unprojected in Hf as Hw1. destruct Hw1 as [-> _].
  pose proof (stored_allocated_elim _ Hal) as Hal'.
  destruct (update_loop replace results (objects w))
    as (h' & Hloop & Hlen & Hout & Hin); [|exact Hmod|].
  { intros l Hl. apply Hal'. by apply (elem_of_submseteq results). }
  rewrite (update_matched w query replace opts results h' Hr Hf Hne Hloop).
  destruct (notify_frame (map (id_of h') results) OpUpdate (set_objects h' w))
    as (Ho & Hc & _).
  cbv zeta. unfold snd, fst. rewrite Ho, Hc.
  split; [reflexivity|]. split; [reflexivity|]. split; [|exact Hout].
  intros l Hl. split; [by apply (elem_of_submseteq results)|].
  simpl. destruct (Hin l Hl) as (before & modified & Hm & Hid & Hnd & ->). split.
  - by rewrite replace_content_lookup.
  - exists before, modified. split; [exact Hm|]. split; [exact Hnd|].
    intros k Hk. rewrite replace_content_lookup.
    destruct (String.eqb k "_id") eqn:E; [|done].
    apply String.eqb_eq in E. contradiction.
Qed.

Lemma filter_m_app {A} (p : A -> result bool) (l1 l2 : list A) :
  filter_m p (l1 ++ l2)
  = match filter_m p l1 with
    | Ok r1 => match filter_m p l2 with
               | Ok r2 => Ok (r1 ++ r2)
               | Throw e => Throw e
               end
    | Throw e => Throw e
    end.
Proof.
  induction l1 as [|x l1 IH]; simpl.
  - by destruct (filter_m p l2).
  - destruct (p x) as [b|]; [|done]. rewrite IH.
    destruct (filter_m p l1); [|done]. destruct (filter_m p l2); [|done].
    by destruct b.
Qed.

Lemma filter_m_ext {A} (p q : A -> result bool) (l : list A) :
  (forall x, x ∈ l -> p x = q x) -> filter_m p l = filter_m q l.
Proof.
  induction l as [|x l IH]; simpl; [done|]. intros H.
  rewrite (H x) by left. rewrite IH; [done|]. intros y Hy. apply H. by right.
Qed.

Lemma insert_last (h : heap) (o o' : obj) :
  <[List.length h := o']> (h ++ [o]) = h ++ [o'].
Proof.
  rewrite <- (Nat.add_0_r (List.length h)). by rewrite insert_app_r.
Qed.

(** What [update] does when nothing is selected and [upsert] is set, as long
    as [modify] returns and [insert] accepts the document built from the
    query. *)
Lemma update_upsert (w : world) (query replace : value) (opts : options)
    (doc : obj) :
  typeof_object replace = true ->
  stored_allocated w = true ->
  find query VUndefined opts w = (Resolved [], w) ->
  truthy (upsert opts) = true ->
  modify query replace = Ok doc ->
  let id := default VUndefined (obj_lookup "_id" doc) in
  let l := List.length (objects w) in
  strict_eq id VUndefined
  || negb (existsb (fun el => strict_eq id (id_of (objects w) el)) (_content (this w)))
  = true ->
  let doc' := if strict_eq id VUndefined
              then obj_set "_id" (VStr (pretty (_lastId (this w)))) doc
              else doc in
  let w1 := {| objects := objects w ++ [doc'];
               this := set_content (_content (this w) ++ [l])
                         (set_lastId (if strict_eq id VUndefined
                                      then S (_lastId (this w))
                                      else _lastId (this w)) (this w));
               timers := timers w; next_timer := next_timer w |} in
  update modify query replace opts w
  = (Resolved (), _notifyChangesForIds [id_of (objects w1) l] OpInsert w1).
Proof.
  intros Hr Hal Hf Hup Hdoc id l Hfree doc' w1.
  pose proof (stored_allocated_elim _ Hal) as Hal'.
  unfold update. rewrite Hf, Hr, Hup, Hdoc. simpl.
  fold l.
  assert (Hid : id_of (objects w ++ [doc]) l = id).
  { unfold id_of, l. by rewrite deref_alloc. }
  unfold insert_check. simpl. rewrite Hid.
  destruct (strict_eq id VUndefined) eqn:Hundef; simpl.
  - unfold l. rewrite deref_alloc, insert_last. subst w1 doc'.
    by destruct w as [? []].
  - simpl in Hfree. apply negb_true_iff in Hfree.
    rewrite findIndex_is_Some.
    rewrite (existsb_ext_in _ (fun el => strict_eq id (id_of (objects w) el))).
    2:{ intros el Hel. f_equal. apply id_of_deref, deref_app_l. by apply Hal'. }
    rewrite Hfree. simpl.
    subst w1 doc'. by destruct w as [? []].
Qed.

(** C6, amended: when [update] selects no document, without [upsert] it
    succeeds and changes nothing; with [upsert], provided [modify] builds a
    document from the query and that document has no [_id] or one that no
    stored document has, it succeeds and appends exactly that document (with
    a fresh counter id if it had none) as a new object, leaving the stored
    documents as they were.  Afterwards [find], on any criteria, returns
    what it returned before, followed by the new document exactly when the
    new document satisfies the criteria. *)
Theorem update_without_match (w : world) (query replace : value) (opts : options) :
  typeof_object replace = true ->
  stored_allocated w = true ->
  fst (find query VUndefined opts w) = Resolved [] ->
  (truthy (upsert opts) = false ->
   update modify query replace opts w = (Resolved (), w))
  /\ (truthy (upsert opts) = true ->
      forall doc, modify query replace = Ok doc ->
      let id := default VUndefined (obj_lookup "_id" doc) in
      let l := List.length (objects w) in
      strict_eq id VUndefined
      || negb (existsb (fun el => strict_eq id (id_of (objects w) el))
                       (_content (this w))) = true ->
      let w' := snd (update modify query replace opts w) in
      fst (update modify query replace opts w) = Resolved ()
      /\ _content (this w') = _content (this w) ++ [l]
      /\ deref (objects w') l
         = (if strict_eq id VUndefined
            then obj_set "_id" (VStr (pretty (_lastId (this w)))) doc
            else doc)
      /\ (forall el, el ∈ _content (this w) ->
            deref (objects w') el = deref (objects w) el)
      /\ (forall criteria found (satisfied : bool),
            typeof_object criteria = true ->
            find_filter criteria w = Ok found ->
            _elementIsValidForQuery (doc_value (objects w') l) criteria
            = Ok satisfied ->
            fst (find criteria VUndefined no_options w')
            = Resolved (found ++ (if satisfied then [l] else [])))).
Proof.
  intros Hr Hal Hfind.
  destruct (find query VUndefined opts w) as [out w1] eqn:Hf. simpl in Hfind. subst out.
  apply find_unprojected in Hf as Hw1. destruct Hw1 as [-> _].
  pose proof (stored_allocated_elim _ Hal) as Hal'.
  split.
  - intros Hup. unfold update. by rewrite Hf, Hr, Hup.
  - intros Hup doc Hdoc id l Hfree.
    rewrite (update_upsert w query replace opts doc Hr Hal Hf Hup Hdoc Hfree).
    fold id l.
    set (doc' := if strict_eq id VUndefined
                 then obj_set "_id" (VStr (pretty (_lastId (this w)))) doc
                 else doc).
    set (w1 := {| objects := objects w ++ [doc']; this := _;
                  timers := timers w; next_timer := next_timer w |}).
    destruct (notify_frame [id_of (objects w1) l] OpInsert w1) as (Ho & Hc & _).
    set (w' := _notifyChangesForIds [id_of (objects w1) l] OpInsert w1) in *.
    cbv zeta. unfold snd, fst. rewrite Ho, Hc.
    change (objects w1) with (objects w ++ [doc']).
    change (_content (this w1)) with (_content (this w) ++ [l]).
    split; [reflexivity|]. split; [reflexivity|].
    split; [apply deref_alloc|].
    assert (Hold : forall el, el ∈ _content (this w) ->
              deref (objects w ++ [doc']) el = deref (objects w) el).
    { intros el Hel. apply deref_app_l. by apply Hal'. }
    split; [exact Hold|].
    intros criteria found satisfied Hty Hfound Hnew.
    assert (Hfilter : find_filter criteria w'
                      = Ok (found ++ (if satisfied then [l] else []))).
    { unfold find_filter. rewrite Hc, Ho.
      change (objects w1) with (objects w ++ [doc']).
      change (_content (this w1)) with (_content (this w) ++ [l]).
      rewrite filter_m_app.
      rewrite (filter_m_ext _
                 (fun el => _elementIsValidForQuery (doc_value (objects w) el) criteria)).
      2:{ intros el Hel. unfold doc_value. by rewrite Hold. }
      unfold find_filter in Hfound. rewrite Hfound. cbn [filter_m].
      by rewrite Hnew. }
    destruct (find_unprojected_pipeline w' criteria no_options _ Hty Hfilter)
      as (sorted & _ & _ & Hk & ->).
    rewrite (Hk eq_refl). reflexivity.
Qed.

End UpdateProofs.

Lemma update_replaces_in_place_witness :
  let query := VObj 100 [("num", VObj 101 [("$gte", VNum 3)])] in
  let replace := VObj 102 [("updated", VBool true)] in
  let r := update modify_replacement query replace no_options four_docs in
  fst (find query VUndefined no_options four_docs) = Resolved [2; 3]%nat
  /\ fst r = Resolved ()
  /\ _content (this (snd r)) = [0; 1; 2; 3]%nat
  /\ obj_lookup "_id" (deref (objects (snd r)) 2%nat) = Some (VStr "2")
  /\ obj_lookup "num" (deref (objects (snd r)) 2%nat) = None
  /\ obj_lookup "updated" (deref (objects (snd r)) 2%nat) = Some (VBool true)
  /\ deref (objects (snd r)) 0%nat = deref (objects four_docs) 0%nat.
Proof.
  intros query replace r.
  assert (Hne : [2; 3]%nat <> ([] : list loc)) by discriminate.
  assert (Hmod : forall (l : loc) (before : obj), l ∈ [2; 3]%nat ->
            (NoDup [2; 3]%nat -> before = deref (objects four_docs) l) ->
            exists modified, modify_replacement (VObj l before) replace = Ok modified).
  { intros l before _ _. by exists [("updated", VBool true)]. }
  destruct (update_replaces_in_place modify_replacement four_docs query replace
              no_options [2; 3]%nat eq_refl eq_refl eq_refl Hne Hmod)
    as (Hres & Hcontent & Hin & Hout).
  split; [reflexivity|]. split; [exact Hres|]. split; [exact Hcontent|].
  destruct (Hin 2%nat) as (_ & Hid & before & modified & Hm & _ & Hk); [by left|].
  injection Hm as <-.
  split; [exact Hid|].
  split; [apply (Hk "num"); discriminate|].
  split; [apply (Hk "updated"); discriminate|].
  apply Hout. by apply (bool_decide_unpack _).
Defined.

(** An object that is stored twice is matched twice, and patched twice. *)
Example update_of_object_stored_twice :
  let w := snd (insert (DataArray [0; 0]%nat) (new_world "heroes" [num_doc 1])) in
  let r := update modify_replacement query_all (VObj 102 [("updated", VBool true)])
             no_options w in
  _content (this w) = [0; 0]%nat
  /\ fst (find query_all VUndefined no_options w) = Resolved [0; 0]%nat
  /\ fst r = Resolved ()
  /\ deref (objects (snd r)) 0%nat = [("_id", VStr "0"); ("updated", VBool true)].
Proof. vm_compute. repeat split. Qed.

(** C6, the claim refuted: with [{num: 10}] stored, the call
    [update({num: 999}, {num: 10}, {upsert: true})] matches no document and
    inserts one; afterwards [find({num: 10})] returns two documents and
    [find({num: 999})] none. *)
Lemma upsert_then_find_not_one :
  let w0 := snd (insertOne (DataDoc 0%nat) (new_world "test-collection" [num_doc 10])) in
  let query := VObj 100 [("num", VNum 999)] in
  let patch := VObj 101 [("num", VNum 10)] in
  let r := update modify_replacement query patch (only "upsert" (VBool true)) w0 in
  fst (find query VUndefined (only "upsert" (VBool true)) w0) = Resolved []
  /\ fst r = Resolved ()
  /\ _content (this (snd r)) = [0; 1]%nat
  /\ fst (find patch VUndefined no_options (snd r)) = Resolved [0; 1]%nat
  /\ fst (find query VUndefined no_options (snd r)) = Resolved [].
Proof. vm_compute. repeat split. Qed.

Lemma update_without_match_witness :
  let w0 := snd (insertOne (DataDoc 0%nat) (new_world "test-collection" [num_doc 10])) in
  let query := VObj 100 [("num", VNum 999)] in
  let patch := VObj 101 [("num", VNum 10)] in
  let opts := only "upsert" (VBool true) in
  let w' := snd (update modify_replacement query patch opts w0) in
  fst (find query VUndefined opts w0) = Resolved []
  /\ update modify_replacement query patch no_options w0 = (Resolved (), w0)
  /\ fst (update modify_replacement query patch opts w0) = Resolved ()
  /\ _content (this w') = [0; 1]%nat
  /\ deref (objects w') 1%nat = [("num", VNum 10); ("_id", VStr "1")]
  /\ fst (find patch VUndefined no_options w') = Resolved ([0%nat] ++ [1%nat])
  /\ fst (find query VUndefined no_options w') = Resolved ([] ++ []).
Proof.
  intros w0 query patch opts w'.
  destruct (update_without_match modify_replacement w0 query patch no_options
              eq_refl eq_refl eq_refl) as [Hno _].
  destruct (update_without_match modify_replacement w0 query patch opts
              eq_refl eq_refl eq_refl) as [_ Hup].
  destruct (Hup eq_refl [("num", VNum 10)] eq_refl eq_refl)
    as (Hres & Hcontent & Hdoc & _ & Hlater).
  split; [reflexivity|]. split; [exact (Hno eq_refl)|].
  split; [exact Hres|]. split; [exact Hcontent|]. split; [exact Hdoc|].
  split.
  - exact (Hlater patch [0%nat] true eq_refl eq_refl eq_refl).
  - exact (Hlater query [] false eq_refl eq_refl eq_refl).
Defined.

(* ===================================================================== *)
(** * [remove] *)
(* ===================================================================== *)

Lemma findIndex_split {A} (p : A -> bool) (l : list A) (i : nat) :
  findIndex p l = Some i ->
  exists pre x post,
    l = pre ++ x :: post /\ List.length pre = i /\ p x = true
    /\ forall y, y ∈ pre -> p y = false.
Proof.
  revert i. induction l as [|x l IH]; simpl; intros i; [discriminate|].
  destruct (p x) eqn:Hx.
  - intros [= <-]. exists [], x, l. repeat split; auto. by intros y ?%elem_of_nil.
  - destruct (findIndex p l) as [j|]; [|discriminate]. intros [= <-].
    destruct (IH j eq_refl) as (pre & y & post & -> & <- & Hy & Hpre).
    exists (x :: pre), y, post. repeat split; auto.
    intros z [->|Hz]%elem_of_cons; auto.
Qed.

Lemma findIndex_found {A} (p : A -> bool) (l : list A) (x : A) :
  x ∈ l -> p x = true -> exists i, findIndex p l = Some i.
Proof.
  intros Hx Hp. induction l as [|y l IH]; [by apply elem_of_nil in Hx|].
  simpl. destruct (p y) eqn:Hy; [eauto|].
  apply elem_of_cons in Hx as [->|Hx]; [congruence|].
  destruct (IH Hx) as [i ->]. eauto.
Qed.

Lemma findIndex_first {A} (p : A -> bool) (pre post : list A) (x : A) :
  (forall y, y ∈ pre -> p y = false) -> p x = true ->
  findIndex p (pre ++ x :: post) = Some (List.length pre).
Proof.
  intros Hpre Hx. induction pre as [|y pre IH]; simpl.
  - by rewrite Hx.
  - rewrite (Hpre y) by left. rewrite IH; [done|].
    intros z Hz. apply Hpre. by right.
Qed.

(** [l.splice(i, 1)] takes the element at [i] out. *)
Lemma splice_one {A} (pre post : list A) (x : A) :
  snd (splice (pre ++ x :: post) (Z.of_nat (List.length pre)) (Some 1)) = pre ++ post.
Proof.
  unfold splice. simpl.
  rewrite length_app. simpl.
  destruct (Z.of_nat (List.length pre) <? 0) eqn:E; [apply Z.ltb_lt in E; lia|].
  rewrite (Z.min_l (Z.of_nat (List.length pre))) by lia.
  rewrite (Z.min_l 1) by lia.
  rewrite Nat2Z.id.
  replace (Z.to_nat (Z.of_nat (List.length pre) + 1)) with (S (List.length pre)) by lia.
  rewrite take_app_length.
  f_equal. change (x :: post) with ([x] ++ post). rewrite app_assoc.
  rewrite drop_app_length'; [done|]. rewrite length_app. simpl. lia.
Qed.

Lemma filter_head_split {A} (p : A -> bool) (l r : list A) (x : A) :
  List.filter p l = x :: r ->
  exists pre post, l = pre ++ x :: post /\ p x = true
                   /\ forall y, y ∈ pre -> p y = false.
Proof.
  induction l as [|y l IH]; simpl; [discriminate|].
  destruct (p y) eqn:Hy.
  - intros [= -> <-]. exists [], l. repeat split; auto. by intros z ?%elem_of_nil.
  - intros (pre & post & -> & Hx & Hpre)%IH.
    exists (y :: pre), post. repeat split; auto.
    intros z [->|Hz]%elem_of_cons; auto.
Qed.

(** With [justOne], [find] is asked for [{limit: 1}] and nothing else. *)
Lemma remove_justOne_selection (w : world) (query : value) (l : loc)
    (rest : list loc) :
  typeof_object query = true ->
  find_filter query w = Ok (l :: rest) ->
  find query VUndefined (with_limit (VNum 1) no_options) w = (Resolved [l], w).
Proof.
  intros Hq Hf.
  destruct (find_unprojected_pipeline w query (with_limit (VNum 1) no_options)
              (l :: rest) Hq Hf)
    as (sorted & _ & _ & Hk & ->).
  rewrite (Hk eq_refl). reflexivity.
Qed.

(** C9, the claim refuted: on the documents with [num] 1 to 4, sorted by
    [{num: -1}] the first match is the document with [num] 4; yet
    [remove({}, {justOne: true, sort: {num: -1}})] removes the document with
    [num] 1, the first in store order. *)
Lemma remove_justOne_ignores_sort :
  let by_num_desc := VObj 102 [("num", VNum (-1))] in
  let opts := {| sort := by_num_desc; skip := VUndefined; limit := VUndefined;
                 upsert := VUndefined; justOne := VBool true |} in
  let r := remove query_all opts four_docs in
  fst (find query_all VUndefined (only "sort" by_num_desc) four_docs)
  = Resolved [3; 2; 1; 0]%nat
  /\ fst r = Resolved ()
  /\ _content (this (snd r)) = [1; 2; 3]%nat
  /\ deref (objects four_docs) 0%nat = [("num", VNum 1); ("_id", VStr "0")].
Proof. vm_compute. repeat split. Qed.

(** C9, amended: [remove(query, {justOne: true, sort: S})] does not read [S]
    (nor [skip] and [limit]): it behaves as [remove(query, {justOne: true})].
    When a document matches, it succeeds and removes exactly one document:
    the first document of the store whose [_id] is that of the first match
    in store order, which is that first match itself when no document
    stored before it has the same [_id]. *)
Theorem remove_justOne_removes_first_match (w : world) (query : value)
    (opts : options) (l : loc) (rest : list loc) :
  truthy (justOne opts) = true ->
  typeof_object query = true ->
  find_filter query w = Ok (l :: rest) ->
  let w' := snd (remove query opts w) in
  remove query opts w = remove query (only "justOne" (justOne opts)) w
  /\ fst (remove query opts w) = Resolved ()
  /\ S (List.length (_content (this w'))) = List.length (_content (this w))
  /\ objects w' = objects w
  /\ exists pre post,
      _content (this w) = pre ++ l :: post
      /\ _elementIsValidForQuery (doc_value (objects w) l) query = Ok true
      /\ (forall el, el ∈ pre ->
            _elementIsValidForQuery (doc_value (objects w) el) query = Ok false)
      /\ ((forall el, el ∈ pre ->
             strict_eq (id_of (objects w) el) (id_of (objects w) l) = false) ->
          _content (this w') = pre ++ post).
Proof.
  intros Hj Hq Hf. simpl.
  split; [unfold remove; simpl; by rewrite Hj|].
  pose proof (remove_justOne_selection w query l rest Hq Hf) as Hsel.
  assert (Hrem : remove query opts w
                 = let '(w2, ids) := remove_one (w, []) l in
                   (Resolved (), _notifyChangesForIds ids OpRemove w2)).
  { unfold remove. rewrite Hj, Hsel. reflexivity. }
  rewrite Hrem. clear Hrem.
  pose proof (filter_m_spec _ _ _ Hf) as Hfs. symmetry in Hfs.
  apply filter_head_split in Hfs as (pre & post & Hcontent & Hl & Hpre).
  set (p := fun el => strict_eq (id_of (objects w) el) (id_of (objects w) l)).
  destruct (findIndex_found p (_content (this w)) l) as [i Hi].
  { rewrite Hcontent. apply elem_of_app. right. by left. }
  { apply strict_eq_refl. }
  unfold remove_one. fold p. rewrite Hi.
  destruct (findIndex_split p _ _ Hi) as (pre' & x & post' & Hc' & <- & Hx & Hpre').
  match goal with |- context [_notifyChangesForIds ?ids ?op ?w0] =>
    destruct (notify_frame ids op w0) as (Ho & Hc & _);
    set (w' := _notifyChangesForIds ids op w0) in *
  end.
  cbn [fst snd]. rewrite Ho, Hc.
  cbn [_content this set_this set_content objects].
  assert (Hsp : snd (splice (_content (this w)) (Z.of_nat (List.length pre')) (Some 1))
                = pre' ++ post').
  { rewrite Hc'. apply splice_one. }
  rewrite !Hsp.
  split; [reflexivity|]. split; [rewrite Hc', !length_app; simpl; lia|].
  split; [reflexivity|].
  exists pre, post. split; [assumption|]. split; [|split].
  - destruct (_elementIsValidForQuery (doc_value (objects w) l) query) as [[|]|];
      by try discriminate.
  - intros el Hel. specialize (Hpre el Hel).
    assert (Hok : exists b,
              _elementIsValidForQuery (doc_value (objects w) el) query = Ok b).
    { unfold find_filter in Hf. rewrite Hcontent, filter_m_app in Hf.
      assert (Hin : forall (ls : list loc) r,
                filter_m (fun el => _elementIsValidForQuery
                                      (doc_value (objects w) el) query) ls = Ok r ->
                el ∈ ls ->
                exists b, _elementIsValidForQuery (doc_value (objects w) el) query
                          = Ok b).
      { clear. induction ls as [|y ls IH]; simpl; intros r Hr Hin.
        - by apply elem_of_nil in Hin.
        - destruct (_elementIsValidForQuery (doc_value (objects w) y) query)
            as [b|] eqn:Hy; [|discriminate].
          destruct (filter_m _ ls) as [r0|] eqn:Hls; [|discriminate].
          apply elem_of_cons in Hin as [->|Hin]; eauto. }
      destruct (filter_m _ pre) as [r0|] eqn:Hp0; [|discriminate].
      by apply (Hin pre r0). }
    destruct Hok as [[|] Hb]; rewrite Hb in Hpre |- *; [discriminate|done].
  - intros Hids.
    assert (Hi' : findIndex p (pre ++ l :: post) = Some (List.length pre)).
    { apply findIndex_first; [exact Hids | apply strict_eq_refl]. }
    rewrite <- Hcontent, Hc' in Hi'.
    rewrite (findIndex_first p pre' post' x Hpre' Hx) in Hi'.
    injection Hi' as Hlen.
    rewrite Hcontent in Hc'.
    assert (pre = pre').
    { apply (f_equal (take (List.length pre))) in Hc'.
      rewrite take_app_length in Hc'. rewrite <- Hlen in Hc'.
      by rewrite take_app_length in Hc'. }
    subst pre'. apply app_inv_head in Hc'. by injection Hc' as _ <-.
Qed.

Lemma remove_justOne_removes_first_match_witness :
  let opts := {| sort := VObj 102 [("num", VNum (-1))]; skip := VUndefined;
                 limit := VUndefined; upsert := VUndefined; justOne := VBool true |} in
  let r := remove query_all opts four_docs in
  find_filter query_all four_docs = Ok [0; 1; 2; 3]%nat
  /\ r = remove query_all (only "justOne" (VBool true)) four_docs
  /\ fst r = Resolved ()
  /\ S (List.length (_content (this (snd r)))) = 4%nat.
Proof.
  intros opts r.
  destruct (remove_justOne_removes_first_match four_docs query_all opts 0%nat
              [1; 2; 3]%nat eq_refl eq_refl eq_refl)
    as (Hsame & Hres & Hlen & _).
  split; [reflexivity|]. split; [exact Hsame|]. split; [exact Hres|]. exact Hlen.
Defined.

(** C10: a [remove] whose [find] resolves ends with a notification, whatever
    was selected: the pending timeout is cleared and a new one is armed.
    When nothing was selected the store and the pending Changes are as
    before; the firing of the new timeout then calls every subscriber, in
    the order of the [Map], with these pending Changes -- with no Change at
    all when none was pending -- and empties the buffer. *)
Theorem remove_always_schedules_flush (w : world) (query : value) (opts : options)
    (results : list loc) :
  fst (find query VUndefined
         (if truthy (justOne opts) then with_limit (VNum 1) no_options else no_options)
         w) = Resolved results ->
  let w' := snd (remove query opts w) in
  let t := next_timer w in
  fst (remove query opts w) = Resolved ()
  /\ _notifyTimeout (this w') = Some t
  /\ timers w'
     = match _notifyTimeout (this w) with
       | Some t0 => filter (fun t' => t' ≠ t0) (timers w)
       | None => timers w
       end ++ [t]
  /\ _watchers (this w') = _watchers (this w)
  /\ (results = [] ->
      _content (this w') = _content (this w)
      /\ _changesToNotify (this w') = _changesToNotify (this w)
      /\ exists w'',
          fire t w'
          = Some (map (fun e => {| to_watcher := fst e; to_callback := snd e;
                                   payload := _changesToNotify (this w) |})
                      (_watchers (this w)), w'')
          /\ _changesToNotify (this w'') = []
          /\ (t ∉ timers w'')
          /\ (_changesToNotify (this w) = [] ->
              (fst <$> fire t w')
              = Some (map (fun e => {| to_watcher := fst e; to_callback := snd e;
                                       payload := [] |})
                          (_watchers (this w))))).
Proof.
  intros Hfind. simpl.
  set (opts' := if truthy (justOne opts) then _ else _) in *.
  destruct (find query VUndefined opts' w) as [out w1] eqn:Hf. simpl in Hfind. subst out.
  apply find_unprojected in Hf as Hw1. destruct Hw1 as [-> _].
  assert (Hrem : remove query opts w
                 = let '(w2, ids) := foldl remove_one (w, []) results in
                   (Resolved (), _notifyChangesForIds ids OpRemove w2)).
  { unfold remove. fold opts'. by rewrite Hf. }
  rewrite Hrem. clear Hrem.
  assert (Hloop : let st := foldl remove_one (w, []) results in
            objects (fst st) = objects w
            /\ _watchers (this (fst st)) = _watchers (this w)
            /\ _notifyTimeout (this (fst st)) = _notifyTimeout (this w)
            /\ _changesToNotify (this (fst st)) = _changesToNotify (this w)
            /\ timers (fst st) = timers w
            /\ next_timer (fst st) = next_timer w).
  { clear Hf. induction results as [|x results IH] using rev_ind; [done|].
    rewrite foldl_app. simpl.
    destruct (foldl remove_one (w, []) results) as [w2 ids]. simpl in *.
    unfold remove_one. destruct (findIndex _ _); simpl; tauto. }
  destruct (foldl remove_one (w, []) results) as [w2 ids] eqn:Hfold.
  simpl in Hloop. destruct Hloop as (Hlo & Hlw & Hlt & Hlb & Hltm & Hln).
  destruct (notify_frame ids OpRemove w2) as (Ho & Hc & Hw & _).
  destruct (notify_timer ids OpRemove w2) as (Ht & Htm & Hnt).
  destruct (notify_buffer ids OpRemove w2) as (Hb & _).
  set (w' := _notifyChangesForIds ids OpRemove w2) in *.
  clearbody w'. unfold snd, fst.
  rewrite Ht, Htm, Hw, Hlw, Hlt, Hltm, Hln.
  split; [reflexivity|]. split; [reflexivity|]. split; [reflexivity|].
  split; [reflexivity|].
  intros ->. simpl in Hfold. injection Hfold as <- <-.
  rewrite Hc. split; [reflexivity|].
  assert (Hbuf : _changesToNotify (this w') = _changesToNotify (this w)).
  { rewrite Hb. simpl. rewrite app_nil_r.
    clear. induction (_changesToNotify (this w)) as [|c cs IH]; [done|].
    rewrite filter_cons_True by done. by rewrite IH. }
  split; [exact Hbuf|].
  assert (Harmed : next_timer w ∈ timers w').
  { rewrite Htm. apply elem_of_app. right. by left. }
  unfold fire. rewrite (bool_decide_eq_true_2 _ Harmed).
  eexists. split; [|split; [|split]].
  - unfold flush. simpl. rewrite Hbuf, Hw. reflexivity.
  - reflexivity.
  - simpl. intros Hin%list_elem_of_filter. by destruct Hin.
  - intros Hempty. simpl. by rewrite Hbuf, Hw, Hempty.
Qed.

(** One stored document, one subscriber, no pending Change and no armed
    timeout; the query [{num: 77}] matches nothing. *)
Lemma remove_always_schedules_flush_witness :
  let query := VObj 100 [("num", VNum 77)] in
  let r := remove query no_options foo_flushed in
  fst (find query VUndefined no_options foo_flushed) = Resolved []
  /\ _changesToNotify (this foo_flushed) = []
  /\ fst r = Resolved ()
  /\ _notifyTimeout (this (snd r)) = Some 2%nat
  /\ timers (snd r) = [2%nat]
  /\ (fst <$> fire 2%nat (snd r)) = delivered [].
Proof.
  intros query r.
  destruct (remove_always_schedules_flush foo_flushed query no_options [] eq_refl)
    as (Hres & Ht & Htm & _ & Hnone).
  destruct (Hnone eq_refl) as (_ & _ & w'' & _ & _ & _ & Hempty).
  split; [reflexivity|]. split; [reflexivity|]. split; [exact Hres|].
  split; [exact Ht|]. split; [exact Htm|]. exact (Hempty eq_refl).
Defined.

(* ===================================================================== *)
(** * The state that the operations maintain *)
(* ===================================================================== *)

Lemma well_formed_intro (w : world) :
  (forall el, el ∈ _content (this w) ->
     id_of (objects w) el <> VUndefined /\ (el < List.length (objects w))%nat) ->
  well_formed w = true.
Proof.
  intros H. unfold well_formed, stored_have_id, stored_allocated.
  apply andb_true_iff. split; apply forallb_forall; intros el Hel%list_elem_of_In;
    destruct (H el Hel) as [Hid Hlt].
  - apply negb_true_iff. destruct (strict_eq _ VUndefined) eqn:E; [|done].
    by apply strict_eq_undefined in E.
  - by apply Nat.ltb_lt.
Qed.

Lemma well_formed_elim (w : world) :
  well_formed w = true ->
  forall el, el ∈ _content (this w) ->
    id_of (objects w) el <> VUndefined /\ (el < List.length (objects w))%nat.
Proof.
  intros [H1 H2]%andb_true_iff el Hel. split.
  - by apply stored_have_id_elim.
  - by apply stored_allocated_elim.
Qed.

Lemma new_world_well_formed (name : string) (h : heap) :
  well_formed (new_world name h) = true.
Proof. reflexivity. Qed.

(** One round of the [forEach] of [insert] gives the object an [_id] if it
    has none, and touches no object that has one. *)
Lemma insert_check_effect (w : world) (badId : value) (x : loc) :
  (x < List.length (objects w))%nat ->
  let w' := fst (insert_check (w, badId) x) in
  List.length (objects w') = List.length (objects w)
  /\ _content (this w') = _content (this w)
  /\ id_of (objects w') x <> VUndefined
  /\ (forall l, id_of (objects w) l <> VUndefined ->
        deref (objects w') l = deref (objects w) l).
Proof.
  intros Hx. unfold insert_check.
  destruct (strict_eq (id_of (objects w) x) VUndefined) eqn:E; simpl.
  - apply strict_eq_undefined in E. rewrite length_insert.
    split; [done|]. split; [done|]. split.
    + unfold id_of. rewrite deref_insert_eq by assumption.
      by rewrite obj_lookup_set_eq.
    + intros l Hl. apply deref_insert_ne. intros ->. contradiction.
  - assert (Hid : id_of (objects w) x <> VUndefined).
    { intros Heq. rewrite Heq in E. discriminate. }
    by destruct (findIndex _ _).
Qed.

Lemma insert_loop_effect (data : list loc) (w : world) (badId : value) :
  (forall x, x ∈ data -> (x < List.length (objects w))%nat) ->
  let w' := fst (foldl insert_check (w, badId) data) in
  List.length (objects w') = List.length (objects w)
  /\ _content (this w') = _content (this w)
  /\ (forall x, x ∈ data -> id_of (objects w') x <> VUndefined)
  /\ (forall l, id_of (objects w) l <> VUndefined ->
        deref (objects w') l = deref (objects w) l).
Proof.
  revert w badId. induction data as [|x data IH]; intros w badId Hal.
  { simpl. split; [done|]. split; [done|]. split; [by intros x ?%elem_of_nil|done]. }
  destruct (insert_check_effect w badId x) as (Hlen1 & Hc1 & Hx1 & Hkeep1).
  { apply Hal. by left. }
  change (foldl insert_check (w, badId) (x :: data))
    with (foldl insert_check (insert_check (w, badId) x) data).
  destruct (insert_check (w, badId) x) as [w1 badId1]. cbn [fst] in *. cbv zeta.
  destruct (IH w1 badId1) as (Hlen & Hc & Hin & Hkeep).
  { intros y Hy. rewrite Hlen1. apply Hal. by right. }
  split; [by rewrite Hlen|]. split; [by rewrite Hc|]. split.
  - intros y [->|Hy]%elem_of_cons; [|by apply Hin].
    unfold id_of. rewrite Hkeep by assumption. exact Hx1.
  - intros l Hl. rewrite Hkeep; [by apply Hkeep1|].
    unfold id_of. by rewrite Hkeep1.
Qed.

Lemma notify_well_formed (ids : list value) (op : operationType) (w : world) :
  well_formed (_notifyChangesForIds ids op w) = well_formed w.
Proof.
  destruct (notify_frame ids op w) as (Ho & Hc & _).
  unfold well_formed, stored_have_id, stored_allocated. by rewrite Ho, Hc.
Qed.

(** [insert] maintains it, whether it resolves or rejects. *)
Lemma insert_well_formed (data : data_arg) (w : world) :
  well_formed w = true ->
  batch_allocated (batch data) w = true ->
  well_formed (snd (insert data w)) = true.
Proof.
  intros Hwf Hal. pose proof (well_formed_elim _ Hwf) as Hw.
  assert (Hal' : forall x, x ∈ batch data -> (x < List.length (objects w))%nat).
  { unfold batch_allocated in Hal. rewrite forallb_forall in Hal.
    intros x Hx%list_elem_of_In. by apply Nat.ltb_lt, Hal. }
  destruct data as [l|ls| |]; try exact Hwf.
  - destruct (insert_loop_effect [l] w VNull Hal') as (Hlen & Hc & Hin & Hkeep).
    unfold insert. change (batch (DataDoc l)) with [l] in *.
    destruct (foldl insert_check (w, VNull) [l]) as [w1 badId]. simpl in *.
    destruct (negb (strict_eq badId VNull)); simpl.
    + apply well_formed_intro. intros el Hel. rewrite Hc in Hel.
      destruct (Hw el Hel) as [Hid Hlt]. unfold id_of. rewrite Hkeep by assumption.
      split; [exact Hid | congruence].
    + rewrite notify_well_formed. apply well_formed_intro. simpl.
      intros el [Hel|Hel]%elem_of_app.
      * rewrite Hc in Hel. destruct (Hw el Hel) as [Hid Hlt].
        unfold id_of. rewrite Hkeep by assumption. split; [exact Hid | congruence].
      * split; [by apply Hin|]. rewrite Hlen. by apply Hal'.
  - destruct (insert_loop_effect ls w VNull Hal') as (Hlen & Hc & Hin & Hkeep).
    unfold insert. change (batch (DataArray ls)) with ls in *.
    destruct (foldl insert_check (w, VNull) ls) as [w1 badId]. simpl in *.
    destruct (negb (strict_eq badId VNull)); simpl.
    + apply well_formed_intro. intros el Hel. rewrite Hc in Hel.
      destruct (Hw el Hel) as [Hid Hlt]. unfold id_of. rewrite Hkeep by assumption.
      split; [exact Hid | congruence].
    + rewrite notify_well_formed. apply well_formed_intro. simpl.
      intros el [Hel|Hel]%elem_of_app.
      * rewrite Hc in Hel. destruct (Hw el Hel) as [Hid Hlt].
        unfold id_of. rewrite Hkeep by assumption. split; [exact Hid | congruence].
      * split; [by apply Hin|]. rewrite Hlen. by apply Hal'.
Qed.

(** [find] maintains it: a projection only adds objects. *)
Lemma find_project_all_extends (projection : value) (keys : list string)
    (results res : list loc) (h h' : heap) :
  find_project_all projection keys results h = Ok (res, h') ->
  exists added, h' = h ++ added.
Proof.
  revert res h h'. induction results as [|el results IH]; simpl; intros res h h'.
  - intros [= <- <-]. exists []. by rewrite app_nil_r.
  - destruct (project_one projection keys (doc_value h el)) as [o|]; [|discriminate].
    simpl.
    destruct (find_project_all projection keys results (h ++ [o])) as [[r h1]|] eqn:E;
      [|discriminate].
    simpl. intros [= <- <-]. destruct (IH _ _ _ E) as [added ->].
    exists (o :: added). by rewrite <- app_assoc.
Qed.

Lemma find_objects (query projection : value) (opts : options) (w : world) :
  let w' := snd (find query projection opts w) in
  this w' = this w /\ exists added, objects w' = objects w ++ added.
Proof.
  assert (Hsame : this w = this w /\ exists added, objects w = objects w ++ added).
  { split; [done|]. exists []. by rewrite app_nil_r. }
  unfold find. destruct (negb _ && _); [exact Hsame|].
  destruct (find_filter _ w) as [filtered|]; [|exact Hsame]. simpl.
  destruct (find_sort opts (objects w) filtered) as [sorted|]; [|exact Hsame]. simpl.
  destruct (find_project projection _ (objects w)) as [[res h']|] eqn:E;
    [|exact Hsame].
  simpl. split; [done|].
  unfold find_project in E. destruct (truthy projection).
  - destruct (own_keys projection) as [ks|]; [|discriminate]. simpl in E.
    by apply find_project_all_extends in E.
  - injection E as <- <-. exists []. by rewrite app_nil_r.
Qed.

Lemma extension_well_formed (w : world) (added : heap) (w' : world) :
  well_formed w = true ->
  _content (this w') = _content (this w) ->
  objects w' = objects w ++ added ->
  well_formed w' = true.
Proof.
  intros Hwf Hc Ho. pose proof (well_formed_elim _ Hwf) as Hw.
  apply well_formed_intro. rewrite Hc, Ho. intros el Hel.
  destruct (Hw el Hel) as [Hid Hlt]. unfold id_of.
  rewrite deref_app_l by assumption. split; [exact Hid|].
  rewrite length_app. lia.
Qed.

Lemma find_well_formed (query projection : value) (opts : options) (w : world) :
  well_formed w = true ->
  well_formed (snd (find query projection opts w)) = true.
Proof.
  intros Hwf. destruct (find_objects query projection opts w) as [Ht [added Ho]].
  apply (extension_well_formed w added); [done| |done].
  by rewrite Ht.
Qed.

(** [remove] maintains it: it only takes documents out of the store. *)
Lemma splice_rest_subset {A} (l : list A) (start : Z) (deleteCount : option Z)
    (x : A) :
  x ∈ snd (splice l start deleteCount) -> x ∈ l.
Proof.
  unfold splice. simpl. intros [Hx|Hx]%elem_of_app.
  - by apply (elem_of_submseteq _ _ _ Hx), sublist_submseteq, sublist_take.
  - by apply (elem_of_submseteq _ _ _ Hx), sublist_submseteq, sublist_drop.
Qed.

Lemma remove_loop_effect (results : list loc) (w : world) (ids : list value) :
  let w' := fst (foldl remove_one (w, ids) results) in
  objects w' = objects w
  /\ forall el, el ∈ _content (this w') -> el ∈ _content (this w).
Proof.
  revert w ids. induction results as [|x results IH]; intros w ids; simpl; [done|].
  unfold remove_one at 2.
  destruct (findIndex _ (_content (this w))) as [i|].
  - destruct (IH (set_this (set_content
                    (snd (splice (_content (this w)) (Z.of_nat i) (Some 1)))
                    (this w)) w) (ids ++ [id_of (objects w) x])) as [Ho Hsub].
    split; [exact Ho|]. intros el Hel. apply Hsub in Hel.
    cbn [_content this set_this set_content] in Hel.
    by apply splice_rest_subset in Hel.
  - apply IH.
Qed.

Lemma remove_well_formed (query : value) (opts : options) (w : world) :
  well_formed w = true ->
  well_formed (snd (remove query opts w)) = true.
Proof.
  intros Hwf. pose proof (well_formed_elim _ Hwf) as Hw.
  unfold remove.
  rewrite (surjective_pairing (find query VUndefined _ w)).
  rewrite find_unprojected_world.
  destruct (fst (find query VUndefined _ w)) as [results| | |]; try exact Hwf.
  destruct (remove_loop_effect results w []) as [Ho Hsub].
  destruct (foldl remove_one (w, []) results) as [w2 ids]. simpl in *.
  rewrite notify_well_formed. apply well_formed_intro. rewrite Ho.
  intros el Hel. apply Hw. by apply Hsub.
Qed.

Section UpdateInvariant.

Variable modify : value -> value -> result obj.

Lemma update_one_effect (replace : value) (st : heap * option error) (x l : loc) :
  List.length (fst (update_one modify replace st x)) = List.length (fst st)
  /\ id_of (fst (update_one modify replace st x)) l = id_of (fst st) l.
Proof.
  destruct st as [h [e|]]; [done|]. cbn [update_one fst].
  destruct (modify (doc_value h x) replace) as [modified|]; [|done].
  cbn [fst]. rewrite length_insert. split; [done|].
  destruct (decide (x = l)) as [->|Hne].
  - destruct (decide (l < List.length h)%nat) as [Hlt|Hge].
    + unfold id_of. rewrite deref_insert_eq by assumption.
      by rewrite replace_content_lookup.
    + unfold id_of. by rewrite deref_insert_ge by lia.
  - unfold id_of. by rewrite deref_insert_ne.
Qed.

Lemma update_loop_effect (replace : value) (results : list loc)
    (st : heap * option error) (l : loc) :
  List.length (fst (foldl (update_one modify replace) st results))
  = List.length (fst st)
  /\ id_of (fst (foldl (update_one modify replace) st results)) l = id_of (fst st) l.
Proof.
  revert st. induction results as [|x results IH]; intros st; simpl; [done|].
  destruct (IH (update_one modify replace st x)) as [-> ->].
  apply update_one_effect.
Qed.

(** [update] maintains it: the matched documents keep their [_id], and the
    document of an upsert goes through [insert]. *)
Lemma update_well_formed (query replace : value) (opts : options) (w : world) :
  well_formed w = true ->
  well_formed (snd (update modify query replace opts w)) = true.
Proof.
  intros Hwf. pose proof (well_formed_elim _ Hwf) as Hw.
  unfold update. destruct (negb _ && _); [exact Hwf|].
  rewrite (surjective_pairing (find query VUndefined opts w)).
  rewrite find_unprojected_world.
  destruct (fst (find query VUndefined opts w)) as [results| | |]; try exact Hwf.
  destruct (List.length results =? 0)%nat.
  - destruct (truthy (upsert opts)); [|exact Hwf].
    destruct (modify query replace) as [doc|]; [|exact Hwf].
    unfold alloc, insertOne. cbv beta iota zeta.
    set (w0 := set_objects (objects w ++ [doc]) w).
    assert (Hwf0 : well_formed w0 = true).
    { by apply (extension_well_formed w [doc]). }
    assert (Hal0 : batch_allocated (batch (DataDoc (List.length (objects w)))) w0 = true).
    { simpl. rewrite length_app. simpl. rewrite andb_true_r. apply Nat.ltb_lt. lia. }
    pose proof (insert_well_formed (DataDoc (List.length (objects w))) w0 Hwf0 Hal0)
      as Hins.
    destruct (insert (DataDoc (List.length (objects w))) w0) as [[| | |] w2];
      exact Hins.
  - assert (Hkeep : forall h o,
              foldl (update_one modify replace) (objects w, None) results = (h, o) ->
              well_formed (set_objects h w) = true).
    { intros h o Hloop. apply well_formed_intro. simpl.
      intros el Hel. destruct (Hw el Hel) as [Hid Hlt].
      destruct (update_loop_effect replace results (objects w, None) el) as [Hl Hi].
      rewrite Hloop in Hl, Hi. cbn [fst] in Hl, Hi. rewrite Hl, Hi. by split. }
    destruct (foldl (update_one modify replace) (objects w, None) results)
      as [h [e|]] eqn:Hloop; cbn [snd].
    + by apply (Hkeep h (Some e)).
    + rewrite notify_well_formed. by apply (Hkeep h None).
Qed.

End UpdateInvariant.

Lemma fire_well_formed (t : timer) (w : world) (ds : list delivery) (w' : world) :
  well_formed w = true -> fire t w = Some (ds, w') -> well_formed w' = true.
Proof.
  unfold fire. destruct (bool_decide _); [|discriminate].
  by intros Hwf [= _ <-].
Qed.

Lemma subscribe_well_formed (watcher : value) (cb : option callback) (w : world) :
  well_formed (snd (subscribe watcher cb w)) = well_formed w.
Proof. unfold subscribe. destruct cb; [destruct (truthy watcher)|]; reflexivity. Qed.

Lemma unsubscribe_well_formed (watcher : value) (w : world) :
  well_formed (snd (unsubscribe watcher w)) = well_formed w.
Proof. unfold unsubscribe. by destruct (map_has _ _). Qed.

(* ===================================================================== *)
(** * Queries: what the matcher accepts *)
(* ===================================================================== *)

Lemma filter_m_pure {A} (p : A -> bool) (l : list A) :
  filter_m (fun x => Ok (p x)) l = Ok (List.filter p l).
Proof.
  induction l as [|x l IH]; [reflexivity|].
  cbn [filter_m List.filter]. rewrite IH. by destruct (p x).
Qed.

Lemma find_no_options (w : world) (query : value) (filtered : list loc) :
  typeof_object query = true ->
  find_filter query w = Ok filtered ->
  find query VUndefined no_options w = (Resolved filtered, w).
Proof.
  intros Hq Hf.
  destruct (find_unprojected_pipeline w query no_options filtered Hq Hf)
    as (sorted & _ & _ & Hs & ->).
  by rewrite (Hs eq_refl).
Qed.

Lemma literal_subquery (r r' : ref) (f : string) (q : value) (fs : obj) :
  is_primitive q = true ->
  _elementIsValidForQuery (VObj r fs) (VObj r' [(f, q)])
  = Ok (strict_eq (default VUndefined (obj_lookup f fs)) q).
Proof.
  intros Hq. rewrite matches_single_key.
  unfold attributeDoNotMatch, has_own, obj_has.
  destruct (truthy q) eqn:Ht.
  - destruct (obj_lookup f fs) as [v|] eqn:Hl; cbn.
    + destruct q; try discriminate; cbn; rewrite ?Hl; cbn;
        by rewrite Bool.negb_involutive.
    + by destruct q.
  - cbn. destruct q; try discriminate; cbn; by rewrite Bool.negb_involutive.
Qed.

(** [find({})] without projection and options resolves to the stored
    documents themselves, all of them and in the order of the store, and
    leaves the state as it is; its length is what [count] resolves to. *)
Theorem find_empty_query_returns_store (r : ref) (w : world) :
  find (VObj r []) VUndefined no_options w = (Resolved (_content (this w)), w)
  /\ then_ (fst (find (VObj r []) VUndefined no_options w))
           (fun results => Ok (List.length results)) = count w.
Proof.
  assert (H : find (VObj r []) VUndefined no_options w
              = (Resolved (_content (this w)), w)).
  { apply find_no_options; [reflexivity|].
    unfold find_filter.
    rewrite (filter_m_ext _ (fun _ => Ok true)) by done.
    rewrite filter_m_pure. f_equal.
    induction (_content (this w)) as [|x l IH]; [reflexivity|].
    cbn. by rewrite IH. }
  by rewrite H.
Qed.

(** A query [{f: q}] whose [q] is neither an object nor an array, under a
    name [f] that is no member of [Object.prototype], selects the stored
    documents whose [f] is [q] as [===] compares them, a missing [f] reading
    [undefined]; they come in the order of the store. *)
Theorem find_by_literal_selects_equal (r : ref) (f : string) (q : value) (w : world) :
  is_primitive q = true ->
  inherited_name f = false ->
  find (VObj r [(f, q)]) VUndefined no_options w
  = (Resolved (List.filter (fun el => strict_eq (field (objects w) f el) q)
                 (_content (this w))), w).
Proof.
  intros Hq _. apply find_no_options; [reflexivity|].
  unfold find_filter.
  rewrite (filter_m_ext _ (fun el => Ok (strict_eq (field (objects w) f el) q))).
  - apply filter_m_pure.
  - intros el _. by apply literal_subquery.
Qed.

Lemma find_by_literal_selects_equal_witness :
  find (VObj 100 [("num", VNum 3)]) VUndefined no_options four_docs
  = (Resolved [2%nat], four_docs).
Proof.
  exact (find_by_literal_selects_equal 100%nat "num" (VNum 3) four_docs
           eq_refl eq_refl).
Defined.

Lemma matches_cons (r : ref) (fq : string * value) (fs : obj) (el : value) :
  _elementIsValidForQuery el (VObj r (fq :: fs))
  = match _elementIsValidForQuery el (VObj r [fq]) with
    | Ok true => _elementIsValidForQuery el (VObj r fs)
    | other => other
    end.
Proof.
  unfold _elementIsValidForQuery. destruct fq as [f q]. cbn.
  by destruct (attributeDoNotMatch (matches_query q) el f q) as [[]|].
Qed.

(** A query with several attributes is the conjunction of its one-attribute
    queries, when none of them raises. *)
Theorem query_is_conjunction (r : ref) (fs : obj) (el : value) :
  (forall fq, fq ∈ fs -> exists b, _elementIsValidForQuery el (VObj r [fq]) = Ok b) ->
  _elementIsValidForQuery el (VObj r fs)
  = Ok (forallb (fun fq => match _elementIsValidForQuery el (VObj r [fq]) with
                           | Ok true => true
                           | _ => false
                           end) fs).
Proof.
  induction fs as [|fq fs IH]; intros H; [reflexivity|].
  rewrite matches_cons. cbn [forallb].
  destruct (H fq) as [b Hb]; [left|]. rewrite Hb.
  destruct b; [|reflexivity].
  apply IH. intros fq' Hin. apply H. by right.
Qed.

Lemma query_is_conjunction_witness :
  _elementIsValidForQuery (VObj 0 [("firstname", VStr "Tony"); ("lastname", VStr "STARK")])
    (VObj 1 [("firstname", VStr "Tony"); ("lastname", VStr "PARKER")])
  = Ok false.
Proof.
  apply (query_is_conjunction 1%nat
           [("firstname", VStr "Tony"); ("lastname", VStr "PARKER")]
           (VObj 0 [("firstname", VStr "Tony"); ("lastname", VStr "STARK")])).
  intros fq Hin.
  apply elem_of_cons in Hin as [->|Hin]; [by exists true|].
  apply elem_of_cons in Hin as [->|Hin]; [by exists false|].
  by apply elem_of_nil in Hin.
Defined.

Lemma compare_num (m a : Z) : compare (VNum m) (VNum a) = Some (m ?= a).
Proof. reflexivity. Qed.

(** The range query [{f: {$gte: a, $lt: b}}] on a document that has no [f]
    or a number under it: without [f] the document is rejected, and a number
    [m] is accepted exactly when [a <= m < b]. *)
Theorem range_query_on_number (r r' r'' : ref) (f : string) (fs : obj) (a b : Z) :
  match obj_lookup f fs with
  | Some (VNum _) | None => true
  | Some _ => false
  end = true ->
  _elementIsValidForQuery (VObj r fs)
    (VObj r' [(f, VObj r'' [("$gte", VNum a); ("$lt", VNum b)])])
  = Ok (match obj_lookup f fs with
        | Some (VNum m) => (a <=? m) && (m <? b)
        | _ => false
        end).
Proof.
  intros Hnum. rewrite matches_single_key.
  unfold attributeDoNotMatch, has_own, obj_has.
  destruct (obj_lookup f fs) as [v|] eqn:Hl; [|reflexivity].
  destruct v as [| | |m| | |]; try discriminate.
  cbn -[lt ge]. rewrite Hl. cbn -[lt ge].
  unfold lt, ge. rewrite !compare_num.
  destruct (Z.compare_spec m a), (Z.compare_spec m b),
    (Z.leb_spec a m), (Z.ltb_spec m b); try lia; reflexivity.
Qed.

Lemma range_query_on_number_witness :
  _elementIsValidForQuery (VObj 0 [("num", VNum 3)])
    (VObj 1 [("num", VObj 2 [("$gte", VNum 2); ("$lt", VNum 4)])]) = Ok true
  /\ _elementIsValidForQuery (VObj 0 [("num", VNum 4)])
       (VObj 1 [("num", VObj 2 [("$gte", VNum 2); ("$lt", VNum 4)])]) = Ok false
  /\ _elementIsValidForQuery (VObj 0 [("foo", VNum 3)])
       (VObj 1 [("num", VObj 2 [("$gte", VNum 2); ("$lt", VNum 4)])]) = Ok false.
Proof.
  split; [|split].
  - exact (range_query_on_number 0%nat 1%nat 2%nat "num" [("num", VNum 3)] 2 4 eq_refl).
  - exact (range_query_on_number 0%nat 1%nat 2%nat "num" [("num", VNum 4)] 2 4 eq_refl).
  - exact (range_query_on_number 0%nat 1%nat 2%nat "num" [("foo", VNum 3)] 2 4 eq_refl).
Defined.

(** On a field that the document has, each operator alone means what its
    name says: [$eq] and [$ne] are [===] and its negation, [$in] and [$nin]
    with an array operand are membership by [===] and its negation, and the
    four comparisons on numbers are those of the integers. *)
Theorem operators_mean_what_they_say (r r' r'' : ref) (f : string) (fs : obj)
    (v : value) :
  obj_lookup f fs = Some v ->
  let holds op x :=
    _elementIsValidForQuery (VObj r fs) (VObj r' [(f, VObj r'' [(op, x)])]) in
  (forall x, holds "$eq" x = Ok (strict_eq v x))
  /\ (forall x, holds "$ne" x = Ok (negb (strict_eq v x)))
  /\ (forall ra vs, holds "$in" (VArr ra vs) = Ok (existsb (strict_eq v) vs))
  /\ (forall ra vs, holds "$nin" (VArr ra vs) = Ok (negb (existsb (strict_eq v) vs)))
  /\ (forall m a, v = VNum m ->
        holds "$lt" (VNum a) = Ok (m <? a)
        /\ holds "$lte" (VNum a) = Ok (m <=? a)
        /\ holds "$gt" (VNum a) = Ok (a <? m)
        /\ holds "$gte" (VNum a) = Ok (a <=? m)).
Proof.
  intros Hl holds.
  assert (Hone : forall op x,
            holds op x
            = negb <$> operatorDoNotMatch v x op
                         (matches_query (VObj r'' [(op, x)]) v)).
  { intros op x. unfold holds. rewrite matches_single_key.
    unfold attributeDoNotMatch, has_own, obj_has. rewrite Hl.
    cbn -[matches_query operatorDoNotMatch]. rewrite Hl, String.eqb_refl.
    cbn -[matches_query operatorDoNotMatch].
    by destruct (operatorDoNotMatch _ _ _ _) as [[]|]. }
  split; [|split; [|split; [|split]]].
  - intros x. rewrite Hone. cbn. by rewrite Bool.negb_involutive.
  - intros x. rewrite Hone. reflexivity.
  - intros ra vs. rewrite Hone. cbn. by rewrite Bool.negb_involutive.
  - intros ra vs. rewrite Hone. reflexivity.
  - intros m a ->. rewrite !Hone.
    unfold operatorDoNotMatch, gt, ge, lt, le.
    change (compare (VNum m) (VNum a)) with (Some (m ?= a)).
    cbn -[Z.compare Z.ltb Z.leb]. unfold Z.ltb, Z.leb.
    rewrite (Z.compare_antisym m a). by destruct (m ?= a).
Qed.

Lemma operators_mean_what_they_say_witness :
  _elementIsValidForQuery (VObj 0 [("num", VNum 3)])
    (VObj 1 [("num", VObj 2 [("$in", VArr 3 [VNum 1; VNum 3])])]) = Ok true.
Proof.
  destruct (operators_mean_what_they_say 0%nat 1%nat 2%nat "num" [("num", VNum 3)]
              (VNum 3) eq_refl) as (_ & _ & H & _).
  exact (H 3%nat [VNum 1; VNum 3]).
Defined.

Lemma surely_nan_to_number (v : value) : surely_nan v = true -> to_number v = None.
Proof.
  destruct v as [| | | |s| |]; try discriminate; [reflexivity|].
  unfold surely_nan, to_number, to_primitive, string_to_number.
  destruct (trim s) as [|c rest]; [discriminate|].
  intros H. apply andb_true_iff in H as [_ H].
  assert (Hd : digit_of c = None).
  { unfold digit_of. unfold begins_number in H.
    destruct ((48 <=? nat_of_ascii c) && (nat_of_ascii c <=? 57))%nat;
      [discriminate|reflexivity]. }
  assert (Hp : parse_digits 0 (String c rest) = None) by (cbn; by rewrite Hd).
  destruct c as [[] [] [] [] [] [] [] []]; try discriminate H;
    destruct rest; exact Hp.
Qed.

Lemma surely_nan_compare (v x : value) :
  surely_nan v = true -> is_primitive x = true -> is_string x = false ->
  compare v x = None.
Proof.
  intros Hv Hx Hs. pose proof (surely_nan_to_number v Hv) as Hn.
  unfold compare.
  destruct v as [| | | |s| |]; try discriminate; destruct x; try discriminate;
    cbn [to_primitive]; by rewrite ?Hn.
Qed.

(** The comparison operators are tested through their negation: a value
    that converts to [NaN], [undefined] or a string that begins like no
    number, is not ordered against an operand that is neither a string, an
    object nor an array, and so satisfies each of [$lt], [$lte], [$gt] and
    [$gte]. *)
Theorem incomparable_value_passes_comparison (r r' r'' : ref) (f op : string)
    (fs : obj) (v x : value) :
  obj_lookup f fs = Some v ->
  existsb (String.eqb op) ["$lt"; "$lte"; "$gt"; "$gte"] = true ->
  surely_nan v = true ->
  is_primitive x = true ->
  is_string x = false ->
  _elementIsValidForQuery (VObj r fs) (VObj r' [(f, VObj r'' [(op, x)])]) = Ok true.
Proof.
  intros Hl Hop Hv Hx Hs.
  pose proof (surely_nan_compare v x Hv Hx Hs) as Hc.
  rewrite matches_single_key.
  unfold attributeDoNotMatch, has_own, obj_has. rewrite Hl. cbn.
  rewrite Hl, String.eqb_refl. cbn.
  unfold operatorDoNotMatch, gt, ge, lt, le. rewrite Hc.
  cbn in Hop.
  destruct (String.eqb op "$lte") eqn:E1; [reflexivity|].
  destruct (String.eqb op "$lt") eqn:E2; [reflexivity|].
  destruct (String.eqb op "$gte") eqn:E3; [reflexivity|].
  destruct (String.eqb op "$gt") eqn:E4; [reflexivity|].
  discriminate.
Qed.

Lemma incomparable_value_passes_comparison_witness :
  _elementIsValidForQuery (VObj 0 [("num", VStr "abc")])
    (VObj 1 [("num", VObj 2 [("$gte", VNum 3)])]) = Ok true.
Proof.
  exact (incomparable_value_passes_comparison 0%nat 1%nat 2%nat "num" "$gte"
           [("num", VStr "abc")] (VStr "abc") (VNum 3)
           eq_refl eq_refl eq_refl eq_refl eq_refl).
Defined.

Lemma operator_default (v operand : value) (g : string) (nested : result bool) :
  is_operator g = false ->
  operatorDoNotMatch v operand g nested = negb <$> nested.
Proof.
  intros H. unfold is_operator in H. cbn in H.
  unfold operatorDoNotMatch.
  repeat match goal with
         | |- context [String.eqb g ?s] =>
             destruct (String.eqb g s) eqn:?; [discriminate|]
         end.
  reflexivity.
Qed.

Lemma some_m_const {A} (f : A -> result bool) (m : result bool) (l : list A) :
  l <> [] ->
  (forall x, x ∈ l -> f x = m) ->
  some_m f l = m.
Proof.
  induction l as [|x l IH]; [done|]. intros _ H.
  cbn. rewrite (H x) by left.
  destruct m as [[]|e]; try reflexivity.
  destruct l as [|y l]; [reflexivity|].
  apply IH; [done|]. intros z Hz. apply H. by right.
Qed.

Lemma negb_negb_result (m : result bool) : negb <$> (negb <$> m) = m.
Proof. by destruct m as [[]|]. Qed.

Lemma attribute_descends (r r'' : ref) (f : string) (fs sub : obj) (v : value) :
  obj_lookup f fs = Some v ->
  sub <> [] ->
  forallb (fun g => negb (is_operator g)) (obj_keys sub) = true ->
  attributeDoNotMatch (matches_query (VObj r'' sub)) (VObj r fs) f (VObj r'' sub)
  = negb <$> _elementIsValidForQuery v (VObj r'' sub).
Proof.
  intros Hl Hne Hops.
  set (m := _elementIsValidForQuery v (VObj r'' sub)).
  assert (Hm : matches_query (VObj r'' sub) v = m) by reflexivity.
  clearbody m.
  unfold attributeDoNotMatch, has_own, obj_has. rewrite Hl.
  cbn -[matches_query]. rewrite Hl.
  apply some_m_const.
  - unfold obj_keys. by destruct sub.
  - intros g Hg. cbn -[matches_query]. rewrite Hm.
    apply operator_default.
    rewrite forallb_forall in Hops.
    apply negb_true_iff, Hops. by apply list_elem_of_In.
Qed.

(** A sub-query none of whose keys is an operator is a query on the
    sub-document: the document matches [{f: sub}] exactly as the value of
    its field [f] matches [sub], exceptions included. *)
Theorem nested_query_descends (r r' r'' : ref) (f : string) (fs sub : obj)
    (v : value) :
  obj_lookup f fs = Some v ->
  sub <> [] ->
  forallb (fun g => negb (is_operator g)) (obj_keys sub) = true ->
  _elementIsValidForQuery (VObj r fs) (VObj r' [(f, VObj r'' sub)])
  = _elementIsValidForQuery v (VObj r'' sub).
Proof.
  intros Hl Hne Hops.
  rewrite matches_single_key, (attribute_descends r r'' f fs sub v Hl Hne Hops).
  apply negb_negb_result.
Qed.

Lemma nested_query_descends_witness :
  _elementIsValidForQuery
    (VObj 0 [("a", VObj 9 [("foo", VStr "bar")])])
    (VObj 1 [("a", VObj 2 [("foo", VStr "bar")])])
  = _elementIsValidForQuery (VObj 9 [("foo", VStr "bar")]) (VObj 2 [("foo", VStr "bar")]).
Proof.
  apply (nested_query_descends 0%nat 1%nat 2%nat "a"
           [("a", VObj 9 [("foo", VStr "bar")])] [("foo", VStr "bar")]
           (VObj 9 [("foo", VStr "bar")]) eq_refl); [discriminate|reflexivity].
Defined.

Lemma filter_m_throw {A} (p : A -> result bool) (l : list A) (x : A) (e : error) :
  x ∈ l -> p x = Throw e ->
  (forall y, y ∈ l -> (exists b, p y = Ok b) \/ p y = Throw e) ->
  filter_m p l = Throw e.
Proof.
  induction l as [|y l IH]; intros Hin Hx Hall; [by apply elem_of_nil in Hin|].
  cbn. destruct (Hall y) as [[b Hb]|Hb]; [left| |]; rewrite Hb; [|reflexivity].
  apply elem_of_cons in Hin as [->|Hin]; [congruence|].
  rewrite IH; [reflexivity|assumption|assumption|].
  intros z Hz. apply Hall. by right.
Qed.

Lemma primitive_subquery_outcome (r : ref) (g : string) (q v : value) :
  truthy q = true -> is_primitive q = true ->
  match v with
  | VUndefined | VNull =>
      _elementIsValidForQuery v (VObj r [(g, q)]) = Throw cannot_convert
  | _ => exists b, _elementIsValidForQuery v (VObj r [(g, q)]) = Ok b
  end.
Proof.
  intros Ht Hp. rewrite matches_single_key.
  unfold attributeDoNotMatch. rewrite Ht.
  assert (Hobj : typeof_object q = false) by (by destruct q).
  rewrite Hobj. cbn [andb].
  assert (H : v <> VUndefined -> v <> VNull ->
              exists b, negb <$>
                (absent ← negb <$> has_own v g;
                 if (absent : bool) then Ok true
                 else v0 ← get_prop v g; Ok (negb (strict_eq v0 q))) = Ok b).
  { intros H1 H2.
    destruct (has_own_total v g H1 H2) as [b ->].
    destruct (get_prop_total v g H1 H2) as [x ->].
    cbn. destruct b; cbn; eauto. }
  destruct v; try (by apply H); reflexivity.
Qed.

Section ErrorPropagation.

Variable modify : value -> value -> result obj.

(** One stored document whose field [f] holds [null] makes every query
    [{f: {g: q}}] on a sub-field raise a [TypeError]: [find], [findOne] and
    [remove] throw it instead of returning a promise, [update] rejects with
    it, and the state is as before. *)
Theorem nested_query_on_null_field_throws (w : world) (r r' : ref) (f g : string)
    (q projection replace : value) (opts : options) (el : loc) :
  is_operator g = false ->
  truthy q = true ->
  is_primitive q = true ->
  el ∈ _content (this w) ->
  obj_lookup f (deref (objects w) el) = Some VNull ->
  let query := VObj r [(f, VObj r' [(g, q)])] in
  find query projection opts w = (Thrown cannot_convert, w)
  /\ findOne query projection opts w = (Thrown cannot_convert, w)
  /\ remove query opts w = (Thrown cannot_convert, w)
  /\ (typeof_object replace = true ->
      update modify query replace opts w = (Rejected cannot_convert, w)).
Proof.
  intros Hg Ht Hp Hin Hl query.
  assert (Hops : forallb (fun g => negb (is_operator g)) (obj_keys [(g, q)]) = true)
    by (unfold obj_keys; cbn [forallb map fst]; by rewrite Hg).
  assert (Hf : find_filter query w = Throw cannot_convert).
  { unfold find_filter. apply (filter_m_throw _ _ el); [assumption| |].
    - unfold doc_value, query.
      rewrite matches_single_key, (attribute_descends _ _ _ _ _ _ Hl) by done.
      rewrite negb_negb_result.
      exact (primitive_subquery_outcome r' g q VNull Ht Hp).
    - intros y _. unfold doc_value, query.
      destruct (obj_lookup f (deref (objects w) y)) as [v|] eqn:Hy.
      + rewrite matches_single_key, (attribute_descends _ _ _ _ _ _ Hy) by done.
        rewrite negb_negb_result.
        pose proof (primitive_subquery_outcome r' g q v Ht Hp) as H.
        destruct v; auto.
      + left. exists false. apply truthy_subquery_absent_field; [reflexivity|].
        unfold obj_has. by rewrite Hy. }
  assert (Hfind : forall p o, find query p o w = (Thrown cannot_convert, w)).
  { intros p o. unfold find.
    cbn [query default_query typeof_object isArray negb andb].
    by rewrite Hf. }
  repeat split.
  - apply Hfind.
  - unfold findOne. by rewrite Hfind.
  - unfold remove. by rewrite Hfind.
  - intros Hr. unfold update. rewrite Hr. cbn [negb andb]. by rewrite Hfind.
Qed.

End ErrorPropagation.

Lemma nested_query_on_null_field_throws_witness :
  let w := snd (insertOne (DataDoc 0%nat) (new_world "heroes" [[("address", VNull)]])) in
  let query := VObj 100 [("address", VObj 101 [("city", VStr "Paris")])] in
  find query VUndefined no_options w = (Thrown cannot_convert, w)
  /\ remove query no_options w = (Thrown cannot_convert, w).
Proof.
  intros w query.
  destruct (nested_query_on_null_field_throws modify_replacement w 100%nat 101%nat
              "address" "city" (VStr "Paris") VUndefined (VObj 102 []) no_options 0%nat
              eq_refl eq_refl eq_refl) as (H1 & _ & H2 & _).
  - by apply (bool_decide_unpack _).
  - reflexivity.
  - split; assumption.
Defined.




(* ===================================================================== *)
(** * The comparator and the order of results *)
(* ===================================================================== *)

(** ** The comparator as an ordering *)

Lemma compare_swap (a b : value) : compare b a = CompOpp <$> compare a b.
Proof.
  assert (H : forall x y : value,
             match to_number y, to_number x with
             | Some n, Some m => Some (n ?= m)
             | _, _ => None
             end
             = CompOpp <$> match to_number x, to_number y with
                           | Some n, Some m => Some (n ?= m)
                           | _, _ => None
                           end).
  { intros x y. destruct (to_number x), (to_number y); cbn; try reflexivity.
    by rewrite Z.compare_antisym. }
  unfold compare.
  destruct (to_primitive a), (to_primitive b);
    lazymatch goal with
    | |- Some (String.compare ?x ?y) = _ =>
        change (Some (String.compare x y) = Some (CompOpp (String.compare y x)));
        f_equal; apply String.compare_antisym
    | |- _ => apply H
    end.
Qed.

Lemma gt_swap (a b : value) : gt b a = lt a b.
Proof. unfold gt, lt. rewrite compare_swap. by destruct (compare a b) as [[]|]. Qed.

Lemma lt_swap (a b : value) : lt b a = gt a b.
Proof. unfold gt, lt. rewrite compare_swap. by destruct (compare a b) as [[]|]. Qed.

Lemma gt_lt_exclusive (a b : value) : gt a b = true -> lt a b = false.
Proof. unfold gt, lt. by destruct (compare a b) as [[]|]. Qed.

Lemma orderBy_from_swap (r r' : ref) (a b : obj) (s : value) (suffix : list string) :
  forallb (fun k => match get_prop s k with
                    | Ok d => gt d (VNum 0) || lt d (VNum 0)
                    | Throw _ => false
                    end) suffix = true ->
  obj_lookup "undefined" a = None ->
  obj_lookup "undefined" b = None ->
  orderBy_from (VObj r' b) (VObj r a) s suffix
  = Z.opp <$> orderBy_from (VObj r a) (VObj r' b) s suffix.
Proof.
  intros Hd Ha Hb. induction suffix as [|k rest IH].
  - cbn. rewrite Ha, Hb. reflexivity.
  - cbn [forallb] in Hd. apply andb_true_iff in Hd as [Hk Hrest].
    cbn [orderBy_from get_prop mbind result_bind].
    set (va := default VUndefined (obj_lookup k a)).
    set (vb := default VUndefined (obj_lookup k b)).
    rewrite (gt_swap va vb), (lt_swap va vb).
    destruct (get_prop s k) as [d|]; [|discriminate].
    destruct (gt va vb) eqn:Egt.
    + rewrite (gt_lt_exclusive _ _ Egt). cbn.
      destruct (gt d (VNum 0)) eqn:Ed.
      * by rewrite (gt_lt_exclusive _ _ Ed).
      * cbn in Hk. by rewrite Hk.
    + destruct (lt va vb) eqn:Elt.
      * cbn. destruct (gt d (VNum 0)) eqn:Ed.
        -- by rewrite (gt_lt_exclusive _ _ Ed).
        -- cbn in Hk. by rewrite Hk.
      * by apply IH.
Qed.

(** [_orderByManyProperties] is antisymmetric, [cmp(b, a) = -cmp(a, b)],
    when every direction of the sort specification is a non-zero number and
    neither document has a property named ["undefined"], the key that the
    comparator reads after the last one. *)
Theorem comparator_is_antisymmetric (r r' : ref) (a b : obj) (s : value)
    (keys : list string) :
  forallb (fun k => match get_prop s k with
                    | Ok d => gt d (VNum 0) || lt d (VNum 0)
                    | Throw _ => false
                    end) keys = true ->
  obj_has "undefined" a = false ->
  obj_has "undefined" b = false ->
  _orderByManyProperties (VObj r' b) (VObj r a) s keys 0
  = Z.opp <$> _orderByManyProperties (VObj r a) (VObj r' b) s keys 0.
Proof.
  unfold obj_has. intros Hd Ha Hb.
  apply orderBy_from_swap; [assumption| |].
  - by destruct (obj_lookup "undefined" a).
  - by destruct (obj_lookup "undefined" b).
Qed.

Lemma comparator_is_antisymmetric_witness :
  _orderByManyProperties (VObj 1 [("foo", VStr "a"); ("num", VNum 2)])
    (VObj 0 [("foo", VStr "a"); ("num", VNum 1)])
    (VObj 2 [("foo", VNum 1); ("num", VNum (-1))]) ["foo"; "num"] 0
  = Z.opp <$> _orderByManyProperties (VObj 0 [("foo", VStr "a"); ("num", VNum 1)])
                (VObj 1 [("foo", VStr "a"); ("num", VNum 2)])
                (VObj 2 [("foo", VNum 1); ("num", VNum (-1))]) ["foo"; "num"] 0.
Proof.
  exact (comparator_is_antisymmetric 0%nat 1%nat
           [("foo", VStr "a"); ("num", VNum 1)] [("foo", VStr "a"); ("num", VNum 2)]
           (VObj 2 [("foo", VNum 1); ("num", VNum (-1))]) ["foo"; "num"]
           eq_refl eq_refl eq_refl).
Defined.

(** The off-by-one step past the last key reads the property named
    ["undefined"]. *)
Example comparator_reads_undefined_key :
  _orderByManyProperties (VObj 0 [("num", VNum 1); ("undefined", VNum 1)])
    (VObj 1 [("num", VNum 1); ("undefined", VNum 2)])
    (VObj 2 [("num", VNum 1)]) ["num"] 0 = Ok (-1)
  /\ _orderByManyProperties (VObj 1 [("num", VNum 1); ("undefined", VNum 2)])
       (VObj 0 [("num", VNum 1); ("undefined", VNum 1)])
       (VObj 2 [("num", VNum 1)]) ["num"] 0 = Ok (-1).
Proof. split; reflexivity. Qed.

(** ** Sorting *)

Lemma Sorted_drop {A} (R : A -> A -> Prop) (n : nat) (l : list A) :
  Sorted R l -> Sorted R (drop n l).
Proof.
  revert l. induction n as [|n IH]; intros l Hs; [by rewrite drop_0|].
  destruct l as [|x l]; [constructor|].
  cbn. apply IH. by apply Sorted_inv in Hs as [? _].
Qed.

Lemma Sorted_take {A} (R : A -> A -> Prop) (n : nat) (l : list A) :
  Sorted R l -> Sorted R (take n l).
Proof.
  revert n. induction l as [|x l IH]; intros n Hs; [by rewrite take_nil|].
  destruct n as [|n]; [constructor|].
  cbn. apply Sorted_inv in Hs as [Hs Hhd].
  constructor; [by apply IH|].
  destruct l as [|y l]; [rewrite take_nil; constructor|].
  destruct n; [constructor|]. cbn. apply HdRel_inv in Hhd. by constructor.
Qed.

Lemma Sorted_map_key {A} (R : Z -> Z -> Prop) (key : A -> Z) (l : list A) :
  Sorted (fun x y => R (key x) (key y)) l -> Sorted R (map key l).
Proof.
  induction 1 as [|x l Hs IH Hhd]; [constructor|].
  cbn. constructor; [assumption|].
  destruct Hhd; cbn; by constructor.
Qed.

Lemma comparator_on_numbers (h : heap) (r : ref) (k : string) (d : value)
    (x y : loc) :
  numeric_at h k x = true ->
  numeric_at h k y = true ->
  _orderByManyProperties (doc_value h x) (doc_value h y) (VObj r [(k, d)]) [k] 0
  = Ok (match to_integer (field h k x) ?= to_integer (field h k y) with
        | Gt => if gt d (VNum 0) then 1 else -1
        | Lt => if lt d (VNum 0) then 1 else -1
        | Eq => 0
        end).
Proof.
  unfold numeric_at, field, obj_has. intros Hx Hy.
  apply andb_true_iff in Hx as [Hx Hux], Hy as [Hy Huy].
  unfold _orderByManyProperties, doc_value.
  cbn [skipn orderBy_from get_prop mbind result_bind].
  destruct (default VUndefined (obj_lookup k (deref h x))) as [| | |n| | |];
    try discriminate.
  destruct (default VUndefined (obj_lookup k (deref h y))) as [| | |m| | |];
    try discriminate.
  destruct (obj_lookup "undefined" (deref h x)); [discriminate|].
  destruct (obj_lookup "undefined" (deref h y)); [discriminate|].
  cbn [obj_lookup]. rewrite String.eqb_refl. cbn [default].
  unfold gt at 1, lt at 1. change (compare (VNum n) (VNum m)) with (Some (n ?= m)).
  change (to_integer (VNum n)) with n. change (to_integer (VNum m)) with m.
  destruct (n ?= m); reflexivity.
Qed.

Lemma Sorted_skip_limit (R : loc -> loc -> Prop) (opts : options)
    (l : list loc) :
  Sorted R l -> Sorted R (spec_limit opts (spec_skip opts l)).
Proof.
  intros Hs. unfold spec_limit, spec_skip.
  destruct (to_number (skip opts)) as [n|], (to_number (limit opts)) as [m|];
    repeat match goal with |- context [if ?b then _ else _] => destruct b end;
    auto using Sorted_take, Sorted_drop.
Qed.

(** With a sort specification of one key, under which every stored document
    holds a number, the results of [find] are in ascending order of that
    number for a positive direction and in descending order for a negative
    one, also after [skip] and [limit]. *)
Theorem find_sorts_by_number (w : world) (query d : value) (r : ref) (k : string)
    (opts : options) (results : list loc) :
  sort opts = VObj r [(k, d)] ->
  forallb (numeric_at (objects w) k) (_content (this w)) = true ->
  fst (find query VUndefined opts w) = Resolved results ->
  let keys := map (fun el => to_integer (field (objects w) k el)) results in
  (gt d (VNum 0) = true -> Sorted Z.le keys)
  /\ (lt d (VNum 0) = true -> Sorted Z.ge keys).
Proof.
  intros Hsort Hnum Hfind keys.
  destruct (find query VUndefined opts w) as [p w1] eqn:Hf. cbn in Hfind. subst p.
  destruct (find_unprojected _ _ _ _ _ Hf)
    as (-> & _ & filtered & sorted & Hfil & Hs & _ & _ & ->).
  assert (Hin : forall x, x ∈ filtered -> numeric_at (objects w) k x = true).
  { intros x Hx. rewrite forallb_forall in Hnum. apply Hnum.
    apply list_elem_of_In.
    rewrite (filter_m_spec _ _ _ Hfil) in Hx.
    apply list_elem_of_In, filter_In in Hx. apply list_elem_of_In, Hx. }
  unfold spec_sort, sort_keys in Hs. rewrite Hsort in Hs. cbn [obj_keys map fst] in Hs.
  split; intros Hd; apply Sorted_map_key, Sorted_skip_limit;
    refine (sort_m_sorted _ _ _ _ _ Hs); intros x y Hx Hy;
    rewrite (comparator_on_numbers _ _ _ _ _ _ (Hin x Hx) (Hin y Hy));
    eexists; (split; [reflexivity|]); rewrite Hd;
    [rewrite (gt_lt_exclusive _ _ Hd)|
     assert (gt d (VNum 0) = false) as ->
       by (unfold gt, lt in *; by destruct (compare d (VNum 0)) as [[]|])];
    destruct (Z.compare_spec (to_integer (field (objects w) k x))
                             (to_integer (field (objects w) k y)));
    split; lia.
Qed.

Lemma find_sorts_by_number_witness :
  Sorted Z.ge
    (map (fun el => to_integer (field (objects four_docs) "num" el)) [3; 2; 1; 0]%nat).
Proof.
  apply (find_sorts_by_number four_docs query_all (VNum (-1)) 102%nat "num"
           (only "sort" (VObj 102 [("num", VNum (-1))])) [3; 2; 1; 0]%nat
           eq_refl); [vm_compute; reflexivity .. | reflexivity].
Defined.


(* ===================================================================== *)
(** * [insert]: identifiers, rejection, notification *)
(* ===================================================================== *)

Lemma insert_check_fresh (w : world) (badId : value) (x : loc) :
  strict_eq (id_of (objects w) x) VUndefined = true ->
  insert_check (w, badId) x
  = ({| objects := <[x := obj_set "_id" (VStr (pretty (_lastId (this w))))
                            (deref (objects w) x)]> (objects w);
        this := set_lastId (S (_lastId (this w))) (this w);
        timers := timers w; next_timer := next_timer w |}, badId).
Proof. intros H. unfold insert_check. by rewrite H. Qed.

Lemma insert_loop_fresh (data : list loc) (w : world) (badId : value) :
  NoDup data ->
  (forall l, l ∈ data -> (l < List.length (objects w))%nat) ->
  (forall l, l ∈ data -> strict_eq (id_of (objects w) l) VUndefined = true) ->
  exists h',
    foldl insert_check (w, badId) data
    = ({| objects := h';
          this := set_lastId (_lastId (this w) + List.length data)%nat (this w);
          timers := timers w; next_timer := next_timer w |}, badId)
    /\ List.length h' = List.length (objects w)
    /\ (forall (i : nat) l, data !! i = Some l ->
          deref h' l = obj_set "_id" (VStr (pretty (_lastId (this w) + i)%nat))
                         (deref (objects w) l))
    /\ (forall l, l ∉ data -> deref h' l = deref (objects w) l).
Proof.
  revert w. induction data as [|x data IH]; intros w Hnd Hal Hid.
  - exists (objects w). cbn. rewrite Nat.add_0_r.
    destruct w as [h c ts nt]; destruct c; cbn. repeat split; try done.
  - apply NoDup_cons in Hnd as [Hx Hnd].
    cbn [foldl]. rewrite insert_check_fresh by (apply Hid; left).
    set (w1 := {| objects := _; this := _; timers := _; next_timer := _ |}).
    assert (Hlen : List.length (objects w1) = List.length (objects w))
      by (cbn; by rewrite length_insert).
    assert (Hsame : forall l, l <> x -> deref (objects w1) l = deref (objects w) l).
    { intros l Hl. cbn. by apply deref_insert_ne. }
    destruct (IH w1) as (h' & Hf & Hl' & Hin & Hout); [assumption| | |].
    + intros l Hl. rewrite Hlen. apply Hal. by right.
    + intros l Hl. unfold id_of. rewrite Hsame by (intros ->; done).
      apply Hid. by right.
    + exists h'. rewrite Hf. repeat split.
      * cbn. f_equal. f_equal. unfold set_lastId. cbn. f_equal. lia.
      * by rewrite Hl'.
      * intros [|i] l Hi; cbn in Hi.
        -- injection Hi as <-. rewrite Hout by assumption. cbn.
           rewrite Nat.add_0_r. apply deref_insert_eq. apply Hal. left.
        -- rewrite (Hin i l Hi). cbn [_lastId this w1 set_lastId].
           rewrite Nat.add_succ_r. cbn [Nat.add].
           rewrite Hsame; [reflexivity|].
           intros ->. apply Hx. by eapply list_elem_of_lookup_2.
      * intros l Hl. rewrite Hout by (intros ?; apply Hl; by right).
        apply Hsame. intros ->. apply Hl. left.
Qed.

(** A batch of distinct objects that have no [_id] is always accepted: its
    i-th document gets the counter value [_lastId + i] in decimal as its
    [_id], added as its last property, the counter advances by the size of
    the batch, the batch is appended to the store in its order, and no other
    object changes. *)
Theorem insert_assigns_successive_ids (w : world) (data : list loc) :
  NoDup data ->
  batch_allocated data w = true ->
  forallb (fun l => strict_eq (id_of (objects w) l) VUndefined) data = true ->
  let w' := snd (insert (DataArray data) w) in
  fst (insert (DataArray data) w) = Resolved ()
  /\ _lastId (this w') = (_lastId (this w) + List.length data)%nat
  /\ _content (this w') = _content (this w) ++ data
  /\ (forall (i : nat) l, data !! i = Some l ->
        deref (objects w') l
        = obj_set "_id" (VStr (pretty (_lastId (this w) + i)%nat))
            (deref (objects w) l))
  /\ (forall l, l ∉ data -> deref (objects w') l = deref (objects w) l).
Proof.
  intros Hnd Hal Hid.
  unfold batch_allocated in Hal. rewrite forallb_forall in Hal, Hid.
  destruct (insert_loop_fresh data w VNull Hnd) as (h' & Hf & Hlen & Hin & Hout).
  { intros l Hl%list_elem_of_In. apply Nat.ltb_lt. by apply Hal. }
  { intros l Hl%list_elem_of_In. by apply Hid. }
  unfold insert. cbn [batch]. rewrite Hf. cbn [strict_eq negb].
  set (w2 := set_this _ _).
  destruct (notify_frame (map (id_of (objects w2)) data) OpInsert w2)
    as (Ho & Hc & _ & Hi & _).
  cbn [fst snd]. rewrite Ho, Hc, Hi. cbn.
  repeat split; assumption.
Qed.

Lemma insert_assigns_successive_ids_witness :
  let w := new_world "test-collection" [num_doc 1; num_doc 2; num_doc 3; num_doc 4] in
  let w' := snd (insert (DataArray [0; 1; 2; 3]%nat) w) in
  fst (insert (DataArray [0; 1; 2; 3]%nat) w) = Resolved ()
  /\ _lastId (this w') = 4%nat
  /\ deref (objects w') 2%nat = [("num", VNum 3); ("_id", VStr "2")].
Proof.
  intros w w'.
  destruct (insert_assigns_successive_ids w [0; 1; 2; 3]%nat) as (H1 & H2 & _ & H3 & _).
  - by apply (bool_decide_unpack _).
  - reflexivity.
  - reflexivity.
  - split; [exact H1|]. split; [exact H2|]. exact (H3 2%nat 2%nat eq_refl).
Defined.

Lemma this_set_lastId (c : ReactiveCollection) : set_lastId (_lastId c) c = c.
Proof. by destruct c. Qed.

Lemma insert_check_any (w : world) (badId : value) (x : loc) :
  let w' := fst (insert_check (w, badId) x) in
  this w' = set_lastId (_lastId (this w')) (this w)
  /\ (_lastId (this w) <= _lastId (this w') <= S (_lastId (this w)))%nat
  /\ timers w' = timers w
  /\ next_timer w' = next_timer w
  /\ List.length (objects w') = List.length (objects w)
  /\ (forall l, l <> x \/ id_of (objects w) l <> VUndefined ->
        deref (objects w') l = deref (objects w) l).
Proof.
  unfold insert_check.
  destruct (strict_eq (id_of (objects w) x) VUndefined) eqn:Hid.
  - cbn. rewrite length_insert. repeat split; try lia.
    intros l [Hl|Hl].
    + by apply deref_insert_ne.
    + apply deref_insert_ne. intros <-.
      apply Hl. by destruct (id_of (objects w) x).
  - destruct (match findIndex _ _ with Some _ => true | None => false end);
      cbn; rewrite this_set_lastId; repeat split; lia.
Qed.

Lemma insert_loop_any (data : list loc) (w : world) (badId : value) :
  let w' := fst (foldl insert_check (w, badId) data) in
  this w' = set_lastId (_lastId (this w')) (this w)
  /\ (_lastId (this w) <= _lastId (this w')
      <= _lastId (this w) + List.length data)%nat
  /\ timers w' = timers w
  /\ next_timer w' = next_timer w
  /\ List.length (objects w') = List.length (objects w)
  /\ (forall l, l ∉ data \/ id_of (objects w) l <> VUndefined ->
        deref (objects w') l = deref (objects w) l).
Proof.
  revert w badId. induction data as [|x data IH]; intros w badId.
  - cbn. rewrite this_set_lastId. repeat split; lia.
  - cbn [foldl].
    destruct (insert_check (w, badId) x) as [w1 b1] eqn:Hstep.
    pose proof (insert_check_any w badId x) as H1. rewrite Hstep in H1.
    cbn [fst] in H1. destruct H1 as (Ht1 & Hc1 & Htm1 & Hn1 & Hl1 & Ho1).
    destruct (IH w1 b1) as (Ht & Hc & Htm & Hn & Hl & Ho).
    repeat split.
    + rewrite Ht, Ht1. reflexivity.
    + lia.
    + cbn [List.length]. lia.
    + congruence.
    + congruence.
    + congruence.
    + intros l Hcase.
      assert (Hl1' : deref (objects w1) l = deref (objects w) l).
      { apply Ho1. destruct Hcase as [Hcase|Hcase]; [left|by right].
        intros ->. apply Hcase. left. }
      rewrite <- Hl1'. apply Ho.
      destruct Hcase as [Hcase|Hcase].
      * left. intros ?. apply Hcase. by right.
      * right. unfold id_of. by rewrite Hl1'.
Qed.

(** An [insert] that does not resolve leaves the store, the subscriptions,
    the pending Changes and the timeouts as they were.  It may have advanced
    the counter and given an [_id] to documents of the batch that had none:
    only those objects change. *)
Theorem rejected_insert_keeps_store (w : world) (data : data_arg) :
  fst (insert data w) <> Resolved () ->
  let w' := snd (insert data w) in
  this w' = set_lastId (_lastId (this w')) (this w)
  /\ (_lastId (this w) <= _lastId (this w')
      <= _lastId (this w) + List.length (batch data))%nat
  /\ timers w' = timers w
  /\ next_timer w' = next_timer w
  /\ (forall l, l ∉ batch data \/ id_of (objects w) l <> VUndefined ->
        deref (objects w') l = deref (objects w) l).
Proof.
  intros Hrej.
  assert (Hsame : this w = set_lastId (_lastId (this w)) (this w)
                  /\ (_lastId (this w) <= _lastId (this w)
                      <= _lastId (this w) + List.length (batch data))%nat
                  /\ timers w = timers w /\ next_timer w = next_timer w
                  /\ (forall l, l ∉ batch data \/ id_of (objects w) l <> VUndefined ->
                        deref (objects w) l = deref (objects w) l)).
  { rewrite this_set_lastId. repeat split; lia. }
  unfold insert in *.
  destruct data as [x|ls| |]; try exact Hsame.
  - pose proof (insert_loop_any [x] w VNull) as H.
    cbn [batch] in *.
    destruct (foldl insert_check (w, VNull) [x]) as [w1 badId].
    destruct (negb (strict_eq badId VNull)); [|by destruct Hrej].
    cbn [fst snd] in *. destruct H as (? & ? & ? & ? & ? & ?). done.
  - pose proof (insert_loop_any ls w VNull) as H.
    cbn [batch] in *.
    destruct (foldl insert_check (w, VNull) ls) as [w1 badId].
    destruct (negb (strict_eq badId VNull)); [|by destruct Hrej].
    cbn [fst snd] in *. destruct H as (? & ? & ? & ? & ? & ?). done.
Qed.

Lemma rejected_insert_keeps_store_witness :
  let w := set_objects (objects four_docs
                        ++ [[("num", VNum 5)]; [("_id", VStr "0"); ("num", VNum 6)]])
             four_docs in
  let w' := snd (insert (DataArray [4; 5]%nat) w) in
  fst (insert (DataArray [4; 5]%nat) w) <> Resolved ()
  /\ this w' = set_lastId (_lastId (this w')) (this w)
  /\ _lastId (this w') = 5%nat
  /\ deref (objects w') 4%nat = [("num", VNum 5); ("_id", VStr "4")].
Proof.
  intros w w'.
  assert (H : fst (insert (DataArray [4; 5]%nat) w) <> Resolved ())
    by (vm_compute; discriminate).
  destruct (rejected_insert_keeps_store w (DataArray [4; 5]%nat) H) as (Ht & _).
  split; [exact H|]. split; [exact Ht|]. split; vm_compute; reflexivity.
Defined.

Lemma find_first_some {A} (p : A -> bool) (l : list A) (x : A) :
  x ∈ l -> p x = true ->
  exists y, find_first p l = Some y /\ y ∈ l /\ p y = true.
Proof.
  induction l as [|z l IH]; intros Hin Hp; [by apply elem_of_nil in Hin|].
  cbn. destruct (p z) eqn:Hz.
  - exists z. repeat split; [left|assumption].
  - apply elem_of_cons in Hin as [->|Hin]; [congruence|].
    destruct (IH Hin Hp) as (y & ? & ? & ?). exists y. repeat split; try done.
    by right.
Qed.

Lemma insert_resolved (w : world) (data : data_arg) :
  fst (insert data w) = Resolved () ->
  let w1 := fst (foldl insert_check (w, VNull) (batch data)) in
  let w2 := set_this (set_content (_content (this w1) ++ batch data) (this w1)) w1 in
  snd (insert data w)
  = _notifyChangesForIds (map (id_of (objects w2)) (batch data)) OpInsert w2.
Proof.
  unfold insert.
  destruct data as [x|ls| |]; try discriminate; cbn [batch];
    destruct (foldl insert_check _ _) as [w1 badId];
    by destruct (negb (strict_eq badId VNull)).
Qed.

(** A resolved [insert] drops the pending Changes that carry an [_id] of the
    batch and appends one Change per document of the batch, in the order of
    the batch: each names the collection, has operation type [insert], and
    carries a stored document with that [_id]. *)
Theorem insert_notifies_each_document (w : world) (data : data_arg) :
  fst (insert data w) = Resolved () ->
  let w' := snd (insert data w) in
  let ids := map (id_of (objects w')) (batch data) in
  exists appended,
    _changesToNotify (this w')
    = filter (fun c => existsb (strict_eq (ch_id c)) ids = false)
             (_changesToNotify (this w)) ++ appended
    /\ map ch_id appended = ids
    /\ Forall (fun c =>
                 ch_collection c = _name (this w)
                 /\ ch_operationType c = OpInsert
                 /\ exists l, ch_fullDocument c = Some l
                              /\ l ∈ _content (this w')
                              /\ strict_eq (id_of (objects w') l) (ch_id c) = true)
              appended.
Proof.
  intros Hres. cbv zeta. rewrite (insert_resolved w data Hres). cbv zeta.
  destruct (insert_loop_any (batch data) w VNull) as (Ht & _).
  set (w1 := fst (foldl insert_check (w, VNull) (batch data))) in *.
  set (w2 := set_this _ w1).
  destruct (notify_frame (map (id_of (objects w2)) (batch data)) OpInsert w2)
    as (Ho & Hc & _ & _ & _).
  destruct (notify_buffer (map (id_of (objects w2)) (batch data)) OpInsert w2)
    as [Hb Hids].
  rewrite Ho, Hc.
  exists (changes_for (objects w2) (this w2)
            (map (id_of (objects w2)) (batch data)) OpInsert).
  split; [|split].
  - rewrite Hb. f_equal. cbn. by rewrite Ht.
  - exact Hids.
  - unfold changes_for. apply Forall_map, Forall_map, Forall_forall.
    intros x Hx. cbn [ch_collection ch_operationType ch_fullDocument ch_id].
    split; [cbn; by rewrite Ht|]. split; [reflexivity|].
    destruct (find_first_some
                (fun el => strict_eq (id_of (objects w2) el) (id_of (objects w2) x))
                (_content (this w2)) x) as (y & Hy & Hin & Hp).
    + cbn. apply elem_of_app. by right.
    + apply strict_eq_refl.
    + exists y. by rewrite Hy.
Qed.

Lemma insert_notifies_each_document_witness :
  exists appended,
    _changesToNotify (this foo_inserted) = [] ++ appended
    /\ map ch_id appended = [VStr "0"].
Proof.
  destruct (insert_notifies_each_document
              (watched [[("foo", VStr "bar")]; [("bar", VStr "foo")]])
              (DataDoc 0%nat) eq_refl) as (appended & H1 & H2 & _).
  exists appended. split; [exact H1|exact H2].
Defined.


(* ===================================================================== *)
(** * Projection, [findOne] and [updateOne] *)
(* ===================================================================== *)

(** ** Projection *)

Lemma find_project_all_from (projection : value) (keys : list string) (h0 : heap)
    (results : list loc) (extra : heap) (res : list loc) (h' : heap) :
  (forall el, el ∈ results -> (el < List.length h0)%nat) ->
  find_project_all projection keys results (h0 ++ extra) = Ok (res, h') ->
  res = seq (List.length (h0 ++ extra)) (List.length results)
  /\ exists objs,
      h' = h0 ++ extra ++ objs
      /\ Forall2 (fun el o => project_one projection keys (doc_value h0 el) = Ok o)
                 results objs.
Proof.
  revert extra res h'. induction results as [|el results IH]; intros extra res h' Hal.
  - cbn. intros [= <- <-]. split; [reflexivity|].
    exists []. by rewrite app_nil_r.
  - cbn [find_project_all].
    assert (Hel : doc_value (h0 ++ extra) el = doc_value h0 el).
    { unfold doc_value. rewrite deref_app_l; [reflexivity|]. apply Hal. left. }
    rewrite Hel.
    destruct (project_one projection keys (doc_value h0 el)) as [o|] eqn:Ho;
      [|discriminate].
    cbn [mbind result_bind alloc]. rewrite <- app_assoc.
    destruct (find_project_all projection keys results (h0 ++ extra ++ [o]))
      as [[r h1]|] eqn:E; [|discriminate].
    cbn. intros [= <- <-].
    assert (Hal' : forall x, x ∈ results -> (x < List.length h0)%nat).
    { intros x Hx. apply Hal. by right. }
    destruct (IH _ _ _ Hal' E) as (-> & objs & -> & Hall).
    split.
    + rewrite !length_app. cbn. f_equal. f_equal. lia.
    + exists (o :: objs). split; [by rewrite <- app_assoc|].
      by constructor.
Qed.

(** With a projection, [find] resolves to new objects, one per selected
    document and in their order, allocated after every existing object: the
    selection is the one that [find] makes without projection, each new
    object is what the projection makes of its document, and the store and
    the existing objects are untouched. *)
Theorem projection_returns_new_objects (w : world) (query projection : value)
    (opts : options) (results : list loc) :
  truthy projection = true ->
  stored_allocated w = true ->
  fst (find query projection opts w) = Resolved results ->
  let w' := snd (find query projection opts w) in
  exists selected keys objs,
    fst (find query VUndefined opts w) = Resolved selected
    /\ own_keys projection = Ok keys
    /\ Forall2 (fun el o =>
                  project_one projection keys (doc_value (objects w) el) = Ok o)
               selected objs
    /\ objects w' = objects w ++ objs
    /\ results = seq (List.length (objects w)) (List.length selected)
    /\ this w' = this w
    /\ timers w' = timers w.
Proof.
  intros Hp Hal Hres. cbv zeta. unfold find in *. cbv zeta in *.
  set (q := default_query query) in *. clearbody q.
  destruct (negb (typeof_object q) && negb (isArray q)); [discriminate|].
  destruct (find_filter q w) as [filtered|] eqn:Hf; [|discriminate].
  cbn [then_] in *.
  destruct (find_sort opts (objects w) filtered) as [sorted|] eqn:Hs;
    [|discriminate].
  cbn [then_] in *.
  set (selected := find_limit opts (find_skip opts sorted)) in *.
  assert (Hsel : forall el, el ∈ selected -> (el < List.length (objects w))%nat).
  { intros el Hel. apply (stored_allocated_elim _ Hal).
    assert (Hsub : selected ⊆+ _content (this w)).
    { transitivity sorted.
      - unfold selected, find_limit, find_skip, splice.
        destruct (gt (limit opts) (VNum 0)), (gt (skip opts) (VNum 0));
          cbn [fst]; repeat first [reflexivity
            | etransitivity; [apply sublist_submseteq, sublist_take|]
            | etransitivity; [apply sublist_submseteq, sublist_drop|]].
      - rewrite find_sort_spec in Hs.
        destruct (spec_sort_total opts (objects w) filtered) as (s' & Hs' & Hperm & _).
        rewrite Hs in Hs'. injection Hs' as <-. rewrite <- Hperm.
        rewrite (filter_m_spec _ _ _ Hf).
        apply sublist_submseteq, sublist_List_filter. }
    by apply (elem_of_submseteq _ _ _ Hel). }
  unfold find_project in *. rewrite Hp in *. cbn [find_project truthy].
  change (find_project VUndefined selected (objects w)) with (Ok (selected, objects w)).
  destruct (own_keys projection) as [keys|] eqn:Hk; [|discriminate].
  cbn [mbind result_bind] in *.
  destruct (find_project_all projection keys selected (objects w)) as [[res h']|] eqn:E;
    [|discriminate].
  cbn in Hres. injection Hres as ->.
  pose proof (find_project_all_from projection keys (objects w) selected [] results h')
    as Hspec.
  rewrite app_nil_r in Hspec. destruct (Hspec Hsel E) as (-> & objs & -> & Hall).
  exists selected, keys, objs. cbn. by repeat split.
Qed.

Lemma obj_keys_set (k : string) (v : value) (o : obj) :
  NoDup (obj_keys o) -> NoDup (obj_keys (obj_set k v o))
  /\ forall k', k' ∈ obj_keys (obj_set k v o) <-> k' = k \/ k' ∈ obj_keys o.
Proof.
  unfold obj_keys. induction o as [|[k0 v0] o IH]; intros Hnd; cbn.
  - split; [apply NoDup_singleton|]. intros k'. rewrite list_elem_of_singleton.
    split; [by left|]. intros [?|H]; [done|by apply elem_of_nil in H].
  - apply NoDup_cons in Hnd as [Hk0 Hnd]. cbn in Hk0.
    destruct (String.eqb_spec k0 k) as [->|Hne]; cbn.
    + split; [by apply NoDup_cons|]. intros k'. rewrite elem_of_cons. tauto.
    + destruct (IH Hnd) as [Hnd' Hin]. split.
      * apply NoDup_cons. split; [|assumption].
        rewrite Hin. intros [?|?]; [congruence|done].
      * intros k'. rewrite !elem_of_cons, Hin. tauto.
Qed.

Lemma spread_lookup (l base : obj) (k : string) :
  NoDup (obj_keys l) ->
  obj_lookup k (foldl (fun o e => obj_set (fst e) (snd e) o) base l)
  = match obj_lookup k l with
    | Some v => Some v
    | None => obj_lookup k base
    end.
Proof.
  unfold obj_keys. revert base. induction l as [|[k0 v0] l IH]; intros base Hnd;
    [reflexivity|].
  cbn in Hnd. apply NoDup_cons in Hnd as [Hk0 Hnd].
  cbn [foldl fst snd obj_lookup]. rewrite (IH _ Hnd).
  destruct (String.eqb_spec k0 k) as [->|Hne].
  - destruct (obj_lookup k l) as [v|] eqn:Hl.
    + exfalso. apply Hk0. apply (obj_lookup_keys k l). by rewrite Hl.
    + apply obj_lookup_set_eq.
  - by rewrite obj_lookup_set_ne.
Qed.

Lemma reduce_lookup (rp r : ref) (pfs fs : obj) (keys : list string) (k : string) :
  let final :=
    foldl (fun (acc : result obj) current =>
             final ← acc;
             flag ← get_prop (VObj rp pfs) current;
             if truthy flag
             then v ← get_prop (VObj r fs) current; Ok (obj_set current v final)
             else Ok final)
          (Ok []) keys in
  exists o, final = Ok o
            /\ NoDup (obj_keys o)
            /\ obj_lookup k o
               = if bool_decide (k ∈ keys)
                    && truthy (default VUndefined (obj_lookup k pfs))
                 then Some (default VUndefined (obj_lookup k fs))
                 else None.
Proof.
  cbv zeta. induction keys as [|c keys IH] using rev_ind.
  - exists []. repeat split. apply NoDup_nil_2.
  - destruct IH as (o & Ho & Hnd & Hl). rewrite foldl_app. cbn [foldl].
    rewrite Ho. cbn.
    destruct (truthy (default VUndefined (obj_lookup c pfs))) eqn:Ht.
    + eexists. split; [reflexivity|].
      destruct (obj_keys_set c (default VUndefined (obj_lookup c fs)) o Hnd) as [Hnd' _].
      split; [assumption|].
      destruct (decide (k = c)) as [->|Hne].
      * rewrite obj_lookup_set_eq, Ht.
        rewrite bool_decide_eq_true_2; [reflexivity|].
        apply elem_of_app. right. left.
      * rewrite obj_lookup_set_ne by congruence. rewrite Hl.
        by rewrite (bool_decide_ext (k ∈ keys ++ [c]) (k ∈ keys))
          by (rewrite elem_of_app, list_elem_of_singleton; tauto).
    + exists o. split; [reflexivity|]. split; [assumption|]. rewrite Hl.
      destruct (decide (k = c)) as [->|Hne].
      * rewrite Ht, !andb_false_r. reflexivity.
      * by rewrite (bool_decide_ext (k ∈ keys ++ [c]) (k ∈ keys))
          by (rewrite elem_of_app, list_elem_of_singleton; tauto).
Qed.

(** What a projection object makes of a document, for a key that is no
    member of [Object.prototype]: a key that the projection flags with a
    truthy value is copied, with the value [undefined] when the document
    lacks it; a key flagged with a falsy value is left out; [_id] is copied
    unless the projection flags it with a falsy value; any other key is left
    out. *)
Theorem projection_selects_flagged_fields (rp r : ref) (pfs fs : obj) (k : string) :
  inherited_name k = false ->
  exists o,
    project_one (VObj rp pfs) (obj_keys pfs) (VObj r fs) = Ok o
    /\ obj_lookup k o
       = match obj_lookup k pfs with
         | Some flag =>
             if truthy flag then Some (default VUndefined (obj_lookup k fs))
             else None
         | None =>
             if String.eqb k "_id"
             then Some (default VUndefined (obj_lookup "_id" fs))
             else None
         end.
Proof.
  intros _. unfold project_one.
  destruct (reduce_lookup rp r pfs fs (obj_keys pfs) k) as (final & Hf & Hnd & Hl).
  cbv zeta in Hf. rewrite Hf. cbn [get_prop has_own mbind result_bind].
  assert (Hret : obj_lookup k
            (foldl (fun o e => obj_set (fst e) (snd e) o)
                   [("_id", default VUndefined (obj_lookup "_id" fs))] final)
          = match obj_lookup k pfs with
            | Some flag =>
                if truthy flag then Some (default VUndefined (obj_lookup k fs))
                else if String.eqb k "_id"
                     then Some (default VUndefined (obj_lookup "_id" fs))
                     else None
            | None =>
                if String.eqb k "_id"
                then Some (default VUndefined (obj_lookup "_id" fs))
                else None
            end).
  { rewrite (spread_lookup _ _ _ Hnd), Hl. cbn [obj_lookup].
    rewrite (String.eqb_sym "_id" k).
    destruct (obj_lookup k pfs) as [flag|] eqn:Hp; cbn [default].
    - rewrite bool_decide_eq_true_2
        by (apply (obj_lookup_keys k pfs); by rewrite Hp).
      cbn. by destruct (truthy flag).
    - cbn [truthy]. by rewrite andb_false_r. }
  unfold obj_has.
  destruct (obj_lookup "_id" pfs) as [idflag|] eqn:Hid; cbn [andb].
  - change (default VUndefined (Some idflag)) with idflag.
    destruct (truthy idflag) eqn:Ht; cbn [negb];
      (eexists; split; [reflexivity|]);
      destruct (String.eqb_spec k "_id") as [->|Hne].
    + by rewrite Hret, Hid, Ht.
    + rewrite Hret. destruct (obj_lookup k pfs) as [flag|]; [|reflexivity].
      by destruct (truthy flag).
    + by rewrite obj_lookup_delete_eq, Hid, Ht.
    + rewrite obj_lookup_delete_ne by congruence. rewrite Hret.
      destruct (obj_lookup k pfs) as [flag|]; [|reflexivity].
      by destruct (truthy flag).
  - eexists. split; [reflexivity|]. rewrite Hret.
    destruct (String.eqb_spec k "_id") as [->|Hne]; [by rewrite Hid|].
    destruct (obj_lookup k pfs) as [flag|]; [|reflexivity].
    by destruct (truthy flag).
Qed.

Lemma projection_selects_flagged_fields_witness :
  exists o,
    project_one (VObj 101 [("num", VNum 1); ("foo", VNum 1); ("_id", VNum 0)])
      ["num"; "foo"; "_id"] (VObj 2 [("num", VNum 3); ("_id", VStr "2")]) = Ok o
    /\ obj_lookup "foo" o = Some VUndefined.
Proof.
  exact (projection_selects_flagged_fields 101%nat 2%nat
           [("num", VNum 1); ("foo", VNum 1); ("_id", VNum 0)]
           [("num", VNum 3); ("_id", VStr "2")] "foo" eq_refl).
Defined.

Lemma projection_returns_new_objects_witness :
  let r := find query_all (VObj 101 [("num", VNum 1); ("_id", VNum 0)]) no_options
             four_docs in
  fst r = Resolved [4; 5; 6; 7]%nat
  /\ this (snd r) = this four_docs
  /\ exists objs, objects (snd r) = objects four_docs ++ objs.
Proof.
  intros r.
  destruct (projection_returns_new_objects four_docs query_all
              (VObj 101 [("num", VNum 1); ("_id", VNum 0)]) no_options
              [4; 5; 6; 7]%nat eq_refl eq_refl eq_refl)
    as (selected & keys & objs & _ & _ & _ & Ho & _ & Ht & _).
  split; [reflexivity|]. split; [exact Ht|]. exists objs. exact Ho.
Defined.


(** ** [findOne] *)

(** [findOne] resolves to the first of the documents that [find] resolves
    to when no limit is given, [undefined] when there is none; a limit of
    the caller is ignored. *)
Theorem findOne_is_head_of_find (w : world) (query : value) (opts : options)
    (results : list loc) :
  fst (find query VUndefined (with_limit VUndefined opts) w) = Resolved results ->
  findOne query VUndefined opts w = (Resolved (head results), w)
  /\ forall n, findOne query VUndefined (with_limit n opts) w
               = findOne query VUndefined opts w.
Proof.
  intros Hfind. split; [|reflexivity].
  destruct (find query VUndefined (with_limit VUndefined opts) w) as [p w1] eqn:Hf.
  cbn in Hfind. subst p.
  destruct (find_unprojected _ _ _ _ _ Hf)
    as (-> & Hq & filtered & sorted & Hfil & Hs & _ & _ & ->).
  destruct (find_unprojected_pipeline w (default_query query)
              (with_limit (VNum 1) opts) filtered Hq Hfil)
    as (sorted' & Hs' & _ & _ & Hone).
  change (spec_sort (with_limit (VNum 1) opts) (objects w) filtered)
    with (spec_sort (with_limit VUndefined opts) (objects w) filtered) in Hs'.
  rewrite Hs in Hs'. injection Hs' as <-.
  unfold findOne. rewrite find_default_query, Hone. cbn [then_]. f_equal. f_equal.
  change (spec_skip (with_limit (VNum 1) opts) sorted) with (spec_skip opts sorted).
  change (spec_skip (with_limit VUndefined opts) sorted) with (spec_skip opts sorted).
  by destruct (spec_skip opts sorted).
Qed.

Lemma findOne_is_head_of_find_witness :
  findOne query_all VUndefined (only "sort" (VObj 102 [("num", VNum (-1))])) four_docs
  = (Resolved (Some 3%nat), four_docs).
Proof.
  assert (H : fst (find query_all VUndefined
                     (with_limit VUndefined (only "sort" (VObj 102 [("num", VNum (-1))])))
                     four_docs) = Resolved [3; 2; 1; 0]%nat)
    by (vm_compute; reflexivity).
  exact (proj1 (findOne_is_head_of_find four_docs query_all
                  (only "sort" (VObj 102 [("num", VNum (-1))])) [3; 2; 1; 0]%nat H)).
Defined.

(** ** [updateOne], and an [update] that fails *)

Section UpdateMore.

Variable modify : value -> value -> result obj.

(** [updateOne] without options changes the first stored document that
    matches and nothing else, when [modify] returns on it: that document
    gets the properties of [modify(doc, patch)] and keeps its [_id]. *)
Theorem updateOne_changes_first_match_only (w : world) (query replace : value)
    (l : loc) (rest : list loc) (modified : obj) :
  typeof_object replace = true ->
  typeof_object query = true ->
  find_filter query w = Ok (l :: rest) ->
  (l < List.length (objects w))%nat ->
  modify (doc_value (objects w) l) replace = Ok modified ->
  let w' := snd (updateOne modify query replace no_options w) in
  fst (updateOne modify query replace no_options w) = Resolved ()
  /\ _content (this w') = _content (this w)
  /\ deref (objects w') l = replace_content (deref (objects w) l) modified
  /\ (forall l', l' <> l -> deref (objects w') l' = deref (objects w) l').
Proof.
  intros Hr Hq Hf Hl Hm.
  pose proof (remove_justOne_selection w query l rest Hq Hf) as Hfind.
  unfold updateOne.
  set (h' := <[l := replace_content (deref (objects w) l) modified]> (objects w)).
  assert (Hloop : foldl (update_one modify replace) (objects w, None) [l]
                  = (h', None)).
  { cbn [foldl update_one]. by rewrite Hm. }
  rewrite (update_matched modify w query replace _ [l] h' Hr Hfind) by done.
  destruct (notify_frame (map (id_of h') [l]) OpUpdate (set_objects h' w))
    as (Ho & Hc & _).
  cbv zeta. cbn [fst snd]. rewrite Ho, Hc. cbn [objects set_objects _content this].
  unfold h'. repeat split.
  - by apply deref_insert_eq.
  - intros l' Hne. by apply deref_insert_ne.
Qed.

(** An [update] that does not resolve leaves the fields of the collection
    and the timeouts as they were, and sends no notification.  The existing
    objects are as they were too, unless [modify] raised on a matched
    document: then the documents matched before that one have been patched.
    A patch that is not an object rejects; a query that is neither an object
    nor [undefined] leaves the promise pending. *)
Theorem unresolved_update_keeps_collection (w : world) (query replace : value)
    (opts : options) :
  fst (update modify query replace opts w) <> Resolved () ->
  let w' := snd (update modify query replace opts w) in
  this w' = this w
  /\ timers w' = timers w
  /\ next_timer w' = next_timer w
  /\ ((exists added, objects w' = objects w ++ added)
      \/ exists results done l rest e,
          fst (find query VUndefined opts w) = Resolved results
          /\ results = done ++ l :: rest
          /\ foldl (update_one modify replace) (objects w, None) done
             = (objects w', None)
          /\ modify (doc_value (objects w') l) replace = Throw e)
  /\ (typeof_object replace = false ->
      update modify query replace opts w
      = (Rejected (Error "query must be an object"), w))
  /\ (typeof_object replace = true ->
      typeof_object (default_query query) = false ->
      update modify query replace opts w = (Pending, w)).
Proof.
  intros Hfail. cbv zeta.
  assert (Hsame : this w = this w /\ timers w = timers w
                  /\ next_timer w = next_timer w
                  /\ ((exists added, objects w = objects w ++ added)
                      \/ exists results done l rest e,
                          fst (find query VUndefined opts w) = Resolved results
                          /\ results = done ++ l :: rest
                          /\ foldl (update_one modify replace) (objects w, None) done
                             = (objects w, None)
                          /\ modify (doc_value (objects w) l) replace = Throw e)).
  { repeat split. left. exists []. by rewrite app_nil_r. }
  assert (Hfirst :
    (this (snd (update modify query replace opts w)) = this w
     /\ timers (snd (update modify query replace opts w)) = timers w
     /\ next_timer (snd (update modify query replace opts w)) = next_timer w
     /\ ((exists added, objects (snd (update modify query replace opts w))
                        = objects w ++ added)
         \/ exists results done l rest e,
             fst (find query VUndefined opts w) = Resolved results
             /\ results = done ++ l :: rest
             /\ foldl (update_one modify replace) (objects w, None) done
                = (objects (snd (update modify query replace opts w)), None)
             /\ modify (doc_value (objects (snd (update modify query replace opts w))) l)
                  replace = Throw e))).
  { unfold update in *.
    destruct (negb (typeof_object replace) && negb (isArray replace));
      [exact Hsame|].
    rewrite (surjective_pairing (find query VUndefined opts w)) in *.
    rewrite find_unprojected_world in *.
    destruct (fst (find query VUndefined opts w)) as [results| | |] eqn:Hfind;
      try exact Hsame.
    destruct (List.length results =? 0)%nat.
    - destruct (truthy (upsert opts)); [|by destruct Hfail].
      destruct (modify query replace) as [doc|]; [|exact Hsame].
      unfold alloc, insertOne, insert in *. cbv beta iota zeta in *.
      cbn [batch foldl] in *. unfold insert_check in *.
      cbn [objects set_objects this _content] in *.
      set (l := List.length (objects w)) in *.
      set (h := objects w ++ [doc]) in *.
      destruct (strict_eq (id_of h l) VUndefined).
      + by destruct Hfail.
      + destruct (match findIndex _ _ with Some _ => true | None => false end).
        * destruct (negb (strict_eq (id_of h l) VNull));
            [|by destruct Hfail].
          cbn. repeat split. left. by eexists.
        * by destruct Hfail.
    - destruct (foldl (update_one modify replace) (objects w, None) results)
        as [h [e|]] eqn:Hloop; [|by destruct Hfail].
      cbn [snd objects set_objects this timers next_timer].
      repeat split. right.
      destruct (update_loop_stops modify replace results (objects w) h e Hloop)
        as (done & l & rest & Hres & Hdone & Hl).
      by exists results, done, l, rest, e. }
  destruct Hfirst as (H1 & H2 & H3 & H4).
  repeat split; try assumption.
  - intros Hr. unfold update. rewrite Hr.
    assert (isArray replace = false) as -> by (by destruct replace).
    reflexivity.
  - intros Hr Hq. unfold update, find. cbv zeta. rewrite Hr, Hq.
    assert (isArray (default_query query) = false) as ->
      by (by destruct query).
    reflexivity.
Qed.

End UpdateMore.

Lemma updateOne_changes_first_match_only_witness :
  let query := VObj 100 [("num", VObj 101 [("$gte", VNum 3)])] in
  let replace := VObj 102 [("updated", VBool true)] in
  let w' := snd (updateOne modify_replacement query replace no_options four_docs) in
  deref (objects w') 2%nat = [("_id", VStr "2"); ("updated", VBool true)]
  /\ deref (objects w') 3%nat = deref (objects four_docs) 3%nat.
Proof.
  intros query replace w'.
  destruct (updateOne_changes_first_match_only modify_replacement four_docs query
              replace 2%nat [3%nat] [("updated", VBool true)] eq_refl eq_refl eq_refl)
    as (_ & _ & H1 & H2).
  - vm_compute. lia.
  - reflexivity.
  - split; [exact H1|]. by apply H2.
Defined.

Lemma unresolved_update_keeps_collection_witness :
  let r := update modify_replacement query_all VNull no_options four_docs in
  fst r = Pending /\ this (snd r) = this four_docs /\ timers (snd r) = timers four_docs.
Proof.
  intros r.
  assert (H : fst r <> Resolved ()) by (vm_compute; discriminate).
  destruct (unresolved_update_keeps_collection modify_replacement four_docs query_all
              VNull no_options H) as (Ht & Htm & _).
  split; [vm_compute; reflexivity|]. split; [exact Ht|exact Htm].
Defined.



(* ===================================================================== *)
(** * [remove] without [justOne] *)
(* ===================================================================== *)

Lemma distinct_ids_middle (l1 l2 : list value) (x : value) :
  distinct_ids (l1 ++ x :: l2) = true ->
  distinct_ids (l1 ++ l2) = true
  /\ (forall y, y ∈ l1 ++ l2 -> strict_eq y x = false).
Proof.
  rewrite !distinct_ids_app. cbn [distinct_ids].
  rewrite !andb_true_iff, !forallb_forall.
  intros [[H1 [Hx H2]] H12].
  apply negb_true_iff in Hx.
  split.
  - repeat split; try assumption.
    intros y Hy. specialize (H12 y Hy). cbn in H12.
    apply negb_true_iff in H12. apply orb_false_iff in H12 as [_ H12].
    by apply negb_true_iff.
  - intros y [Hy|Hy]%elem_of_app.
    + apply list_elem_of_In in Hy. specialize (H12 y Hy). cbn in H12.
      apply negb_true_iff in H12. by apply orb_false_iff in H12 as [H12 _].
    + rewrite strict_eq_sym.
      destruct (strict_eq x y) eqn:E; [|reflexivity].
      assert (existsb (strict_eq x) l2 = true); [|congruence].
      apply existsb_exists. exists y. split; [by apply list_elem_of_In|assumption].
Qed.

Lemma remove_loop_exact (h : heap) (p : loc -> bool) (todo kept : list loc)
    (w : world) (ids : list value) :
  objects w = h ->
  _content (this w) = kept ++ todo ->
  distinct_ids (map (id_of h) (kept ++ todo)) = true ->
  foldl remove_one (w, ids) (List.filter p todo)
  = (set_this (set_content (kept ++ List.filter (fun el => negb (p el)) todo)
                 (this w)) w,
     ids ++ map (id_of h) (List.filter p todo)).
Proof.
  revert kept w ids. induction todo as [|x todo IH]; intros kept w ids Ho Hc Hd.
  - cbn. rewrite !app_nil_r. rewrite app_nil_r in Hc. rewrite <- Hc.
    destruct w as [h0 c ts nt]; destruct c; reflexivity.
  - cbn [List.filter]. destruct (p x) eqn:Hp; cbn [negb].
    + cbn [foldl map]. unfold remove_one at 2. rewrite Ho, Hc.
      rewrite map_app in Hd. cbn [map] in Hd.
      destruct (distinct_ids_middle _ _ _ Hd) as [Hd' Hne].
      rewrite (findIndex_first _ kept todo x).
      * rewrite splice_one.
        rewrite (IH kept); cbn [objects this set_this _content set_content].
        -- rewrite <- app_assoc. reflexivity.
        -- assumption.
        -- reflexivity.
        -- by rewrite map_app.
      * intros y Hy. apply Hne. apply elem_of_app. left.
        by apply list_elem_of_fmap_2.
      * apply strict_eq_refl.
    + rewrite (IH (kept ++ [x])).
      * by rewrite <- app_assoc.
      * assumption.
      * by rewrite <- app_assoc.
      * by rewrite <- app_assoc.
Qed.

Lemma distinct_ids_pair {A} (f : A -> value) (l : list A) (x y : A) :
  distinct_ids (map f l) = true ->
  x ∈ l -> y ∈ l -> x <> y -> strict_eq (f y) (f x) = false.
Proof.
  induction l as [|z l IH]; intros Hd Hx Hy Hne; [by apply elem_of_nil in Hx|].
  cbn in Hd. apply andb_true_iff in Hd as [Hz Hd]. apply negb_true_iff in Hz.
  assert (Hz' : forall u, u ∈ l -> strict_eq (f z) (f u) = false).
  { intros u Hu. destruct (strict_eq (f z) (f u)) eqn:E; [|reflexivity].
    assert (existsb (strict_eq (f z)) (map f l) = true); [|congruence].
    apply existsb_exists. exists (f u). split; [|assumption].
    by apply in_map, list_elem_of_In. }
  apply elem_of_cons in Hx as [->|Hx], Hy as [->|Hy].
  - done.
  - rewrite strict_eq_sym. by apply Hz'.
  - by apply Hz'.
  - by apply IH.
Qed.

Lemma find_first_none {A} (p : A -> bool) (l : list A) :
  (forall y, y ∈ l -> p y = false) -> find_first p l = None.
Proof.
  induction l as [|x l IH]; intros H; [reflexivity|].
  cbn. rewrite (H x) by left. apply IH. intros y Hy. apply H. by right.
Qed.

Lemma filter_m_rejects {A} (p : A -> result bool) (l r : list A) :
  filter_m p l = Ok r ->
  filter_m p (List.filter (fun x => negb (match p x with
                                          | Ok true => true
                                          | _ => false
                                          end)) l) = Ok [].
Proof.
  revert r. induction l as [|x l IH]; intros r; [reflexivity|].
  cbn [filter_m List.filter].
  destruct (p x) as [[]|] eqn:Hp; [| |discriminate];
    (destruct (filter_m p l) as [r'|] eqn:Hl; [|discriminate]); intros _; cbn [negb].
  - by apply (IH r').
  - cbn [filter_m]. by rewrite Hp, (IH r').
Qed.

(** When the stored documents have distinct [_id]s, [remove] without
    [justOne] takes out of the store exactly the documents that match and
    keeps the others in their order; the same query then finds nothing, and
    one Change of type [remove], without document, is pending for each
    removed [_id]. *)
Theorem remove_removes_exactly_the_matches (w : world) (query : value)
    (opts : options) (filtered : list loc) :
  truthy (justOne opts) = false ->
  typeof_object query = true ->
  find_filter query w = Ok filtered ->
  distinct_ids (map (id_of (objects w)) (_content (this w))) = true ->
  let w' := snd (remove query opts w) in
  let ids := map (id_of (objects w)) filtered in
  fst (remove query opts w) = Resolved ()
  /\ objects w' = objects w
  /\ _content (this w')
     = List.filter (fun el => negb (matches_stored query w el)) (_content (this w))
  /\ find query VUndefined no_options w' = (Resolved [], w')
  /\ _changesToNotify (this w')
     = filter (fun c => existsb (strict_eq (ch_id c)) ids = false)
              (_changesToNotify (this w))
       ++ map (change_without_document (_name (this w)) OpRemove) ids.
Proof.
  intros Hj Hq Hf Hd. cbv zeta.
  pose proof (filter_m_spec _ _ _ Hf) as Hfil.
  unfold remove. rewrite Hj, (find_no_options w query filtered Hq Hf).
  pose proof (remove_loop_exact (objects w) (matches_stored query w)
                (_content (this w)) [] w [] eq_refl eq_refl Hd) as Hloop.
  change (List.filter (matches_stored query w) (_content (this w)))
    with (List.filter (fun el =>
            match _elementIsValidForQuery (doc_value (objects w) el) query with
            | Ok true => true
            | _ => false
            end) (_content (this w))) in Hloop.
  rewrite <- Hfil in Hloop. rewrite Hloop. cbn [app].
  set (content' := List.filter (fun el => negb (matches_stored query w el))
                     (_content (this w))).
  set (w2 := set_this (set_content content' (this w)) w).
  set (ids := map (id_of (objects w)) filtered).
  destruct (notify_frame ids OpRemove w2) as (Ho & Hc & _).
  destruct (notify_buffer ids OpRemove w2) as [Hb _].
  cbn [fst snd]. rewrite Ho, Hc, Hb.
  split; [reflexivity|]. split; [reflexivity|]. split; [reflexivity|]. split.
  - apply find_no_options; [assumption|].
    unfold find_filter. rewrite Ho, Hc.
    exact (filter_m_rejects _ _ _ Hf).
  - f_equal. unfold changes_for, ids. rewrite !map_map.
    apply map_ext_in. intros x Hx%list_elem_of_In.
    unfold change_without_document. f_equal.
    apply find_first_none. intros y Hy.
    cbn [_content this w2 set_this set_content] in Hy.
    unfold content' in Hy. apply list_elem_of_In, filter_In in Hy as [Hy Hny].
    rewrite Hfil in Hx. apply list_elem_of_In, filter_In in Hx as [Hx Hpx].
    apply (distinct_ids_pair (id_of (objects w)) (_content (this w)) x y Hd).
    + by apply list_elem_of_In.
    + by apply list_elem_of_In.
    + intros ->. unfold matches_stored in Hny. rewrite Hpx in Hny. discriminate.
Qed.

Lemma remove_removes_exactly_the_matches_witness :
  let query := VObj 100 [("num", VObj 101 [("$gte", VNum 3)])] in
  let w' := snd (remove query no_options four_docs) in
  _content (this w') = [0; 1]%nat
  /\ find query VUndefined no_options w' = (Resolved [], w')
  /\ _changesToNotify (this w')
     = [change "0" OpInsert (Some 0%nat); change "1" OpInsert (Some 1%nat);
        change "2" OpRemove None; change "3" OpRemove None].
Proof.
  intros query w'.
  destruct (remove_removes_exactly_the_matches four_docs query no_options [2; 3]%nat
              eq_refl eq_refl eq_refl eq_refl) as (_ & _ & H1 & H2 & H3).
  split; [exact H1|]. split; [exact H2|exact H3].
Defined.


(* ===================================================================== *)
(** * Subscriptions and the debounced flush *)
(* ===================================================================== *)

Lemma map_has_false {V} (k : value) (m : list (value * V)) :
  map_has k m = false -> forall e, e ∈ m -> strict_eq (fst e) k = false.
Proof.
  unfold map_has. induction m as [|e' m IH]; intros H e He;
    [by apply elem_of_nil in He|].
  cbn in H. apply orb_false_iff in H as [H1 H2].
  apply elem_of_cons in He as [->|He]; [assumption|by apply IH].
Qed.

Lemma map_delete_new {V} (k : value) (v : V) (m : list (value * V)) :
  map_has k m = false -> map_delete k (m ++ [(k, v)]) = m.
Proof.
  intros H. unfold map_delete. rewrite filter_app.
  rewrite filter_cons_False by (cbn; by rewrite strict_eq_refl).
  rewrite filter_nil, app_nil_r.
  pose proof (map_has_false k m H) as Hall. clear H.
  induction m as [|e m IH]; [reflexivity|].
  rewrite filter_cons_True by (apply Hall; left).
  f_equal. apply IH. intros e' He'. apply Hall. by right.
Qed.

Lemma map_has_set {V} (k : value) (v : V) (m : list (value * V)) :
  map_has k (map_set k v m) = true.
Proof.
  unfold map_has. induction m as [|[k' v'] m IH]; cbn.
  - by rewrite strict_eq_refl.
  - destruct (strict_eq k' k) eqn:E; cbn; rewrite E; [reflexivity|exact IH].
Qed.

(** For a watcher that is not subscribed, [unsubscribe] throws and changes
    nothing, and [subscribe] followed by [unsubscribe] gives the state back
    as it was. *)
Theorem subscribe_unsubscribe_round_trip (watcher : value) (cb : callback)
    (w : world) :
  truthy watcher = true ->
  map_has watcher (_watchers (this w)) = false ->
  unsubscribe watcher w = (Throw (Error "No watcher has been specified"), w)
  /\ fst (subscribe watcher (Some cb) w) = Ok ()
  /\ unsubscribe watcher (snd (subscribe watcher (Some cb) w)) = (Ok (), w).
Proof.
  intros Ht Hnew. split; [|split].
  - unfold unsubscribe. by rewrite Hnew.
  - unfold subscribe. by rewrite Ht.
  - unfold subscribe. rewrite Ht. cbn [snd]. unfold unsubscribe.
    cbn [this set_this _watchers set_watchers].
    rewrite map_has_set, (map_set_new _ _ _ Hnew), (map_delete_new _ _ _ Hnew).
    f_equal. destruct w as [h c ts nt]. destruct c. reflexivity.
Qed.

Lemma subscribe_unsubscribe_round_trip_witness :
  unsubscribe (VObj 51 []) (snd (subscribe (VObj 51 []) (Some 8%nat) foo_inserted))
  = (Ok (), foo_inserted).
Proof.
  apply (subscribe_unsubscribe_round_trip (VObj 51 []) 8%nat foo_inserted);
    reflexivity.
Defined.

Lemma fire_unfold (t : timer) (w : world) :
  t ∈ timers w ->
  fire t w
  = Some (map (fun e => {| to_watcher := fst e; to_callback := snd e;
                           payload := _changesToNotify (this w) |})
              (_watchers (this w)),
          set_this (set_changesToNotify [] (this w)) (clearTimeout t w)).
Proof. intros Hin. unfold fire. by rewrite bool_decide_eq_true_2. Qed.

(** After [unsubscribe] the firing of a timeout calls the remaining
    subscribers as it would have, and the unsubscribed watcher no more. *)
Theorem unsubscribe_stops_deliveries (watcher : value) (t : timer) (w : world) :
  fst (unsubscribe watcher w) = Ok () ->
  (fst <$> fire t (snd (unsubscribe watcher w)))
  = (List.filter (fun d => negb (strict_eq (to_watcher d) watcher))
     <$> (fst <$> fire t w)).
Proof.
  unfold unsubscribe.
  destruct (map_has watcher (_watchers (this w))); [intros _|discriminate].
  cbn [snd]. unfold fire. cbn [timers set_this].
  destruct (bool_decide (t ∈ timers w)); [|reflexivity].
  cbn. f_equal. unfold map_delete.
  induction (_watchers (this w)) as [|e m IH]; [reflexivity|].
  cbn [map List.filter to_watcher].
  destruct (strict_eq (fst e) watcher) eqn:E.
  - rewrite filter_cons_False by (rewrite E; done). exact IH.
  - rewrite filter_cons_True by assumption. cbn. by rewrite IH.
Qed.

Lemma unsubscribe_stops_deliveries_witness :
  (fst <$> fire 1%nat (snd (unsubscribe (VObj 50 []) foo_inserted))) = Some [].
Proof.
  exact (unsubscribe_stops_deliveries (VObj 50 []) 1%nat foo_inserted eq_refl).
Defined.

(** Two notifications before the timeout fires are delivered together: the
    first timeout is cleared and never fires, exactly one timeout is armed,
    and its firing calls every subscriber once with all the pending Changes,
    empties the buffer and cannot be repeated. *)
Theorem notifications_are_debounced (ids1 ids2 : list value)
    (op1 op2 : operationType) (w : world) :
  timers_ok w = true ->
  let w1 := _notifyChangesForIds ids1 op1 w in
  let w2 := _notifyChangesForIds ids2 op2 w1 in
  let t1 := next_timer w in
  let t2 := S (next_timer w) in
  timers w1 = [t1]
  /\ timers w2 = [t2]
  /\ fire t1 w2 = None
  /\ exists w3,
      fire t2 w2
      = Some (map (fun e => {| to_watcher := fst e; to_callback := snd e;
                               payload := _changesToNotify (this w2) |})
                  (_watchers (this w)), w3)
      /\ _changesToNotify (this w3) = []
      /\ timers w3 = []
      /\ fire t2 w3 = None
      /\ _content (this w3) = _content (this w)
      /\ objects w3 = objects w.
Proof.
  intros Hok w1 w2 t1 t2.
  destruct (notify_timer ids1 op1 w) as (Hh1 & Ht1 & Hn1).
  destruct (notify_timer ids2 op2 w1) as (Hh2 & Ht2 & Hn2).
  fold w1 in Hh1, Ht1, Hn1. fold w2 in Hh2, Ht2, Hn2.
  destruct (notify_frame ids1 op1 w) as (Ho1 & Hc1 & Hw1 & _).
  destruct (notify_frame ids2 op2 w1) as (Ho2 & Hc2 & Hw2 & _).
  fold w1 in Ho1, Hc1, Hw1. fold w2 in Ho2, Hc2, Hw2.
  assert (Hts1 : timers w1 = [t1]).
  { rewrite Ht1. unfold timers_ok in Hok.
    destruct (timers w) as [|t [|t' ts]]; [| |discriminate].
    - by destruct (_notifyTimeout (this w)).
    - destruct (_notifyTimeout (this w)) as [t0|]; [|discriminate].
      apply Nat.eqb_eq in Hok as ->.
      by rewrite filter_cons_False by (intros H; by apply H). }
  assert (Hts2 : timers w2 = [t2]).
  { rewrite Ht2, Hh1, Hts1, Hn1.
    by rewrite filter_cons_False by (intros H; by apply H). }
  split; [exact Hts1|]. split; [exact Hts2|]. split.
  - unfold fire. rewrite Hts2, bool_decide_eq_false_2; [reflexivity|].
    intros Hin%list_elem_of_singleton. unfold t1, t2 in Hin. lia.
  - eexists. split; [|split; [|split; [|split; [|split]]]].
    + rewrite fire_unfold by (rewrite Hts2; left).
      rewrite Hw2, Hw1. reflexivity.
    + reflexivity.
    + cbn [timers set_this clearTimeout]. rewrite Hts2.
      by rewrite filter_cons_False by (intros H; by apply H).
    + unfold fire. cbn [timers set_this clearTimeout]. rewrite Hts2.
      rewrite filter_cons_False by (intros H; by apply H).
      by rewrite bool_decide_eq_false_2 by (apply not_elem_of_nil).
    + cbn [_content this set_this set_changesToNotify clearTimeout].
      by rewrite Hc2, Hc1.
    + cbn [objects set_this clearTimeout]. by rewrite Ho2, Ho1.
Qed.

Lemma notifications_are_debounced_witness :
  let w2 := _notifyChangesForIds [VStr "0"] OpRemove
              (_notifyChangesForIds [VStr "0"] OpUpdate foo_inserted) in
  timers w2 = [3%nat]
  /\ fire 2%nat w2 = None
  /\ (fst <$> fire 3%nat w2) = delivered [change "0" OpRemove (Some 0%nat)].
Proof.
  destruct (notifications_are_debounced [VStr "0"] [VStr "0"] OpUpdate OpRemove
              foo_inserted eq_refl) as (_ & H2 & H3 & w3 & H4 & _).
  split; [exact H2|]. split; [exact H3|].
  exact (f_equal (fmap fst) H4).
Defined.


(* ===================================================================== *)
(** * Sequences of calls *)
(* ===================================================================== *)

(** ** What every call leaves as it is *)

Lemma timers_ok_same (w w' : world) :
  timers w' = timers w ->
  _notifyTimeout (this w') = _notifyTimeout (this w) ->
  timers_ok w' = timers_ok w.
Proof. unfold timers_ok. by intros -> ->. Qed.

Lemma notify_timers_ok (ids : list value) (op : operationType) (w : world) :
  timers_ok w = true -> timers_ok (_notifyChangesForIds ids op w) = true.
Proof.
  intros Hok. destruct (notify_timer ids op w) as (Ht & Hts & _).
  unfold timers_ok in *. rewrite Ht, Hts.
  destruct (timers w) as [|t [|t' ts]]; [| |discriminate].
  - destruct (_notifyTimeout (this w)); cbn; apply Nat.eqb_refl.
  - destruct (_notifyTimeout (this w)) as [t0|]; [|discriminate].
    apply Nat.eqb_eq in Hok as ->.
    rewrite filter_cons_False by (intros H; by apply H).
    cbn. apply Nat.eqb_refl.
Qed.

Lemma kept_refl (w : world) : kept w w.
Proof. by split. Qed.

Lemma kept_trans (w1 w2 w3 : world) : kept w1 w2 -> kept w2 w3 -> kept w1 w3.
Proof.
  intros [Hn1 Hc1 Ho1 Hi1 Ht1] [Hn2 Hc2 Ho2 Hi2 Ht2]. split.
  - congruence.
  - lia.
  - lia.
  - intros l Hl. rewrite Hi2; [by apply Hi1|]. by rewrite Hi1.
  - auto.
Qed.

Lemma kept_notify (ids : list value) (op : operationType) (w : world) :
  kept w (_notifyChangesForIds ids op w).
Proof.
  destruct (notify_frame ids op w) as (Ho & _ & _ & Hl & Hn).
  split; rewrite ?Ho, ?Hl, ?Hn; try done.
  apply notify_timers_ok.
Qed.

Lemma kept_watchers (ws : list (value * callback)) (w : world) :
  kept w (set_this (set_watchers ws (this w)) w).
Proof. by split. Qed.

Lemma kept_content (ls : list loc) (w : world) :
  kept w (set_this (set_content ls (this w)) w).
Proof. by split. Qed.

Lemma id_of_allocated (h : heap) (l : loc) :
  id_of h l <> VUndefined -> (l < List.length h)%nat.
Proof.
  unfold id_of, deref. intros Hid.
  destruct (h !! l) as [o|] eqn:E; [|done]. by apply lookup_lt_Some in E.
Qed.

Lemma kept_extension (added : heap) (w : world) :
  kept w (set_objects (objects w ++ added) w).
Proof.
  split; try done.
  - cbn. rewrite length_app. lia.
  - intros l Hl. cbn. unfold id_of.
    by rewrite deref_app_l by (by apply id_of_allocated).
Qed.

Lemma kept_subscribe (watcher : value) (cb : option callback) (w : world) :
  kept w (snd (subscribe watcher cb w)).
Proof.
  unfold subscribe. destruct cb; [destruct (truthy watcher)|]; cbn [snd];
    first [apply kept_refl | apply kept_watchers].
Qed.

Lemma kept_unsubscribe (watcher : value) (w : world) :
  kept w (snd (unsubscribe watcher w)).
Proof.
  unfold unsubscribe. destruct (map_has _ _); cbn [snd];
    first [apply kept_refl | apply kept_watchers].
Qed.

Lemma kept_insert_loop (data : list loc) (w : world) (badId : value) :
  kept w (fst (foldl insert_check (w, badId) data)).
Proof.
  destruct (insert_loop_any data w badId) as (Ht & Hc & Htm & _ & Hl & Ho).
  split.
  - by rewrite Ht.
  - lia.
  - lia.
  - intros l Hl'. unfold id_of. rewrite Ho; [done|by right].
  - intros Hok. rewrite <- Hok. apply timers_ok_same; [done|]. by rewrite Ht.
Qed.

Lemma kept_insert (data : data_arg) (w : world) : kept w (snd (insert data w)).
Proof.
  destruct (fst (insert data w)) as [[]| | |] eqn:Hres.
  { rewrite (insert_resolved w data Hres). cbv zeta.
    eapply kept_trans; [|apply kept_notify].
    eapply kept_trans; [apply (kept_insert_loop (batch data) w VNull)|].
    apply kept_content. }
  all: unfold insert in *;
    pose proof (kept_insert_loop (batch data) w VNull) as Hk;
    destruct data as [x|ls| |]; try apply kept_refl; cbn [batch] in *;
    destruct (foldl insert_check _ _) as [w1 badId];
    by destruct (negb (strict_eq badId VNull)).
Qed.

Lemma kept_insertOne (data : data_arg) (w : world) : kept w (snd (insertOne data w)).
Proof.
  unfold insertOne. destruct data; first [apply kept_insert | apply kept_refl].
Qed.

Lemma kept_insertMany (data : data_arg) (w : world) :
  kept w (snd (insertMany data w)).
Proof.
  unfold insertMany. destruct data; first [apply kept_insert | apply kept_refl].
Qed.

Lemma find_world (query projection : value) (opts : options) (w : world) :
  exists added,
    snd (find query projection opts w) = set_objects (objects w ++ added) w.
Proof.
  assert (Hsame : exists added, w = set_objects (objects w ++ added) w).
  { exists []. by rewrite app_nil_r, set_objects_same. }
  unfold find. destruct (negb _ && _); [exact Hsame|].
  destruct (find_filter _ w) as [filtered|]; [|exact Hsame]. cbn [then_].
  destruct (find_sort opts (objects w) filtered) as [sorted|]; [|exact Hsame].
  cbn [then_].
  destruct (find_project projection _ (objects w)) as [[res h']|] eqn:E;
    [|exact Hsame].
  cbn [snd]. unfold find_project in E. destruct (truthy projection).
  - destruct (own_keys projection) as [ks|]; [|discriminate]. cbn in E.
    apply find_project_all_extends in E as [added ->]. by exists added.
  - injection E as <- <-. exists []. by rewrite app_nil_r.
Qed.

Lemma kept_find (query projection : value) (opts : options) (w : world) :
  kept w (snd (find query projection opts w)).
Proof.
  destruct (find_world query projection opts w) as [added ->].
  apply kept_extension.
Qed.

Lemma findOne_world (query projection : value) (opts : options) (w : world) :
  snd (findOne query projection opts w)
  = snd (find query projection (with_limit (VNum 1) opts) w).
Proof. unfold findOne. by destruct (find _ _ _ _). Qed.

Lemma kept_remove_loop (results : list loc) (w : world) (ids : list value) :
  kept w (fst (foldl remove_one (w, ids) results)).
Proof.
  revert w ids. induction results as [|x results IH]; intros w ids;
    [apply kept_refl|].
  cbn [foldl]. unfold remove_one at 2.
  destruct (findIndex _ (_content (this w))) as [i|]; [|apply IH].
  eapply kept_trans; [|apply IH]. apply kept_content.
Qed.

Lemma kept_remove (query : value) (opts : options) (w : world) :
  kept w (snd (remove query opts w)).
Proof.
  unfold remove.
  rewrite (surjective_pairing (find query VUndefined _ w)).
  rewrite find_unprojected_world.
  destruct (fst (find query VUndefined _ w)) as [results| | |]; try apply kept_refl.
  pose proof (kept_remove_loop results w []) as Hk.
  destruct (foldl remove_one (w, []) results) as [w2 ids]. cbn [fst snd] in *.
  eapply kept_trans; [exact Hk|apply kept_notify].
Qed.

Lemma kept_fire (t : timer) (w : world) :
  kept w (match fire t w with Some (_, w') => w' | None => w end).
Proof.
  unfold fire. destruct (bool_decide (t ∈ timers w)) eqn:Hin; [|apply kept_refl].
  apply bool_decide_eq_true in Hin.
  split; try done. unfold timers_ok. cbn.
  destruct (timers w) as [|t0 [|t1 ts]]; [done| |done].
  apply list_elem_of_singleton in Hin as ->.
  by rewrite filter_cons_False by (intros H; by apply H).
Qed.

Section Kept.

Variable modify : value -> value -> result obj.

Lemma kept_update_loop (replace : value) (results : list loc) (w : world) :
  kept w (set_objects
            (fst (foldl (update_one modify replace) (objects w, None) results)) w).
Proof.
  split; try done.
  - cbn. by destruct (update_loop_effect modify replace results (objects w, None) 0%nat)
      as [-> _].
  - intros l _. cbn.
    by destruct (update_loop_effect modify replace results (objects w, None) l)
      as [_ ->].
Qed.

Lemma kept_update (query replace : value) (opts : options) (w : world) :
  kept w (snd (update modify query replace opts w)).
Proof.
  unfold update. destruct (negb _ && _); [apply kept_refl|].
  rewrite (surjective_pairing (find query VUndefined opts w)).
  rewrite find_unprojected_world.
  destruct (fst (find query VUndefined opts w)) as [results| | |];
    try apply kept_refl.
  destruct (List.length results =? 0)%nat.
  - destruct (truthy (upsert opts)); [|apply kept_refl].
    destruct (modify query replace) as [doc|]; [|apply kept_refl].
    unfold alloc. cbv beta iota zeta.
    set (w0 := set_objects (objects w ++ [doc]) w).
    pose proof (kept_insertOne (DataDoc (List.length (objects w))) w0) as Hk.
    assert (H0 : kept w w0) by apply kept_extension.
    destruct (insertOne (DataDoc (List.length (objects w))) w0) as [[| | |] w2];
      cbn [snd] in *; by eapply kept_trans.
  - pose proof (kept_update_loop replace results w) as Hk.
    destruct (foldl (update_one modify replace) (objects w, None) results)
      as [h [e|]]; cbn [fst snd] in *; [assumption|].
    eapply kept_trans; [exact Hk|apply kept_notify].
Qed.

Lemma kept_run (c : call) (w : world) : kept w (run modify c w).
Proof.
  destruct c; cbn [run].
  - apply kept_subscribe.
  - apply kept_unsubscribe.
  - apply kept_refl.
  - apply kept_insert.
  - apply kept_insertOne.
  - apply kept_insertMany.
  - apply kept_find.
  - rewrite findOne_world. apply kept_find.
  - apply kept_update.
  - apply kept_update.
  - apply kept_update.
  - apply kept_remove.
  - apply kept_fire.
Qed.

Lemma kept_run_all (cs : list call) (w : world) : kept w (run_all modify cs w).
Proof.
  revert w. induction cs as [|c cs IH]; intros w; [apply kept_refl|].
  unfold run_all. cbn [foldl].
  eapply kept_trans; [apply (kept_run c)|apply IH].
Qed.

(** Through any sequence of calls and timeouts, an object that has an [_id]
    keeps it, the counter never decreases and the name of the collection
    never changes. *)
Theorem calls_never_alter_ids (cs : list call) (w : world) (l : loc) :
  id_of (objects w) l <> VUndefined ->
  id_of (objects (run_all modify cs w)) l = id_of (objects w) l
  /\ (_lastId (this w) <= _lastId (this (run_all modify cs w)))%nat
  /\ _name (this (run_all modify cs w)) = _name (this w).
Proof.
  intros Hl. destruct (kept_run_all cs w) as [Hn Hc _ Hi _]. auto.
Qed.

(** After any sequence of calls and timeouts on a new collection, at most
    one timeout is armed, and it is the one that [_notifyTimeout] holds. *)
Theorem at_most_one_timeout_is_armed (cs : list call) (name : string) (h : heap) :
  let w := run_all modify cs (new_world name h) in
  timers w = []
  \/ exists t, timers w = [t] /\ _notifyTimeout (this w) = Some t.
Proof.
  destruct (kept_run_all cs (new_world name h)) as [_ _ _ _ Ht].
  specialize (Ht eq_refl). cbv zeta. unfold timers_ok in Ht.
  destruct (timers _) as [|t [|t' ts]]; [by left| |discriminate].
  right. exists t. destruct (_notifyTimeout _) as [t0|]; [|discriminate].
  by apply Nat.eqb_eq in Ht as ->.
Qed.

Lemma well_formed_run (c : call) (w : world) :
  well_formed w = true ->
  batch_allocated (call_batch c) w = true ->
  well_formed (run modify c w) = true.
Proof.
  intros Hwf Hal. destruct c; cbn [run call_batch] in *.
  - by rewrite subscribe_well_formed.
  - by rewrite unsubscribe_well_formed.
  - assumption.
  - by apply insert_well_formed.
  - unfold insertOne. destruct data; try assumption; by apply insert_well_formed.
  - unfold insertMany. destruct data; try assumption; by apply insert_well_formed.
  - by apply find_well_formed.
  - rewrite findOne_world. by apply find_well_formed.
  - by apply update_well_formed.
  - by apply update_well_formed.
  - by apply update_well_formed.
  - by apply remove_well_formed.
  - destruct (fire t w) as [[ds w']|] eqn:Hf; [|assumption].
    by apply (fire_well_formed t w ds w').
Qed.

(** Through any sequence of calls and timeouts every stored document is an
    object of the heap and has an [_id], when each call that inserts hands
    over objects of the heap. *)
Theorem calls_keep_store_well_formed (cs : list call) (w : world) :
  well_formed w = true ->
  calls_allocated modify cs w = true ->
  well_formed (run_all modify cs w) = true.
Proof.
  revert w. induction cs as [|c cs IH]; intros w Hwf Hal; [assumption|].
  cbn [calls_allocated] in Hal. apply andb_true_iff in Hal as [Hc Hcs].
  unfold run_all. cbn [foldl]. apply IH; [|assumption].
  by apply well_formed_run.
Qed.

End Kept.

Lemma calls_never_alter_ids_witness :
  id_of (objects (run_all modify_replacement
                    [CallUpdate query_all (VObj 101 [("_id", VStr "x"); ("num", VNum 0)])
                       no_options;
                     CallRemove query_all no_options]
                    four_docs)) 2%nat = VStr "2".
Proof.
  apply (calls_never_alter_ids modify_replacement
           [CallUpdate query_all (VObj 101 [("_id", VStr "x"); ("num", VNum 0)])
              no_options;
            CallRemove query_all no_options] four_docs 2%nat).
  vm_compute. discriminate.
Defined.

Lemma calls_keep_store_well_formed_witness :
  well_formed
    (run_all modify_replacement
       [CallInsertMany (DataArray [0; 1]%nat);
        CallFind query_all (VObj 101 [("num", VNum 1)]) no_options;
        CallInsertOne (DataDoc 2%nat);
        CallUpdate (VObj 102 [("num", VNum 7)]) (VObj 103 [("num", VNum 8)])
          (only "upsert" (VBool true));
        CallRemove query_all (only "justOne" (VBool true));
        Fire 5%nat]
       (new_world "heroes" [num_doc 1; num_doc 2])) = true.
Proof.
  apply (calls_keep_store_well_formed modify_replacement); vm_compute; reflexivity.
Defined.


(* ===================================================================== *)
(** * The database: [getCollection] and [showCollections] *)
(* ===================================================================== *)

(** The tests of the repository. *)
Example test_create_collection :
  showCollections (get_all ["my-col"] new_database) = ["my-col"].
Proof. reflexivity. Qed.

Example test_create_collection_once :
  showCollections (get_all ["my-col"; "my-col"] new_database) = ["my-col"].
Proof. reflexivity. Qed.

(** The order of [Object.keys]: array indices first. *)
Example test_key_order :
  showCollections (get_all ["heroes"; "10"; "9"; "007"] new_database)
  = ["9"; "10"; "heroes"; "007"].
Proof. vm_compute. reflexivity. Qed.

Lemma own_insert_keys {V} (k : string) (v : V) (o : list (string * V)) :
  map fst (own_insert k v o) ≡ₚ k :: map fst o.
Proof.
  induction o as [|[k' v'] o IH]; [reflexivity|].
  cbn [own_insert].
  destruct (array_index k) as [n|], (array_index k') as [n'|];
    try destruct (n <? n'); cbn [map fst]; try reflexivity;
    rewrite IH; apply Permutation_swap.
Qed.

Lemma own_lookup_keys {V} (k : string) (o : list (string * V)) :
  own_lookup k o = None <-> k ∉ map fst o.
Proof.
  induction o as [|[k' v'] o IH]; cbn.
  - split; [intros _; apply not_elem_of_nil|done].
  - rewrite not_elem_of_cons. destruct (String.eqb_spec k' k) as [->|Hne].
    + split; [discriminate|]. by intros [? _].
    + rewrite IH. split; [intros H; split; [congruence|done]|by intros [_ ?]].
Qed.

Lemma own_lookup_insert_eq {V} (k : string) (v : V) (o : list (string * V)) :
  own_lookup k o = None -> own_lookup k (own_insert k v o) = Some v.
Proof.
  induction o as [|[k' v'] o IH]; cbn [own_insert own_lookup].
  - by rewrite String.eqb_refl.
  - destruct (String.eqb_spec k' k) as [->|Hne]; [discriminate|]. intros Hn.
    destruct (array_index k) as [n|], (array_index k') as [n'|];
      try destruct (n <? n'); cbn [own_lookup];
      rewrite ?String.eqb_refl; try reflexivity;
      destruct (String.eqb_spec k' k); try congruence; by apply IH.
Qed.

Lemma own_lookup_insert_ne {V} (k k0 : string) (v : V) (o : list (string * V)) :
  k <> k0 -> own_lookup k0 (own_insert k v o) = own_lookup k0 o.
Proof.
  intros Hne. induction o as [|[k' v'] o IH]; cbn [own_insert own_lookup].
  - destruct (String.eqb_spec k k0); [congruence|reflexivity].
  - destruct (array_index k) as [n|], (array_index k') as [n'|];
      try destruct (n <? n'); cbn [own_lookup];
      destruct (String.eqb_spec k k0); try congruence;
      destruct (String.eqb_spec k' k0); try congruence; by apply IH.
Qed.

Lemma getCollection_cases (name : string) (db : ReactiveDatabase) :
  (exists m, collections_get name db = Some m /\ getCollection name db = (m, db))
  \/ (own_lookup name (collections db) = None
      /\ (name ∉ object_prototype_names)
      /\ getCollection name db
         = (Instance (List.length (instances db)),
            {| collections := own_insert name (List.length (instances db))
                                (collections db);
               instances := instances db ++ [constructor name] |})).
Proof.
  unfold getCollection, collections_get.
  destruct (own_lookup name (collections db)) as [r|] eqn:Hl; [left; eauto|].
  destruct (existsb (String.eqb name) object_prototype_names) eqn:Hp;
    [left; eauto|].
  right. repeat split.
  intros Hin%list_elem_of_In.
  assert (existsb (String.eqb name) object_prototype_names = true); [|congruence].
  apply existsb_exists. exists name. split; [assumption|apply String.eqb_refl].
Qed.

(** A second [getCollection] with the same name returns what the first one
    returned and changes nothing. *)
Theorem getCollection_is_idempotent (name : string) (db : ReactiveDatabase) :
  getCollection name (snd (getCollection name db)) = getCollection name db.
Proof.
  destruct (getCollection_cases name db) as [(m & Hm & ->)|(Hl & _ & ->)].
  - cbn [snd]. unfold getCollection. by rewrite Hm.
  - cbn [snd]. unfold getCollection, collections_get. cbn [collections].
    by rewrite (own_lookup_insert_eq _ _ _ Hl).
Qed.

Lemma getCollection_registry (name : string) (db : ReactiveDatabase) :
  registry_ok db ->
  registry_ok (snd (getCollection name db))
  /\ (forall n, n ∈ showCollections (snd (getCollection name db))
                <-> n ∈ showCollections db
                    \/ (n = name /\ name ∉ object_prototype_names)).
Proof.
  intros (Hnd & Hproto & Hinst).
  destruct (getCollection_cases name db) as [(m & Hm & ->)|(Hl & Hnp & ->)];
    cbn [snd].
  - split; [by repeat split|]. intros n. split; [by left|].
    intros [?|[-> Hnp]]; [assumption|].
    unfold collections_get in Hm.
    destruct (own_lookup name (collections db)) as [r|] eqn:Hl.
    + destruct (decide (name ∈ showCollections db)) as [|Hn]; [assumption|].
      apply own_lookup_keys in Hn. unfold showCollections in *. congruence.
    + exfalso. destruct (existsb (String.eqb name) object_prototype_names) eqn:Hp;
        [|discriminate].
      apply existsb_exists in Hp as (x & Hx & ->%String.eqb_eq).
      by apply Hnp, list_elem_of_In.
  - assert (Hmem : forall n,
              n ∈ map fst (own_insert name (List.length (instances db)) (collections db))
              <-> n = name \/ n ∈ showCollections db).
    { intros n. rewrite own_insert_keys, elem_of_cons. reflexivity. }
    split; [split; [|split]|].
    + unfold showCollections. cbn [collections]. rewrite own_insert_keys.
      apply NoDup_cons. split; [by apply own_lookup_keys|assumption].
    + intros n. unfold showCollections at 1. cbn [collections]. rewrite Hmem.
      intros [->|Hn]; [assumption|by apply Hproto].
    + intros n r. cbn [collections instances].
      destruct (decide (name = n)) as [->|Hne].
      * rewrite (own_lookup_insert_eq _ _ _ Hl). intros [= <-].
        by rewrite list_lookup_middle.
      * rewrite (own_lookup_insert_ne _ _ _ _ Hne). intros Hr.
        specialize (Hinst n r Hr).
        destruct (instances db !! r) as [c|] eqn:Hc; [|discriminate].
        by rewrite (lookup_app_l_Some _ _ _ _ Hc).
    + intros n. unfold showCollections at 1. cbn [collections]. rewrite Hmem.
      split; [intros [->|?]; [right|left]; done|].
      intros [?|[-> _]]; [by right|by left].
Qed.

Lemma get_all_registry (names : list string) (db : ReactiveDatabase) :
  registry_ok db ->
  registry_ok (get_all names db)
  /\ (forall n, n ∈ showCollections (get_all names db)
                <-> n ∈ showCollections db
                    \/ (n ∈ names /\ n ∉ object_prototype_names)).
Proof.
  revert db. induction names as [|name names IH]; intros db Hok.
  - split; [assumption|]. intros n. split; [by left|].
    intros [?|[H _]]; [assumption|by apply elem_of_nil in H].
  - destruct (getCollection_registry name db Hok) as [Hok1 Hmem1].
    destruct (IH _ Hok1) as [Hok' Hmem'].
    unfold get_all in *. cbn [foldl]. split; [assumption|].
    intros n. rewrite Hmem', Hmem1, elem_of_cons.
    split.
    + intros [[?|[-> ?]]|[? ?]]; auto.
    + intros [?|[[->|?] ?]]; auto.
Qed.

(** After any sequence of [getCollection] on a new database,
    [showCollections] lists, each once, the requested names that are not
    member names of [Object.prototype]; [getCollection] with a listed name
    returns the collection of that name, and with a member name of
    [Object.prototype] it returns the inherited member and creates no
    collection. *)
Theorem showCollections_lists_created_names (names : list string) :
  let db := get_all names new_database in
  NoDup (showCollections db)
  /\ (forall n, n ∈ showCollections db
                <-> n ∈ names /\ n ∉ object_prototype_names)
  /\ (forall n, n ∈ showCollections db ->
        exists r, getCollection n db = (Instance r, db)
                  /\ _name <$> instances db !! r = Some n)
  /\ (forall n, n ∈ object_prototype_names ->
        getCollection n db = (Inherited n, db)).
Proof.
  assert (H0 : registry_ok new_database).
  { repeat split; [apply NoDup_nil_2|by intros n H%elem_of_nil|discriminate]. }
  destruct (get_all_registry names new_database H0) as [(Hnd & Hproto & Hinst) Hmem].
  cbv zeta. split; [assumption|]. split; [|split].
  - intros n. rewrite Hmem. split; [|by right].
    intros [H%elem_of_nil|?]; [done|assumption].
  - intros n Hn.
    destruct (own_lookup n (collections (get_all names new_database))) as [r|] eqn:Hl.
    + exists r. split; [|by apply Hinst].
      unfold getCollection, collections_get. by rewrite Hl.
    + apply own_lookup_keys in Hl. by destruct Hl.
  - intros n Hn. unfold getCollection, collections_get.
    destruct (own_lookup n (collections (get_all names new_database))) as [r|] eqn:Hl.
    + exfalso. apply (Hproto n); [|assumption].
      destruct (decide (n ∈ showCollections (get_all names new_database)))
        as [|Hnin]; [assumption|].
      apply own_lookup_keys in Hnin. unfold showCollections in *. congruence.
    + assert (existsb (String.eqb n) object_prototype_names = true) as ->; [|done].
      apply existsb_exists. exists n.
      split; [by apply list_elem_of_In|apply String.eqb_refl].
Qed.
